(** * PyFactorGraph: measurement entities and the GOATS ingestion pipeline

    A shallow embedding of [py_factor_graph/measurements.py] and
    [py_factor_graph/parsing/parse_goats_data.py].

    Conventions of the embedding.
    - A Python call that may raise is a value of [outcome]; the exception
      classes that occur are the constructors of [exn].
    - A binary64 value is an [xfloat]: NaN, a signed infinity, or a finite
      value carried as the exact rational it denotes.  The arithmetic the
      code performs on floats, [1 / x] and [x ** 2], rounds its exact result
      to the nearest binary64, ties to even: it overflows, underflows to
      zero and raises as Python's does.
    - A numpy scalar is a [scalar]: a float64, or a complex128 with two
      float64 parts, so that [np.isreal] has something to reject.
    - Methods that mutate [self.pyfg] are state transformers on the factor
      graph which keep the graph reached when an exception is raised. *)

From Stdlib Require Import String Ascii Bool Arith ZArith QArith Qround Qabs Qpower.
From Stdlib Require Import Lia Lqa List.
From Stdlib Require Import DecimalString ListDec.
From Stdlib Require DecimalNat DecimalFacts.
Import ListNotations.
Local Close Scope Q_scope.
Local Open Scope string_scope.

(* ------------------------------------------------------------------ *)
(** ** Exceptions and outcomes *)

Inductive exn : Type :=
| ValueError (msg : string)
| AssertionError (msg : string)
| KeyError (key : string)
| IndexError (msg : string)
| TypeError (msg : string)
| ZeroDivisionError (msg : string)
| OverflowError (msg : string)
(* the two failure kinds of the factor graph aggregate *)
| DuplicateIdentifier (name : string)
| ReferentialIntegrity (name : string).

Inductive outcome (A : Type) : Type :=
| Returned (a : A)
| Raised (e : exn).
Arguments Returned {A} a.
Arguments Raised {A} e.

Definition bind {A B : Type} (c : outcome A) (k : A -> outcome B) : outcome B :=
  match c with
  | Returned a => k a
  | Raised e => Raised e
  end.

Notation "x <- c ;; k" := (bind c (fun x => k))
  (at level 61, c at next level, right associativity).
Notation "' pat <- c ;; k" := (bind c (fun x => match x with pat => k end))
  (at level 61, pat pattern, c at next level, right associativity).

Definition raises {A : Type} (c : outcome A) : Prop := exists e, c = Raised e.
Definition returns {A : Type} (c : outcome A) : Prop := exists a, c = Returned a.

(** [[f(x) for x in xs]], stopping at the first exception. *)
Fixpoint mapM {A B : Type} (f : A -> outcome B) (xs : list A) : outcome (list B) :=
  match xs with
  | [] => Returned []
  | x :: xs' => y <- f x ;; ys <- mapM f xs' ;; Returned (y :: ys)
  end.

(* ------------------------------------------------------------------ *)
(** ** Python strings, sequences and dicts *)

(** [s.startswith(p)] *)
Definition startswith (s p : string) : bool := String.prefix p s.

(** [p in s] for strings *)
Fixpoint str_in (p s : string) : bool :=
  String.prefix p s ||
  match s with
  | EmptyString => false
  | String _ s' => str_in p s'
  end.

(** [str(n)] for a non-negative [int] *)
Definition str_of_nat (n : nat) : string := NilZero.string_of_uint (Nat.to_uint n).

(** [str(z)] for an [int] *)
Definition str_of_Z (z : Z) : string :=
  match z with
  | Zneg p => "-" ++ str_of_nat (Pos.to_nat p)
  | _ => str_of_nat (Z.to_nat z)
  end.

(** [xs[i]] for [i >= 0] *)
Definition getitem {A : Type} (xs : list A) (i : nat) : outcome A :=
  match nth_error xs i with
  | Some a => Returned a
  | None => Raised (IndexError "index out of range")
  end.

(** [xs[:k]] *)
Definition slice_to {A : Type} (k : Z) (xs : list A) : list A :=
  if (0 <=? k)%Z then firstn (Z.to_nat k) xs
  else firstn (Z.to_nat (Z.of_nat (length xs) + k)) xs.

(** [enumerate(xs)] *)
Definition enumerate {A : Type} (xs : list A) : list (nat * A) :=
  combine (seq 0 (length xs)) xs.

(** [d[k]] for a dict with string keys, given as its items *)
Fixpoint dict_get {V : Type} (d : list (string * V)) (k : string) : outcome V :=
  match d with
  | [] => Raised (KeyError k)
  | (k', v) :: d' => if String.eqb k' k then Returned v else dict_get d' k
  end.

(** [len(set(xs))] for a tuple of strings *)
Definition len_set (xs : list string) : nat := length (nodup string_dec xs).

(* ------------------------------------------------------------------ *)
(** ** Numbers *)

Inductive xfloat : Type :=
| NaN
| Inf (negative : bool)
| Fin (q : Q).

Inductive scalar : Type :=
| Real (x : xfloat)
| Cplx (re im : xfloat).

Definition fl (q : Q) : scalar := Real (Fin q).

Module XFloat.

Definition isnan (x : xfloat) : bool :=
  match x with NaN => true | _ => false end.

Definition isinf (x : xfloat) : bool :=
  match x with Inf _ => true | _ => false end.

Definition is_zero (x : xfloat) : bool :=
  match x with Fin q => Qeq_bool q 0 | _ => false end.

(** [a < b]; every comparison with NaN is false *)
Definition ltb (a b : xfloat) : bool :=
  match a, b with
  | NaN, _ | _, NaN => false
  | Inf true, Inf true => false
  | Inf true, _ => true
  | _, Inf true => false
  | Inf false, _ => false
  | _, Inf false => true
  | Fin p, Fin q => match (p ?= q)%Q with Lt => true | _ => false end
  end.

(** [a == b] *)
Definition eqb (a b : xfloat) : bool :=
  match a, b with
  | Fin p, Fin q => Qeq_bool p q
  | Inf s, Inf t => Bool.eqb s t
  | _, _ => false
  end.

(** *** Rounding to binary64

    A binary64 has 53 significant bits, and its last place has an exponent
    from -1074 (the subnormals) to 971. *)

(** the exponent [k] of the binade of a positive rational:
    [2 ^ k <= x < 2 ^ (k + 1)] *)
Definition binade (x : Q) : Z :=
  let k := (Z.log2 (Qnum x) - Z.log2 (Zpos (Qden x)))%Z in
  if Qle_bool (2 ^ k) x then k else (k - 1)%Z.

(** the nearest integer, the even one of two that are equally near *)
Definition rint (s : Q) : Z :=
  let m := Qfloor s in
  match (s - inject_Z m ?= 1 # 2)%Q with
  | Lt => m
  | Gt => (m + 1)%Z
  | Eq => if Z.even m then m else (m + 1)%Z
  end.

(** the exponent of the last place of the binary64 values around [x] *)
Definition ulp_exp (x : Q) : Z := Z.max (binade x - 52) (-1074).

(** the nearest multiple of the last place, for a positive rational *)
Definition nearest (x : Q) : Q :=
  (inject_Z (rint (x / 2 ^ ulp_exp x)) * 2 ^ ulp_exp x)%Q.

(** the binary64 nearest to a rational; what rounds to [2 ^ 1024] or beyond
    is an infinity *)
Definition round (q : Q) : xfloat :=
  match (q ?= 0)%Q with
  | Eq => Fin 0
  | Gt => let v := nearest q in
          if Qle_bool (2 ^ 1024) v then Inf false else Fin (Qred v)
  | Lt => let v := nearest (- q) in
          if Qle_bool (2 ^ 1024) v then Inf true else Fin (- Qred v)
  end.


(** [x ** 2] on Python floats: the power of the C library, taken as
    correctly rounded.  A finite operand whose square overflows raises; a
    square that underflows is zero. *)
Definition sq (x : xfloat) : outcome xfloat :=
  match x with
  | NaN => Returned NaN
  | Inf _ => Returned (Inf false)
  | Fin q => match round (q * q) with
             | Inf _ => Raised (OverflowError "(34, 'Numerical result out of range')")
             | r => Returned r
             end
  end.

(** [1 / x] on Python floats: a zero divisor raises, and the quotient is
    rounded, to an infinity if it overflows *)
Definition recip (x : xfloat) : outcome xfloat :=
  match x with
  | NaN => Returned NaN
  | Inf _ => Returned (Fin 0)
  | Fin q => if Qeq_bool q 0
             then Raised (ZeroDivisionError "float division by zero")
             else Returned (round (1 / q))
  end.

(** finite and strictly positive *)
Definition positive (x : xfloat) : Prop :=
  match x with Fin q => (0 < q)%Q | _ => False end.

End XFloat.

(** Rounding is evaluated on demand only, never by simplification. *)
Opaque XFloat.round.

Module Np.

(** [np.isnan] *)
Definition isnan (v : scalar) : bool :=
  match v with
  | Real x => XFloat.isnan x
  | Cplx re im => XFloat.isnan re || XFloat.isnan im
  end.

(** [np.isinf] *)
Definition isinf (v : scalar) : bool :=
  match v with
  | Real x => XFloat.isinf x
  | Cplx re im => XFloat.isinf re || XFloat.isinf im
  end.

(** [np.isreal]: the imaginary part is zero *)
Definition isreal (v : scalar) : bool :=
  match v with
  | Real _ => true
  | Cplx _ im => XFloat.is_zero im
  end.

Definition re_part (v : scalar) : xfloat :=
  match v with Real x => x | Cplx re _ => re end.

Definition im_part (v : scalar) : xfloat :=
  match v with Real _ => Fin 0 | Cplx _ im => im end.

(** [a < b]: numpy orders complex values lexicographically *)
Definition ltb (a b : scalar) : bool :=
  XFloat.ltb (re_part a) (re_part b)
  || (XFloat.eqb (re_part a) (re_part b) && XFloat.ltb (im_part a) (im_part b)).

(** [np.count_nonzero(~np.isnan(xs))] *)
Definition count_non_nan (xs : list scalar) : nat :=
  length (filter (fun v => negb (isnan v)) xs).

(** [np.any(~np.isnan(xs))] *)
Definition any_non_nan (xs : list scalar) : bool :=
  existsb (fun v => negb (isnan v)) xs.

End Np.

(* ------------------------------------------------------------------ *)
(** ** measurements.py *)

Module PoseMeasurement.

Record t : Type := mk {
  base_pose : string;
  to_pose : string;
  x : xfloat;
  y : xfloat;
  theta : xfloat;
  translation_weight : xfloat;
  rotation_weight : xfloat
}.

(** The generated [__init__]: every field is a bare [attr.ib()], there is
    no validator to run. *)
Definition init (base_pose to_pose : string) (x y theta : xfloat)
    (translation_weight rotation_weight : xfloat) : outcome t :=
  Returned (mk base_pose to_pose x y theta translation_weight rotation_weight).

Definition translation_vector (self : t) : list xfloat := [x self; y self].

Definition covariance (self : t) : outcome (list (list xfloat)) :=
  c00 <- XFloat.recip (translation_weight self) ;;
  c11 <- XFloat.recip (translation_weight self) ;;
  c22 <- XFloat.recip (rotation_weight self) ;;
  Returned [ [c00; Fin 0; Fin 0];
             [Fin 0; c11; Fin 0];
             [Fin 0; Fin 0; c22] ].

End PoseMeasurement.

Module FGRangeMeasurement.

Record t : Type := mk {
  association : list string;
  dist : scalar;
  stddev : xfloat
}.

Definition err_arity : exn :=
  ValueError "Range measurements must have exactly two variables associated with.".
Definition err_unique : exn :=
  ValueError "Range measurements must have unique variables.".
Definition err_first : exn :=
  ValueError "First association must be a pose - cannot start with L".
Definition err_second : exn :=
  ValueError "Second association must be a Landmark - must start with L".

Definition check_association (value : list string) : outcome unit :=
  if negb (Nat.eqb (length value) 2) then Raised err_arity else
  v0 <- getitem value 0 ;;
  v1 <- getitem value 1 ;;
  if String.eqb v0 v1 then Raised err_unique else
  if startswith v0 "L" then Raised err_first else
  if negb (startswith v1 "L") then Raised err_second else
  Returned tt.

(** The generated [__init__]: store the fields, then run the validator of
    [association]. *)
Definition init (association : list string) (dist : scalar) (stddev : xfloat)
    : outcome t :=
  _ <- check_association association ;;
  Returned (mk association dist stddev).

Definition weight (self : t) : outcome xfloat :=
  variance <- XFloat.sq (stddev self) ;;
  XFloat.recip variance.

Definition pose_key (self : t) : outcome string := getitem (association self) 0.
Definition landmark_key (self : t) : outcome string := getitem (association self) 1.

End FGRangeMeasurement.

Module AmbiguousFGRangeMeasurement.

Record t : Type := mk {
  true_association : list string;
  measured_association : list string;
  dist : scalar;
  stddev : xfloat
}.

Definition err_arity : exn :=
  ValueError "Range measurements must have exactly two variables associated with.".
Definition err_unique : exn :=
  ValueError "Range measurements must have unique variables.".

Definition check_true_association (value : list string) : outcome unit :=
  if negb (Nat.eqb (length value) 2) then Raised err_arity else
  if negb (Nat.eqb (length value) (len_set value)) then Raised err_unique else
  Returned tt.

Definition check_measured_association (value : list string) : outcome unit :=
  if negb (Nat.eqb (length value) 2) then Raised err_arity else
  if negb (Nat.eqb (length value) (len_set value)) then Raised err_unique else
  Returned tt.

(** The generated [__init__]: validators run in the order of the fields. *)
Definition init (true_association measured_association : list string)
    (dist : scalar) (stddev : xfloat) : outcome t :=
  _ <- check_true_association true_association ;;
  _ <- check_measured_association measured_association ;;
  Returned (mk true_association measured_association dist stddev).

Definition weight (self : t) : outcome xfloat :=
  variance <- XFloat.sq (stddev self) ;;
  XFloat.recip variance.

End AmbiguousFGRangeMeasurement.

Module PoseMeasurement2D.

(** Modelled from the spec: the class [PoseMeasurement2D], which the parser
    imports, is not among the sources.  It is the relative-pose factor of
    the data model; its fields are the keyword arguments of the parser's
    call, and like [PoseMeasurement] above it carries two precision scalars
    and runs no validator. *)
Record t : Type := mk {
  base_pose : string;
  to_pose : string;
  x : scalar;
  y : scalar;
  theta : scalar;
  translation_precision : xfloat;
  rotation_precision : xfloat
}.

Definition init (base_pose to_pose : string) (x y theta : scalar)
    (translation_precision rotation_precision : xfloat) : outcome t :=
  Returned (mk base_pose to_pose x y theta translation_precision rotation_precision).

End PoseMeasurement2D.

(* ------------------------------------------------------------------ *)
(** ** variables.py *)

Module LandmarkVariable2D.

(** Modelled from the spec: [py_factor_graph/variables.py] is not among the
    sources.  A Landmark Variable holds an identifier and a ground-truth
    position; nothing is validated at construction. *)
Record t : Type := mk {
  name : string;
  true_position : list scalar
}.

Definition init (name : string) (true_position : list scalar) : outcome t :=
  Returned (mk name true_position).

End LandmarkVariable2D.

Module PoseVariable2D.

(** Modelled from the spec: [py_factor_graph/variables.py] is not among the
    sources.  A Pose Variable holds an identifier, a ground-truth position and
    a ground-truth orientation; nothing is validated at construction. *)
Record t : Type := mk {
  name : string;
  true_position : list scalar;
  true_theta : scalar
}.

Definition init (name : string) (true_position : list scalar)
    (true_theta : scalar) : outcome t :=
  Returned (mk name true_position true_theta).

End PoseVariable2D.

(* ------------------------------------------------------------------ *)
(** ** factor_graph.py *)

Module FactorGraphData.

(** Modelled from the spec: [py_factor_graph/factor_graph.py] is not among
    the sources.  The aggregate owns the pose variables (in order of
    addition), the landmark variables and the two measurement collections.
    Adding a variable whose identifier is already present is rejected.  The
    spec says the aggregate SHOULD reject a measurement that names a variable
    not yet added; [validate_references] tells whether it does. *)
Record t : Type := mk {
  dimension : Z;
  pose_variables : list PoseVariable2D.t;
  landmark_variables : list LandmarkVariable2D.t;
  odom_measurements : list (nat * PoseMeasurement2D.t);
  range_measurements : list FGRangeMeasurement.t
}.

Definition init (dimension : Z) : t := mk dimension [] [] [] [].

Definition pose_exists (self : t) (name : string) : bool :=
  existsb (fun v => String.eqb (PoseVariable2D.name v) name) (pose_variables self).

Definition landmark_exists (self : t) (name : string) : bool :=
  existsb (fun v => String.eqb (LandmarkVariable2D.name v) name)
          (landmark_variables self).

Definition variable_exists (self : t) (name : string) : bool :=
  pose_exists self name || landmark_exists self name.

(** the first identifier of [names] that is not a variable of the graph *)
Definition first_missing (self : t) (names : list string) : option string :=
  find (fun n => negb (variable_exists self n)) names.

(** Modelled from the spec: [add_pose_variable] appends to the trajectory and
    rejects a duplicate identifier. *)
Definition add_pose_variable (self : t) (var : PoseVariable2D.t) : outcome t :=
  if variable_exists self (PoseVariable2D.name var)
  then Raised (DuplicateIdentifier (PoseVariable2D.name var))
  else Returned (mk (dimension self)
                    (pose_variables self ++ [var])%list
                    (landmark_variables self)
                    (odom_measurements self)
                    (range_measurements self)).

(** Modelled from the spec: [add_landmark_variable] inserts the landmark and
    rejects a duplicate identifier. *)
Definition add_landmark_variable (self : t) (var : LandmarkVariable2D.t) : outcome t :=
  if variable_exists self (LandmarkVariable2D.name var)
  then Raised (DuplicateIdentifier (LandmarkVariable2D.name var))
  else Returned (mk (dimension self)
                    (pose_variables self)
                    (landmark_variables self ++ [var])%list
                    (odom_measurements self)
                    (range_measurements self)).

Section Policy.

Variable validate_references : bool.

(** Modelled from the spec: the referential-integrity check of the two
    measurement add-operations, made when [validate_references] is set. *)
Definition check_references (self : t) (names : list string) : outcome unit :=
  if validate_references then
    match first_missing self names with
    | Some n => Raised (ReferentialIntegrity n)
    | None => Returned tt
    end
  else Returned tt.

(** Modelled from the spec: [add_odom_measurement] appends the factor after
    the check of its two pose identifiers. *)
Definition add_odom_measurement (self : t) (robot_index : nat)
    (m : PoseMeasurement2D.t) : outcome t :=
  _ <- check_references self
         [PoseMeasurement2D.base_pose m; PoseMeasurement2D.to_pose m] ;;
  Returned (mk (dimension self)
               (pose_variables self)
               (landmark_variables self)
               (odom_measurements self ++ [(robot_index, m)])%list
               (range_measurements self)).

(** Modelled from the spec: [add_range_measurement] appends the factor after
    the check of the identifiers of its association. *)
Definition add_range_measurement (self : t) (m : FGRangeMeasurement.t) : outcome t :=
  _ <- check_references self (FGRangeMeasurement.association m) ;;
  Returned (mk (dimension self)
               (pose_variables self)
               (landmark_variables self)
               (odom_measurements self)
               (range_measurements self ++ [m])%list).

End Policy.

(** a range measurement dangles when an identifier of its association is not
    a variable of the graph *)
Definition range_dangles (self : t) (m : FGRangeMeasurement.t) : bool :=
  negb (forallb (variable_exists self) (FGRangeMeasurement.association m)).

End FactorGraphData.

(* ------------------------------------------------------------------ *)
(** ** pandas and pathlib, as far as the parser uses them *)

(** A table read by [pd.read_csv]: the column labels and the rows.  A cell a
    row does not have reads as NaN, as pandas fills short lines. *)
Module DataFrame.

Record t : Type := mk {
  columns : list string;
  rows : list (list scalar)
}.

Definition cell (row : list scalar) (j : nat) : scalar := nth j row (Real NaN).

Fixpoint get_loc_from (cols : list string) (key : string) (j : nat) : outcome nat :=
  match cols with
  | [] => Raised (KeyError key)
  | c :: cols' => if String.eqb c key then Returned j else get_loc_from cols' key (S j)
  end.

(** [df.columns.get_loc(key)] *)
Definition get_loc (df : t) (key : string) : outcome nat :=
  get_loc_from (columns df) key 0.

(** [df[key].to_numpy()] *)
Definition getitem (df : t) (key : string) : outcome (list scalar) :=
  j <- get_loc df key ;;
  Returned (map (fun r => cell r j) (rows df)).

(** [df[keys].to_numpy()] for a list of labels: one entry per row *)
Definition getitem_list (df : t) (keys : list string) : outcome (list (list scalar)) :=
  js <- mapM (get_loc df) keys ;;
  Returned (map (fun r => map (cell r) js) (rows df)).

(** [df.iloc[:k, idx].to_numpy()] *)
Definition iloc_col_to (df : t) (k : Z) (idx : nat) : list scalar :=
  slice_to k (map (fun r => cell r idx) (rows df)).

End DataFrame.

(** A [pathlib.Path] together with what the file system answers about it. *)
Record Path : Type := mkPath {
  path_str : string;
  path_exists : bool;
  path_is_file : bool;
  path_suffix : string
}.

(* ------------------------------------------------------------------ *)
(** ** Methods that mutate the factor graph *)

(** A computation that reads and updates [self.pyfg] and may raise; the graph
    reached when it raises is kept. *)
Definition M (A : Type) : Type := FactorGraphData.t -> outcome A * FactorGraphData.t.

Definition retM {A : Type} (a : A) : M A := fun g => (Returned a, g).

Definition bindM {A B : Type} (c : M A) (k : A -> M B) : M B :=
  fun g => match c g with
           | (Returned a, g') => k a g'
           | (Raised e, g') => (Raised e, g')
           end.

(** a computation that does not touch the graph *)
Definition liftM {A : Type} (c : outcome A) : M A := fun g => (c, g).

(** a call of one of the aggregate's add-operations *)
Definition callM (op : FactorGraphData.t -> outcome FactorGraphData.t) : M unit :=
  fun g => match op g with
           | Returned g' => (Returned tt, g')
           | Raised e => (Raised e, g)
           end.

Notation "x <~ c ;; k" := (bindM c (fun x => k))
  (at level 61, c at next level, right associativity).
Notation "' pat <~ c ;; k" := (bindM c (fun x => match x with pat => k end))
  (at level 61, pat pattern, c at next level, right associativity).

(** [for x in xs: body], with the local variables the body rebinds. *)
Fixpoint for_in {A L : Type} (xs : list A) (body : L -> A -> M L) (locals : L) : M L :=
  match xs with
  | [] => retM locals
  | x :: xs' => l' <~ body locals x ;; for_in xs' body l'
  end.

(** [for x in xs: body] when the body rebinds nothing. *)
Definition for_each {A : Type} (xs : list A) (body : A -> M unit) : M unit :=
  for_in xs (fun _ x => body x) tt.

(* ------------------------------------------------------------------ *)
(** ** parsing/parse_goats_data.py *)

Definition _verify_path_is_goats_csv (path : Path) : outcome unit :=
  if negb (path_exists path) then
    Raised (ValueError (path_str path ++ " does not exist")) else
  if negb (path_is_file path) then
    Raised (ValueError (path_str path ++ " is not a file")) else
  if negb (String.eqb (path_suffix path) ".csv") then
    Raised (ValueError (path_str path ++ " is not a .csv file")) else
  Returned tt.

Module GoatsParser.

(** The attributes of the parser except [pyfg], which is the state the
    methods thread. *)
Record t : Type := mk {
  data_file_path : Path;
  beacon_loc_file_path : Path;
  dim : Z;
  filter_ranges : bool;
  _data : DataFrame.t;
  _beacon_locs : list (list scalar)
}.

(** The validator given for [dim]: it returns a truth value and never
    raises. *)
Definition _dim_validator (v : Z) : outcome bool :=
  Returned (existsb (Z.eqb v) [2; 3]%Z).

Definition _COLUMN_NAMES : list (string * string) :=
  [ ("x_pos", "insXYZ_1");
    ("y_pos", "insXYZ_2");
    ("z_pos", "insXYZ_3");
    ("x_pos_gt", "iNav_GT_1");
    ("y_pos_gt", "iNav_GT_2");
    ("z_pos_gt", "iNav_GT_3");
    ("roll", "insRPY_1");
    ("pitch", "insRPY_2");
    ("yaw", "insRPY_3");
    ("x_vel", "insVel_1");
    ("y_vel", "insVel_2");
    ("z_vel", "insVel_3");
    ("range_beacon_1", "ranges_1");
    ("range_beacon_2", "ranges_2");
    ("range_beacon_3", "ranges_3");
    ("range_beacon_4", "ranges_4");
    ("range_filtered_1", "filtered_ranges_1");
    ("range_filtered_2", "filtered_ranges_2");
    ("range_filtered_3", "filtered_ranges_3");
    ("range_filtered_4", "filtered_ranges_4") ].

Definition is_range_col (x : string) : bool :=
  startswith x "ranges_" && negb (str_in "filtered" x).

Definition is_filtered_range_col (x : string) : bool :=
  startswith x "filtered_ranges_".

Definition beacon_num_message (a b c : nat) : string :=
  "Number of beacon info is inconsistent. "
    ++ str_of_nat a ++ " vs " ++ str_of_nat b ++ " vs " ++ str_of_nat c.

Definition _check_beacon_num_consistent (self : t) : outcome unit :=
  let num_beacon_locs := length (_beacon_locs self) in
  let data_col_names := DataFrame.columns (_data self) in
  let range_cols := filter is_range_col data_col_names in
  let filtered_range_cols := filter is_filtered_range_col data_col_names in
  if Nat.eqb (length range_cols) (length filtered_range_cols)
     && Nat.eqb (length filtered_range_cols) num_beacon_locs
  then Returned tt
  else Raised (AssertionError
                 (beacon_num_message (length range_cols)
                    (length filtered_range_cols) num_beacon_locs)).

Definition num_beacons (self : t) : nat := length (_beacon_locs self).

Definition _get_unfiltered_range (self : t) (beacon_num : nat) : outcome (list scalar) :=
  col <- dict_get _COLUMN_NAMES ("range_beacon_" ++ str_of_nat (beacon_num + 1)) ;;
  DataFrame.getitem (_data self) col.

Definition _get_filtered_range (self : t) (beacon_num : nat) : outcome (list scalar) :=
  col <- dict_get _COLUMN_NAMES ("range_filtered_" ++ str_of_nat (beacon_num + 1)) ;;
  DataFrame.getitem (_data self) col.

Definition _get_ranges (self : t) (beacon_num : nat) : outcome (list scalar) :=
  if filter_ranges self
  then _get_filtered_range self beacon_num
  else _get_unfiltered_range self beacon_num.

Definition positions (self : t) : outcome (list (list scalar)) :=
  position_cols <- mapM (dict_get _COLUMN_NAMES) ["x_pos"; "y_pos"; "z_pos"] ;;
  let position_cols := slice_to (dim self) position_cols in
  DataFrame.getitem_list (_data self) position_cols.

Definition gt_positions (self : t) : outcome (list (list scalar)) :=
  position_cols <- mapM (dict_get _COLUMN_NAMES) ["x_pos_gt"; "y_pos_gt"; "z_pos_gt"] ;;
  let position_cols := slice_to (dim self) position_cols in
  DataFrame.getitem_list (_data self) position_cols.

(** For [dim == 3] the source indexes the frame with the three labels as
    one tuple key, which is not a column label of a frame read from CSV. *)
Definition rotations (self : t) : outcome (list scalar) :=
  if (dim self =? 2)%Z then
    yaw <- dict_get _COLUMN_NAMES "yaw" ;;
    DataFrame.getitem (_data self) yaw
  else if (dim self =? 3)%Z then
    roll <- dict_get _COLUMN_NAMES "roll" ;;
    pitch <- dict_get _COLUMN_NAMES "pitch" ;;
    yaw <- dict_get _COLUMN_NAMES "yaw" ;;
    Raised (KeyError ("('" ++ roll ++ "', '" ++ pitch ++ "', '" ++ yaw ++ "')"))
  else
    Raised (ValueError ("dim was " ++ str_of_Z (dim self) ++ " but must be 2 or 3")).

Definition gt_rotations (self : t) : outcome (list scalar) :=
  rotations self.

Definition _row_has_range_measures (self : t) (row : nat) : outcome bool :=
  range_data_at_row <-
    mapM (fun idx => x <- _get_ranges self idx ;; getitem x row)
         (seq 0 (num_beacons self)) ;;
  Returned (Np.any_non_nan range_data_at_row).

Definition pose_name (idx : nat) : string := "A" ++ str_of_nat idx.
Definition beacon_name (idx : nat) : string := "L" ++ str_of_nat idx.

Section Ingestion.

(** The aggregate's policy, the geometry kernel of
    [utils/matrix_utils.py], the float power of the C library and the
    two CSV readers are not among the sources; they are parameters. *)
Variable validate_references : bool.
Variable matrix : Type.
Variable make_transformation_matrix_from_theta : scalar -> list scalar -> matrix.
Variable get_relative_rot_and_trans_between_poses :
  matrix -> matrix -> matrix * list scalar.
Variable get_theta_from_rotation_matrix : matrix -> scalar.
Variable get_measurement_precisions_from_covariances :
  xfloat -> xfloat -> xfloat * xfloat.
Variable float_pow : xfloat -> xfloat -> xfloat.
Variable read_csv : Path -> outcome DataFrame.t.
Variable read_csv_headerless : Path -> outcome DataFrame.t.

Definition _add_beacon_variables (self : t) : M unit :=
  for_each (enumerate (_beacon_locs self)) (fun '(idx, beacon_loc) =>
    ranges <~ liftM (_get_ranges self idx) ;;
    let num_non_nan := Np.count_non_nan ranges in
    if (Z.of_nat num_non_nan <? dim self)%Z then retM tt else
    let var_name := beacon_name idx in
    var <~ liftM (LandmarkVariable2D.init var_name beacon_loc) ;;
    callM (fun g => FactorGraphData.add_landmark_variable g var)).

Definition _add_pose_variables (self : t) : M unit :=
  gt_pos <~ liftM (gt_positions self) ;;
  gt_rot <~ liftM (gt_rotations self) ;;
  for_each (enumerate (combine gt_pos gt_rot)) (fun '(idx, pose) =>
    has_ranges <~ liftM (_row_has_range_measures self idx) ;;
    if negb has_ranges && negb (Nat.eqb idx 0) then retM tt else
    let '(position, rot) := pose in
    let var_name := pose_name idx in
    var <~ liftM (PoseVariable2D.init var_name position rot) ;;
    callM (fun g => FactorGraphData.add_pose_variable g var)).

Definition _get_transformation_matrix (self : t) (rot : scalar)
    (trans : list scalar) : outcome matrix :=
  if (dim self =? 2)%Z then
    if negb (Np.isreal rot) then Raised (AssertionError "Rot must be a number") else
    if negb (Nat.eqb (length trans) 2) then
      Raised (AssertionError
                ("Translation is wrong dimension; should be 2 but is "
                   ++ str_of_nat (length trans))) else
    Returned (make_transformation_matrix_from_theta rot trans)
  else if (dim self =? 3)%Z then
    Raised (TypeError "object of type 'numpy.float64' has no len()")
  else
    Raised (ValueError "").

(** the locals of the odometry loop *)
Record odom_locals : Type := mk_locals {
  curr_pose : matrix;
  prev_pose : matrix;
  base_pose_name : string
}.

Definition odometry_step (self : t) (l : odom_locals)
    (item : nat * (list scalar * scalar)) : M odom_locals :=
  let '(idx, (position, rot)) := item in
  has_ranges <~ liftM (_row_has_range_measures self idx) ;;
  if negb has_ranges then retM l else
  curr <~ liftM (_get_transformation_matrix self rot position) ;;
  let l := mk_locals curr (prev_pose l) (base_pose_name l) in
  if Nat.eqb idx 0 then retM l else
  let '(relative_rot, relative_trans) :=
    get_relative_rot_and_trans_between_poses (prev_pose l) (curr_pose l) in
  let to_pose_name := pose_name idx in
  '(x, y) <~ liftM (match relative_trans with
                    | [x; y] => Returned (x, y)
                    | _ => Raised (ValueError "cannot unpack into (x, y)")
                    end) ;;
  let theta := get_theta_from_rotation_matrix relative_rot in
  trans_cov <~ liftM (XFloat.sq (XFloat.round (1 # 50))) ;;
  rot_cov <~ liftM (XFloat.sq (XFloat.round (1 # 500))) ;;
  let '(trans_precision, rot_precision) :=
    get_measurement_precisions_from_covariances trans_cov rot_cov in
  relative_pose_measurement <~
    liftM (PoseMeasurement2D.init (base_pose_name l) to_pose_name x y theta
             trans_precision rot_precision) ;;
  _ <~ callM (fun g => FactorGraphData.add_odom_measurement validate_references
                         g 0 relative_pose_measurement) ;;
  retM (mk_locals (curr_pose l) (curr_pose l) to_pose_name).

Definition _add_odometry_measurements (self : t) : M unit :=
  ps <~ liftM (positions self) ;;
  start_pos <~ liftM (getitem ps 0) ;;
  rs <~ liftM (rotations self) ;;
  start_rot <~ liftM (getitem rs 0) ;;
  curr_pose <~ liftM (_get_transformation_matrix self start_rot start_pos) ;;
  prev_pose <~ liftM (_get_transformation_matrix self start_rot start_pos) ;;
  let base_pose_name := "A0" in
  ps <~ liftM (positions self) ;;
  rs <~ liftM (rotations self) ;;
  _ <~ for_in (enumerate (combine ps rs)) (odometry_step self)
         (mk_locals curr_pose prev_pose base_pose_name) ;;
  retM tt.

Definition out_of_bounds (dist : scalar) : bool :=
  Np.ltb dist (fl 2) || Np.ltb (fl 150) dist.

Definition range_step (beacon_name : string) (range_stddev : xfloat)
    (item : nat * scalar) : M unit :=
  let '(pose_idx, dist) := item in
  if Np.isnan dist || Np.isinf dist || negb (Np.isreal dist) then retM tt else
  _ <~ (if out_of_bounds dist then retM tt else retM tt) ;;
  let pose_name := pose_name pose_idx in
  let association := [pose_name; beacon_name] in
  range_measure <~ liftM (FGRangeMeasurement.init association dist range_stddev) ;;
  callM (fun g => FactorGraphData.add_range_measurement validate_references
                    g range_measure).

Definition _add_range_measurements (self : t) : M unit :=
  let range_precision := Fin 10 in
  inv_precision <~ liftM (XFloat.recip range_precision) ;;
  let range_stddev := float_pow inv_precision (Fin (1 # 2)) in
  let range_stddev := Fin (3 # 4) in
  for_each (seq 0 (num_beacons self)) (fun beacon_idx =>
    ranges <~ liftM (_get_ranges self beacon_idx) ;;
    let beacon_name := beacon_name beacon_idx in
    for_each (enumerate ranges) (range_step beacon_name range_stddev)).

Definition _fill_factor_graph (self : t) : M unit :=
  _ <~ _add_beacon_variables self ;;
  _ <~ _add_pose_variables self ;;
  _ <~ _add_odometry_measurements self ;;
  _add_range_measurements self.

(** What constructing a parser leaves behind: the parser with its filled
    graph, or the exception together with the graph built so far, if the
    graph had been created at all. *)
Inductive construction : Type :=
| Constructed (self : t) (pyfg : FactorGraphData.t)
| Failed (e : exn) (partial : option FactorGraphData.t).

(** The part of [__attrs_post_init__] before the graph is created: the two
    tables are read, [_data] and [_beacon_locs] are set, the beacon counts
    are compared. *)
Definition load (data_file_path beacon_loc_file_path : Path) (dim : Z)
    (filter_ranges : bool) : outcome t :=
  data <- read_csv data_file_path ;;
  _beacon_loc_df <- read_csv_headerless beacon_loc_file_path ;;
  let beacon_locs :=
    map (fun idx => DataFrame.iloc_col_to _beacon_loc_df dim idx)
        (seq 0 (length (DataFrame.columns _beacon_loc_df))) in
  let self := mk data_file_path beacon_loc_file_path dim filter_ranges
                 data beacon_locs in
  _ <- _check_beacon_num_consistent self ;;
  Returned self.

Definition __attrs_post_init__ (data_file_path beacon_loc_file_path : Path)
    (dim : Z) (filter_ranges : bool) : construction :=
  match load data_file_path beacon_loc_file_path dim filter_ranges with
  | Raised e => Failed e None
  | Returned self =>
      let pyfg := FactorGraphData.init dim in
      match _fill_factor_graph self pyfg with
      | (Returned _, pyfg) => Constructed self pyfg
      | (Raised e, pyfg) => Failed e (Some pyfg)
      end
  end.

(** [GoatsParser(data_file_path, beacon_loc_file_path, dim, filter_ranges)]:
    the generated [__init__] runs the validators of the fields in their
    order, then [__attrs_post_init__]. *)
Definition init (data_file_path beacon_loc_file_path : Path) (dim : Z)
    (filter_ranges : bool) : construction :=
  match
    (_ <- _verify_path_is_goats_csv data_file_path ;;
     _ <- _verify_path_is_goats_csv beacon_loc_file_path ;;
     _dim_validator dim)
  with
  | Raised e => Failed e None
  | Returned _ =>
      __attrs_post_init__ data_file_path beacon_loc_file_path dim filter_ranges
  end.

End Ingestion.

End GoatsParser.

(* ------------------------------------------------------------------ *)
(** ** Vocabulary for stating what ingestion builds *)

Module Ingested.

Import GoatsParser.

(** the beacon has at least [dim] readings that are not NaN *)
Definition beacon_admitted (self : t) (idx : nat) : bool :=
  match _get_ranges self idx with
  | Returned ranges => negb (Z.of_nat (Np.count_non_nan ranges) <? dim self)%Z
  | Raised _ => false
  end.

(** some beacon of the table has a reading at the row that is not NaN *)
Definition reading_at (self : t) (beacon row : nat) (v : scalar) : Prop :=
  exists ranges, _get_ranges self beacon = Returned ranges
                 /\ nth_error ranges row = Some v.

Definition row_covered (self : t) (row : nat) : Prop :=
  exists beacon v, beacon < num_beacons self
                   /\ reading_at self beacon row v /\ Np.isnan v = false.

(** the same, but counting admitted beacons only *)
Definition row_covered_by_admitted (self : t) (row : nat) : Prop :=
  exists beacon v, beacon < num_beacons self
                   /\ beacon_admitted self beacon = true
                   /\ reading_at self beacon row v /\ Np.isnan v = false.

(** what [_row_has_range_measures] answers, [false] if it raises *)
Definition has_ranges (self : t) (row : nat) : bool :=
  match _row_has_range_measures self row with
  | Returned b => b
  | Raised _ => false
  end.

(** the rows the pose loop admits *)
Definition pose_row (self : t) (idx : nat) : bool :=
  Nat.eqb idx 0 || has_ranges self idx.

(** the rows for which the odometry loop emits a factor *)
Definition odom_row (self : t) (idx : nat) : bool :=
  has_ranges self idx && negb (Nat.eqb idx 0).

(** a reading that the range loop turns into a measurement *)
Definition usable (dist : scalar) : bool :=
  negb (Np.isnan dist || Np.isinf dist || negb (Np.isreal dist)).

Definition landmark_of (item : nat * list scalar) : LandmarkVariable2D.t :=
  LandmarkVariable2D.mk (beacon_name (fst item)) (snd item).

Definition pose_of (item : nat * (list scalar * scalar)) : PoseVariable2D.t :=
  PoseVariable2D.mk (pose_name (fst item)) (fst (snd item)) (snd (snd item)).

Definition range_of (beacon : nat) (item : nat * scalar) : FGRangeMeasurement.t :=
  FGRangeMeasurement.mk [pose_name (fst item); beacon_name beacon] (snd item)
    (Fin (3 # 4)).

Definition landmarks_built (self : t) : list LandmarkVariable2D.t :=
  map landmark_of
      (filter (fun item => beacon_admitted self (fst item))
              (enumerate (_beacon_locs self))).

Definition poses_built (self : t) (poses : list (list scalar * scalar))
    : list PoseVariable2D.t :=
  map pose_of
      (filter (fun item => Nat.eqb (fst item) 0 || has_ranges self (fst item))
              (enumerate poses)).

Definition ranges_built_for (beacon : nat) (ranges : list scalar)
    : list FGRangeMeasurement.t :=
  map (range_of beacon) (filter (fun item => usable (snd item)) (enumerate ranges)).

Definition ranges_built (self : t) : list FGRangeMeasurement.t :=
  flat_map (fun beacon =>
              match _get_ranges self beacon with
              | Returned ranges => ranges_built_for beacon ranges
              | Raised _ => []
              end)
           (seq 0 (num_beacons self)).

(** the odometry chain over a list of pose identifiers, starting at [base] *)
Fixpoint chain (base : string) (names : list string) : list (string * string) :=
  match names with
  | [] => []
  | n :: names' => (base, n) :: chain n names'
  end.

(** the pairs of neighbours of a list *)
Definition consecutive (names : list string) : list (string * string) :=
  match names with
  | [] => []
  | n :: names' => chain n names'
  end.

Definition endpoints (m : nat * PoseMeasurement2D.t) : string * string :=
  (PoseMeasurement2D.base_pose (snd m), PoseMeasurement2D.to_pose (snd m)).

Definition pose_names (g : FactorGraphData.t) : list string :=
  map PoseVariable2D.name (FactorGraphData.pose_variables g).

Definition landmark_names (g : FactorGraphData.t) : list string :=
  map LandmarkVariable2D.name (FactorGraphData.landmark_variables g).

Definition odom_chain (g : FactorGraphData.t) : list (string * string) :=
  map endpoints (FactorGraphData.odom_measurements g).

(** the graph with further entries appended to one of its collections *)
Definition with_landmarks (g : FactorGraphData.t) (l : list LandmarkVariable2D.t) :=
  FactorGraphData.mk (FactorGraphData.dimension g)
    (FactorGraphData.pose_variables g)
    (FactorGraphData.landmark_variables g ++ l)%list
    (FactorGraphData.odom_measurements g)
    (FactorGraphData.range_measurements g).

Definition with_poses (g : FactorGraphData.t) (l : list PoseVariable2D.t) :=
  FactorGraphData.mk (FactorGraphData.dimension g)
    (FactorGraphData.pose_variables g ++ l)%list
    (FactorGraphData.landmark_variables g)
    (FactorGraphData.odom_measurements g)
    (FactorGraphData.range_measurements g).

Definition with_odoms (g : FactorGraphData.t) (l : list (nat * PoseMeasurement2D.t)) :=
  FactorGraphData.mk (FactorGraphData.dimension g)
    (FactorGraphData.pose_variables g)
    (FactorGraphData.landmark_variables g)
    (FactorGraphData.odom_measurements g ++ l)%list
    (FactorGraphData.range_measurements g).

Definition with_ranges (g : FactorGraphData.t) (l : list FGRangeMeasurement.t) :=
  FactorGraphData.mk (FactorGraphData.dimension g)
    (FactorGraphData.pose_variables g)
    (FactorGraphData.landmark_variables g)
    (FactorGraphData.odom_measurements g)
    (FactorGraphData.range_measurements g ++ l)%list.

(** no range measurement of the graph dangles *)
Definition no_range_dangles (g : FactorGraphData.t) : Prop :=
  forall m, In m (FactorGraphData.range_measurements g) ->
            FactorGraphData.range_dangles g m = false.

End Ingested.

(* ------------------------------------------------------------------ *)
(** ** The parameters of ingestion, bundled *)

(** What the parser takes from outside its two source files: the policy of
    the aggregate, the geometry kernel, the float power, the CSV readers. *)
Record Externals : Type := mkExternals {
  validate_references : bool;
  matrix : Type;
  make_transformation_matrix_from_theta : scalar -> list scalar -> matrix;
  get_relative_rot_and_trans_between_poses : matrix -> matrix -> matrix * list scalar;
  get_theta_from_rotation_matrix : matrix -> scalar;
  get_measurement_precisions_from_covariances : xfloat -> xfloat -> xfloat * xfloat;
  float_pow : xfloat -> xfloat -> xfloat;
  read_csv : Path -> outcome DataFrame.t;
  read_csv_headerless : Path -> outcome DataFrame.t
}.

(** [self._fill_factor_graph()] *)
Definition fill (E : Externals) (self : GoatsParser.t) : M unit :=
  GoatsParser._fill_factor_graph (validate_references E) (matrix E)
    (make_transformation_matrix_from_theta E)
    (get_relative_rot_and_trans_between_poses E)
    (get_theta_from_rotation_matrix E)
    (get_measurement_precisions_from_covariances E)
    (float_pow E) self.

(** [GoatsParser(data_file_path, beacon_loc_file_path, dim, filter_ranges)] *)
Definition ingest (E : Externals) (data_file_path beacon_loc_file_path : Path)
    (dim : Z) (filter_ranges : bool) : GoatsParser.construction :=
  GoatsParser.init (validate_references E) (matrix E)
    (make_transformation_matrix_from_theta E)
    (get_relative_rot_and_trans_between_poses E)
    (get_theta_from_rotation_matrix E)
    (get_measurement_precisions_from_covariances E)
    (float_pow E) (read_csv E) (read_csv_headerless E)
    data_file_path beacon_loc_file_path dim filter_ranges.

(** the same parameters with another float power *)
Definition with_float_pow (E : Externals) (pow : xfloat -> xfloat -> xfloat)
    : Externals :=
  mkExternals (validate_references E) (matrix E)
    (make_transformation_matrix_from_theta E)
    (get_relative_rot_and_trans_between_poses E)
    (get_theta_from_rotation_matrix E)
    (get_measurement_precisions_from_covariances E)
    pow (read_csv E) (read_csv_headerless E).

(** the path passes the three checks of the validator *)
Definition path_ok (p : Path) : bool :=
  path_exists p && path_is_file p && String.eqb (path_suffix p) ".csv".

(** ** Inputs on which ingestion completes *)

(** the label of the range column [_get_ranges] reads for a beacon *)
Definition range_column (filter_ranges : bool) (beacon : nat) : string :=
  ((if filter_ranges then "filtered_ranges_" else "ranges_")
     ++ str_of_nat (beacon + 1))%string.

(** the columns a two-dimensional ingestion reads *)
Definition required_columns (filter_ranges : bool) (beacons : nat) : list string :=
  (["insXYZ_1"; "insXYZ_2"; "iNav_GT_1"; "iNav_GT_2"; "insRPY_3"]
     ++ map (range_column filter_ranges) (seq 0 beacons))%list.

(** the parser object [__attrs_post_init__] sets up from the two tables *)
Definition loaded (d b : Path) (dim : Z) (filter_ranges : bool)
    (data table : DataFrame.t) : GoatsParser.t :=
  GoatsParser.mk d b dim filter_ranges data
    (map (fun idx => DataFrame.iloc_col_to table dim idx)
         (seq 0 (length (DataFrame.columns table)))).

(** Both paths pass the validator, both tables are read, the beacon counts
    agree and there are at most four beacons, the columns read are present,
    there is a row, the yaw column is real, and the kernel returns
    two-dimensional translations. *)
Definition well_formed (E : Externals) (d b : Path) (filter_ranges : bool)
    (data table : DataFrame.t) : Prop :=
  let beacons := length (DataFrame.columns table) in
  path_ok d = true /\ path_ok b = true
  /\ read_csv E d = Returned data
  /\ read_csv_headerless E b = Returned table
  /\ length (filter GoatsParser.is_range_col (DataFrame.columns data)) = beacons
  /\ length (filter GoatsParser.is_filtered_range_col (DataFrame.columns data))
     = beacons
  /\ beacons <= 4
  /\ (forall c, In c (required_columns filter_ranges beacons) ->
                In c (DataFrame.columns data))
  /\ DataFrame.rows data <> []
  /\ (forall yaw v, DataFrame.getitem data "insRPY_3" = Returned yaw ->
                    In v yaw -> Np.isreal v = true)
  /\ (forall prev curr,
        length (snd (get_relative_rot_and_trans_between_poses E prev curr)) = 2).

(** every usable reading belongs to an admitted beacon, unless the aggregate
    does not validate references *)
Definition references_resolve (E : Externals) (self : GoatsParser.t) : Prop :=
  validate_references E = false
  \/ forall beacon row v,
       beacon < GoatsParser.num_beacons self ->
       Ingested.reading_at self beacon row v -> Ingested.usable v = true ->
       Ingested.beacon_admitted self beacon = true.

(** ** What an odometry factor is derived from *)

(** The factor [m] holds the relative pose the kernel computes between the
    transformation built from the orientation [ri] and the position [pi]
    and the one built from [rj] and [pj]. *)
Definition relative_pose_of (E : Externals) (pi : list scalar) (ri : scalar)
    (pj : list scalar) (rj : scalar) (m : PoseMeasurement2D.t) : Prop :=
  exists relative_rot,
    get_relative_rot_and_trans_between_poses E
      (make_transformation_matrix_from_theta E ri pi)
      (make_transformation_matrix_from_theta E rj pj)
    = (relative_rot, [PoseMeasurement2D.x m; PoseMeasurement2D.y m])
    /\ PoseMeasurement2D.theta m = get_theta_from_rotation_matrix E relative_rot.

(** The factor joins the pose of a row [i] to the pose of a later row [j]
    and holds the relative pose between the entries of the positions [ps]
    and the orientations [rs] at these two rows. *)
Definition odom_factor_of (E : Externals) (ps : list (list scalar)) (rs : list scalar)
    (factor : nat * PoseMeasurement2D.t) : Prop :=
  exists i j pi ri pj rj,
    PoseMeasurement2D.base_pose (snd factor) = GoatsParser.pose_name i
    /\ PoseMeasurement2D.to_pose (snd factor) = GoatsParser.pose_name j
    /\ i < j
    /\ nth_error ps i = Some pi /\ nth_error rs i = Some ri
    /\ nth_error ps j = Some pj /\ nth_error rs j = Some rj
    /\ relative_pose_of E pi ri pj rj (snd factor).

(** the locals of the odometry loop once the pose of row [k] is the base of
    the next factor *)
Definition locals_at (E : Externals) (ps : list (list scalar)) (rs : list scalar)
    (l : GoatsParser.odom_locals (matrix E)) (k : nat) : Prop :=
  GoatsParser.base_pose_name (matrix E) l = GoatsParser.pose_name k
  /\ exists pk rk,
       nth_error ps k = Some pk /\ nth_error rs k = Some rk
       /\ GoatsParser.prev_pose (matrix E) l
          = make_transformation_matrix_from_theta E rk pk.

(* ------------------------------------------------------------------ *)
(** ** Sample runs *)

Module Sample.

(** A kernel for poses without rotation: a transformation is the pair of its
    angle and its translation, a relative pose is the difference. *)
Definition transform : Type := scalar * list scalar.

Definition minus (a b : scalar) : scalar :=
  match a, b with
  | Real (Fin p), Real (Fin q) => Real (Fin (Qred (p - q)))
  | _, _ => Real NaN
  end.

Definition make_transform (rot : scalar) (trans : list scalar) : transform :=
  (rot, trans).

Definition relative (prev curr : transform) : transform * list scalar :=
  ((minus (fst curr) (fst prev), []),
   [minus (nth 0 (snd curr) (Real NaN)) (nth 0 (snd prev) (Real NaN));
    minus (nth 1 (snd curr) (Real NaN)) (nth 1 (snd prev) (Real NaN))]).

Definition angle (m : transform) : scalar := fst m.

Definition reciprocal (x : xfloat) : xfloat :=
  match XFloat.recip x with Returned y => y | Raised _ => Inf false end.

Definition precisions (trans_cov rot_cov : xfloat) : xfloat * xfloat :=
  (reciprocal trans_cov, reciprocal rot_cov).

(** a stand-in for the float power, whose value the parser discards *)
Definition power (x y : xfloat) : xfloat := x.

Definition data_path : Path := mkPath "goats_14.csv" true true ".csv".
Definition beacon_path : Path := mkPath "beacon_locs.csv" true true ".csv".
Definition missing_path : Path := mkPath "nowhere.csv" false false ".csv".
Definition directory_path : Path := mkPath "goats_14" true false "".
Definition text_path : Path := mkPath "goats_14.txt" true true ".txt".

Definition externals (validate : bool) (data beacons : DataFrame.t) : Externals :=
  mkExternals validate transform make_transform relative angle precisions power
    (fun _ => Returned data) (fun _ => Returned beacons).

Definition nan : scalar := Real NaN.
Definition inf : scalar := Real (Inf false).

Definition header (beacons : nat) : list string :=
  ["insXYZ_1"; "insXYZ_2"; "insXYZ_3"; "iNav_GT_1"; "iNav_GT_2"; "iNav_GT_3";
   "insRPY_1"; "insRPY_2"; "insRPY_3"; "insVel_1"; "insVel_2"; "insVel_3"]
  ++ map (fun k => "ranges_" ++ str_of_nat (k + 1))%string (seq 0 beacons)
  ++ map (fun k => "filtered_ranges_" ++ str_of_nat (k + 1))%string (seq 0 beacons).

(** a row at position [(x, 0)] with yaw [yaw] and the given range readings,
    raw and filtered alike *)
Definition row (x : Z) (yaw : Q) (ranges : list scalar) : list scalar :=
  [fl (inject_Z x); fl 0; fl 0; fl (inject_Z x); fl 0; fl 0;
   fl 0; fl 0; fl yaw; fl 1; fl 0; fl 0] ++ ranges ++ ranges.

(** two beacons, the second with a single reading *)
Definition sparse_beacon : DataFrame.t :=
  DataFrame.mk (header 2)
    [ row 0 0 [fl 5; nan];
      row 1 0 [fl 6; fl 8];
      row 2 0 [fl 7; nan] ].

(** two beacons, the second with a single, infinite reading at a row where
    the first has none *)
Definition lone_reading : DataFrame.t :=
  DataFrame.mk (header 2)
    [ row 0 0 [fl 5; nan];
      row 1 0 [nan; inf];
      row 2 0 [fl 6; nan] ].

(** the same with a finite reading in place of the infinite one *)
Definition lone_finite_reading : DataFrame.t :=
  DataFrame.mk (header 2)
    [ row 0 0 [fl 5; nan];
      row 1 0 [nan; fl 8];
      row 2 0 [fl 6; nan] ].

(** five rows, the third without any reading *)
Definition silent_row : DataFrame.t :=
  DataFrame.mk (header 2)
    [ row 0 (1 # 10) [fl 5; nan];
      row 1 (2 # 10) [nan; fl 9];
      row 2 (3 # 10) [nan; nan];
      row 3 (4 # 10) [fl 1; fl 200];
      row 4 (5 # 10) [Cplx (Fin 3) (Fin 1); inf] ].

Definition two_beacons : DataFrame.t :=
  DataFrame.mk ["0"; "1"] [ [fl 10; fl 30]; [fl 20; fl 40] ].

Definition three_beacons : DataFrame.t :=
  DataFrame.mk ["0"; "1"; "2"] [ [fl 10; fl 30; fl 50]; [fl 20; fl 40; fl 60] ].

End Sample.
(* ------------------------------------------------------------------ *)
(** * Rounding to binary64 *)

Transparent XFloat.round.

Section RoundCases.

Import XFloat.
Local Open Scope Q_scope.

Lemma round_zero q : q == 0 -> round q = Fin 0.
Proof.
  intros H. assert (C : (q ?= 0) = Eq) by now apply Qeq_alt.
  unfold round. now rewrite C.
Qed.

Lemma round_positive x :
  0 < x ->
  round x = if Qle_bool (2 ^ 1024) (nearest x) then Inf false
            else Fin (Qred (nearest x)).
Proof.
  intros H. assert (C : (x ?= 0) = Gt) by now apply Qgt_alt.
  unfold round. now rewrite C.
Qed.

Lemma round_negative x :
  x < 0 ->
  round x = if Qle_bool (2 ^ 1024) (nearest (- x)) then Inf true
            else Fin (- Qred (nearest (- x))).
Proof.
  intros H. assert (C : (x ?= 0) = Lt) by now apply Qlt_alt.
  unfold round. now rewrite C.
Qed.

End RoundCases.

Opaque XFloat.round.

Section Rounding.

Import XFloat.
Local Open Scope Q_scope.

Lemma two_pos e : 0 < 2 ^ e.
Proof. apply Qpower_0_lt. reflexivity. Qed.

Lemma two_add a b : 2 ^ (a + b) == 2 ^ a * 2 ^ b.
Proof. apply Qpower_plus. discriminate. Qed.

Lemma two_sub a b : 2 ^ (a - b) == 2 ^ a / 2 ^ b.
Proof. apply Qpower_minus. discriminate. Qed.

Lemma two_le a b : (a <= b)%Z -> 2 ^ a <= 2 ^ b.
Proof. intros H. apply Qpower_le_compat_l; [ exact H | discriminate ]. Qed.

Lemma two_lt a b : (a < b)%Z -> 2 ^ a < 2 ^ b.
Proof. intros H. apply Qpower_lt_compat_l; [ exact H | reflexivity ]. Qed.

Lemma two_le_inv a b : 2 ^ a <= 2 ^ b -> (a <= b)%Z.
Proof. intros H. apply (Qpower_le_compat_l_inv 2); [ exact H | reflexivity ]. Qed.

Lemma two_lt_inv a b : 2 ^ a < 2 ^ b -> (a < b)%Z.
Proof. intros H. apply (Qpower_lt_compat_l_inv 2); [ exact H | reflexivity ]. Qed.

Lemma two_inject n : (0 <= n)%Z -> inject_Z (2 ^ n) == 2 ^ n.
Proof. intros H. now rewrite Zpower_Qpower. Qed.

Lemma log2_bounds (n : Z) :
  (0 < n)%Z -> 2 ^ Z.log2 n <= inject_Z n /\ inject_Z n < 2 ^ (Z.log2 n + 1).
Proof.
  intros H. destruct (Z.log2_spec n H) as [L U].
  pose proof (Z.log2_nonneg n) as N.
  split.
  - rewrite <- two_inject by exact N. rewrite <- Zle_Qle. exact L.
  - rewrite <- two_inject by lia. rewrite <- Zlt_Qlt. exact U.
Qed.

Lemma quotient_bounds (x D N A B P : Q) :
  0 < D -> x * D == N -> A <= N -> N < 2 * A -> B <= D -> D < 2 * B ->
  0 < B -> A == P * B -> 0 < P ->
  P <= 2 * x /\ x < 2 * P.
Proof.
  intros HD Hq LA UA LB UB PB E PP. split.
  - apply Qnot_lt_le. intros C.
    assert (H1 : 2 * x * D < P * D) by (apply Qmult_lt_compat_r; assumption).
    assert (H2 : P * D <= P * (2 * B)).
    { apply Qmult_le_l; [ exact PP | ]. apply Qlt_le_weak. exact UB. }
    assert (H3 : 2 * x * D == 2 * N) by (rewrite <- Hq; ring).
    assert (H4 : P * (2 * B) == 2 * A) by (rewrite E; ring).
    rewrite H3 in H1. rewrite H4 in H2. lra.
  - apply Qnot_le_lt. intros C.
    assert (H1 : 2 * P * D <= x * D) by (apply Qmult_le_compat_r; [ exact C | lra ]).
    assert (H2 : 2 * P * B <= 2 * P * D).
    { apply Qmult_le_l; [ lra | exact LB ]. }
    assert (H4 : 2 * P * B == 2 * A) by (rewrite E; ring).
    rewrite Hq in H1. rewrite H4 in H2. lra.
Qed.

Lemma two_succ k : 2 ^ (k + 1) == 2 * 2 ^ k.
Proof. rewrite two_add. change (2 ^ 1) with 2. ring. Qed.

Lemma binade_spec x : 0 < x -> 2 ^ binade x <= x /\ x < 2 ^ (binade x + 1).
Proof.
  intros Hx. unfold binade.
  destruct x as [n d].
  assert (Hn : (0 < n)%Z).
  { unfold Qlt in Hx. simpl in Hx. lia. }
  cbn [Qnum Qden].
  set (k := (Z.log2 n - Z.log2 (Z.pos d))%Z).
  destruct (log2_bounds n Hn) as [Ln Un].
  destruct (log2_bounds (Z.pos d) eq_refl) as [Ld Ud].
  rewrite two_succ in Un, Ud.
  assert (Hd : 0 < inject_Z (Z.pos d)) by reflexivity.
  assert (Hq : (n # d) * inject_Z (Z.pos d) == inject_Z n).
  { rewrite (Qmake_Qdiv n d). field. discriminate. }
  assert (Ek : 2 ^ Z.log2 n == 2 ^ k * 2 ^ Z.log2 (Z.pos d)).
  { rewrite <- two_add. unfold k. apply Qpower_comp; [ reflexivity | lia ]. }
  destruct (quotient_bounds _ _ _ _ _ _ Hd Hq Ln Un Ld Ud (two_pos _) Ek (two_pos k))
    as [Lo Up].
  assert (Ekm : 2 ^ k == 2 * 2 ^ (k - 1)).
  { rewrite <- two_succ. apply Qpower_comp; [ reflexivity | lia ]. }
  destruct (Qle_bool (2 ^ k) (n # d)) eqn:T.
  - apply Qle_bool_iff in T. split; [ exact T | ]. rewrite two_succ. exact Up.
  - split.
    + rewrite Ekm in Lo. lra.
    + setoid_replace (2 ^ (k - 1 + 1)) with (2 ^ k)
        by (apply Qpower_comp; [ reflexivity | lia ]).
      apply Qnot_le_lt. intros C. apply Qle_bool_iff in C. congruence.
Qed.

Lemma rint_floor s : (Qfloor s <= rint s <= Qfloor s + 1)%Z.
Proof.
  unfold rint. destruct (s - inject_Z (Qfloor s) ?= 1 # 2);
    [ destruct (Z.even (Qfloor s)) | | ]; lia.
Qed.

Lemma rint_error s : - (1 # 2) <= inject_Z (rint s) - s <= 1 # 2.
Proof.
  pose proof (Qfloor_le s) as L. pose proof (Qlt_floor s) as U.
  rewrite inject_Z_plus in U. change (inject_Z 1) with 1 in U.
  unfold rint.
  destruct (Qcompare_spec (s - inject_Z (Qfloor s)) (1 # 2)) as [E|E|E].
  - destruct (Z.even (Qfloor s)).
    + lra.
    + rewrite inject_Z_plus. change (inject_Z 1) with 1. lra.
  - lra.
  - rewrite inject_Z_plus. change (inject_Z 1) with 1. lra.
Qed.

Lemma rint_ge n s : inject_Z n <= s -> (n <= rint s)%Z.
Proof.
  intros H. apply Qfloor_resp_le in H. rewrite Qfloor_Z in H.
  pose proof (rint_floor s). lia.
Qed.

Lemma rint_le n s : s <= inject_Z n -> (rint s <= n)%Z.
Proof.
  intros H. pose proof (Qfloor_resp_le _ _ H) as F. rewrite Qfloor_Z in F.
  pose proof (rint_floor s) as R.
  destruct (Z.eq_dec (Qfloor s) n) as [E|N]; [ | lia ].
  pose proof (Qfloor_le s) as L. rewrite E in L.
  unfold rint. rewrite E.
  destruct (Qcompare_spec (s - inject_Z n) (1 # 2)) as [C|C|C]; [ lra | lia | lra ].
Qed.

Lemma nearest_unfold x :
  nearest x = inject_Z (rint (x / 2 ^ ulp_exp x)) * 2 ^ ulp_exp x.
Proof. reflexivity. Qed.

Lemma scaled x e : x / 2 ^ e * 2 ^ e == x.
Proof. field. apply Qpower_not_0. discriminate. Qed.

Lemma nearest_ge_at a x :
  (ulp_exp x <= a)%Z -> 2 ^ a <= x -> 2 ^ a <= nearest x.
Proof.
  intros He Hx. rewrite nearest_unfold.
  set (e := ulp_exp x) in *.
  assert (Ea : 2 ^ a == inject_Z (2 ^ (a - e)) * 2 ^ e).
  { rewrite two_inject by lia. rewrite <- two_add.
    apply Qpower_comp; [ reflexivity | lia ]. }
  rewrite Ea. apply Qmult_le_compat_r; [ | apply Qlt_le_weak, two_pos ].
  rewrite <- Zle_Qle. apply rint_ge.
  apply Qmult_le_r with (z := 2 ^ e); [ apply two_pos | ].
  rewrite scaled, <- Ea. exact Hx.
Qed.

Lemma nearest_le_at a x :
  (ulp_exp x <= a)%Z -> x <= 2 ^ a -> nearest x <= 2 ^ a.
Proof.
  intros He Hx. rewrite nearest_unfold.
  set (e := ulp_exp x) in *.
  assert (Ea : 2 ^ a == inject_Z (2 ^ (a - e)) * 2 ^ e).
  { rewrite two_inject by lia. rewrite <- two_add.
    apply Qpower_comp; [ reflexivity | lia ]. }
  rewrite Ea. apply Qmult_le_compat_r; [ | apply Qlt_le_weak, two_pos ].
  rewrite <- Zle_Qle. apply rint_le.
  apply Qmult_le_r with (z := 2 ^ e); [ apply two_pos | ].
  rewrite scaled, <- Ea. exact Hx.
Qed.

Lemma binade_ge a x : 0 < x -> 2 ^ a <= x -> (a <= binade x)%Z.
Proof.
  intros P H. destruct (binade_spec x P) as [_ U].
  assert (L : 2 ^ a < 2 ^ (binade x + 1)) by lra.
  apply two_lt_inv in L. lia.
Qed.

Lemma binade_le a x : 0 < x -> x <= 2 ^ a -> (binade x <= a)%Z.
Proof.
  intros P H. destruct (binade_spec x P) as [L _].
  apply two_le_inv. lra.
Qed.

(** rounding is monotone at the powers of two a binary64 can hold *)
Lemma nearest_ge a x :
  0 < x -> (-1074 <= a)%Z -> 2 ^ a <= x -> 2 ^ a <= nearest x.
Proof.
  intros P Ha H.
  destruct (Z.le_gt_cases (ulp_exp x) a) as [C|C].
  - now apply nearest_ge_at.
  - assert (B : (a <= binade x)%Z) by now apply binade_ge.
    assert (E : ulp_exp x = (binade x - 52)%Z) by (unfold ulp_exp in *; lia).
    apply Qle_trans with (2 ^ ulp_exp x).
    + apply two_le. lia.
    + apply nearest_ge_at; [ lia | ].
      destruct (binade_spec x P) as [L _].
      apply Qle_trans with (2 ^ binade x); [ apply two_le; lia | exact L ].
Qed.

Lemma nearest_le a x :
  0 < x -> (-1074 <= a)%Z -> x <= 2 ^ a -> nearest x <= 2 ^ a.
Proof.
  intros P Ha H. apply nearest_le_at; [ | exact H ].
  pose proof (binade_le a x P H). unfold ulp_exp. lia.
Qed.

(** in the normal range the relative error is at most 2^-53 *)
Lemma nearest_error x :
  2 ^ (-1022) <= x ->
  - ((1 # 2 ^ 53) * x) <= nearest x - x <= (1 # 2 ^ 53) * x.
Proof.
  intros H.
  assert (P : 0 < x) by (pose proof (two_pos (-1022)); lra).
  pose proof (binade_ge _ _ P H) as B.
  destruct (binade_spec x P) as [L _].
  assert (E : ulp_exp x = (binade x - 52)%Z) by (unfold ulp_exp; lia).
  rewrite nearest_unfold. rewrite E.
  set (e := (binade x - 52)%Z) in *.
  pose proof (rint_error (x / 2 ^ e)) as R.
  pose proof (two_pos e) as Pe.
  pose proof (scaled x e) as S.
  assert (Eb : 2 ^ binade x == 2 ^ 53 * (2 ^ e * (1 # 2))).
  { setoid_replace (2 ^ binade x) with (2 ^ (53 + (e + -1)))
      by (apply Qpower_comp; [ reflexivity | unfold e; lia ]).
    rewrite !two_add. change (2 ^ (-1)) with (1 # 2). reflexivity. }
  assert (Hu : 2 ^ e * (1 # 2) <= (1 # 2 ^ 53) * x).
  { assert (T : (1 # 2 ^ 53) * 2 ^ 53 == 1) by reflexivity.
    rewrite Eb in L.
    setoid_replace (2 ^ e * (1 # 2)) with ((1 # 2 ^ 53) * (2 ^ 53 * (2 ^ e * (1 # 2))))
      by (rewrite Qmult_assoc, T; ring).
    apply Qmult_le_l; [ reflexivity | exact L ]. }
  set (s := x / 2 ^ e) in *.
  set (r := inject_Z (rint s)) in *.
  assert (D : r * 2 ^ e - x == (r - s) * 2 ^ e) by (rewrite <- S at 1; ring).
  rewrite D.
  destruct R as [R1 R2].
  split.
  - apply Qle_trans with (- (2 ^ e * (1 # 2))); [ lra | ].
    setoid_replace (- (2 ^ e * (1 # 2))) with (- (1 # 2) * 2 ^ e) by ring.
    apply Qmult_le_compat_r; [ exact R1 | lra ].
  - apply Qle_trans with (2 ^ e * (1 # 2)); [ | exact Hu ].
    setoid_replace (2 ^ e * (1 # 2)) with ((1 # 2) * 2 ^ e) by ring.
    apply Qmult_le_compat_r; [ exact R2 | lra ].
Qed.

(** what is at most half the smallest subnormal rounds to zero *)
Lemma nearest_zero x : 0 < x -> x <= 2 ^ (-1075) -> nearest x == 0.
Proof.
  intros P H.
  pose proof (binade_le _ _ P H) as B.
  assert (E : ulp_exp x = (-1074)%Z) by (unfold ulp_exp; lia).
  rewrite nearest_unfold, E.
  set (s := x / 2 ^ (-1074)).
  assert (S : x == s * 2 ^ (-1074)) by (unfold s; symmetry; apply scaled).
  assert (T : 2 ^ (-1075) == (1 # 2) * 2 ^ (-1074)).
  { setoid_replace (2 ^ (-1075)) with (2 ^ (-1 + -1074))
      by (apply Qpower_comp; reflexivity).
    rewrite two_add. reflexivity. }
  pose proof (two_pos (-1074)) as Pe.
  assert (Hs : 0 < s /\ s <= 1 # 2).
  { rewrite S, T in H. rewrite S in P.
    remember (2 ^ (-1074)) as p eqn:Ep. clear Ep S T. split.
    - apply Qnot_le_lt. intros C.
      assert (X : s * p <= 0 * p) by (apply Qmult_le_compat_r; lra). lra.
    - apply Qmult_le_r with (z := p); assumption. }
  destruct Hs as [S0 S1].
  assert (F : Qfloor s = 0%Z).
  { pose proof (Qfloor_le s) as L. pose proof (Qlt_floor s) as U.
    assert (A : (Qfloor s < 1)%Z).
    { rewrite Zlt_Qlt. apply Qle_lt_trans with s; [ exact L | ].
      change (inject_Z 1) with 1. lra. }
    assert (A' : (0 <= Qfloor s)%Z).
    { apply (Qfloor_resp_le 0 s). lra. }
    lia. }
  assert (R : rint s = 0%Z).
  { unfold rint. rewrite F. change (inject_Z 0) with 0.
    destruct (Qcompare_spec (s - 0) (1 # 2)) as [C|C|C]; [ reflexivity | reflexivity | lra ]. }
  rewrite R. change (inject_Z 0) with 0. ring.
Qed.



(** a positive rational below [2 ^ 1024] that is a power of two away from
    the overflow threshold rounds to a finite value *)
Lemma round_finite a x :
  0 < x -> (-1074 <= a < 1024)%Z -> x <= 2 ^ a ->
  round x = Fin (Qred (nearest x)).
Proof.
  intros P Ha H. rewrite (round_positive x P).
  destruct (Qle_bool (2 ^ 1024) (nearest x)) eqn:T; [ | reflexivity ].
  apply Qle_bool_iff in T.
  assert (U : nearest x <= 2 ^ a) by (apply nearest_le; [ exact P | lia | exact H ]).
  assert (L : 2 ^ a < 2 ^ 1024) by (apply two_lt; lia).
  exfalso. apply (Qlt_irrefl (2 ^ 1024)). 
  apply Qle_lt_trans with (2 ^ a); [ | exact L ].
  apply Qle_trans with (nearest x); assumption.
Qed.

Lemma round_overflow x : 2 ^ 1024 <= x -> round x = Inf false.
Proof.
  intros H.
  assert (P : 0 < x) by (apply Qlt_le_trans with (2 ^ 1024); [ apply two_pos | exact H ]).
  rewrite (round_positive x P).
  assert (L : 2 ^ 1024 <= nearest x) by (apply nearest_ge; [ exact P | lia | exact H ]).
  apply Qle_bool_iff in L. now rewrite L.
Qed.

Lemma round_underflow x : 0 <= x -> x <= 2 ^ (-1075) -> round x = Fin 0.
Proof.
  intros P H. destruct (Qle_lt_or_eq _ _ P) as [P'|E].
  - assert (F : round x = Fin (Qred (nearest x))).
    { apply (round_finite (-1075 + 1)); [ exact P' | lia | ].
      apply Qle_trans with (2 ^ (-1075)); [ exact H | apply two_le; lia ]. }
    rewrite F. f_equal.
    change 0 with (Qred 0). apply Qred_complete. now apply nearest_zero.
  - apply round_zero. symmetry. exact E.
Qed.

Lemma sq_abs q : q * q == Qabs q * Qabs q.
Proof. apply Qabs_case; intros _; ring. Qed.

Lemma two_double a : 2 ^ a * 2 ^ a == 2 ^ (a + a).
Proof. symmetry. apply two_add. Qed.

Lemma square_ge a y : 2 ^ a <= y -> 2 ^ (a + a) <= y * y.
Proof.
  intros H. rewrite <- two_double. pose proof (two_pos a) as P.
  apply Qle_trans with (2 ^ a * y).
  - apply Qmult_le_l; assumption.
  - apply Qmult_le_compat_r; [ exact H | ].
    apply Qle_trans with (2 ^ a); [ apply Qlt_le_weak, P | exact H ].
Qed.

Lemma square_le a y : 0 <= y -> y <= 2 ^ a -> y * y <= 2 ^ (a + a).
Proof.
  intros N H. rewrite <- two_double. pose proof (two_pos a) as P.
  apply Qle_trans with (2 ^ a * y).
  - apply Qmult_le_compat_r; assumption.
  - apply Qmult_le_l; assumption.
Qed.

(** [x ** 2] overflows from [2 ^ 512] on *)
Lemma sq_overflows q :
  2 ^ 512 <= Qabs q ->
  sq (Fin q) = Raised (OverflowError "(34, 'Numerical result out of range')").
Proof.
  intros H. unfold sq.
  assert (R : round (q * q) = Inf false).
  { apply round_overflow. rewrite sq_abs.
    change 1024%Z with (512 + 512)%Z. now apply square_ge. }
  now rewrite R.
Qed.

(** [x ** 2] is zero up to [2 ^ -538] *)
Lemma sq_underflows q :
  Qabs q <= 2 ^ (-538) -> sq (Fin q) = Returned (Fin 0).
Proof.
  intros H. unfold sq.
  assert (R : round (q * q) = Fin 0).
  { apply round_underflow.
    - rewrite sq_abs. apply Qmult_le_0_compat; apply Qabs_nonneg.
    - rewrite sq_abs.
      apply Qle_trans with (2 ^ (-538 + -538)).
      + apply square_le; [ apply Qabs_nonneg | exact H ].
      + apply two_le. lia. }
  now rewrite R.
Qed.

(** in between, away from the thresholds, it is the square up to one
    rounding *)
Lemma sq_rounds q :
  2 ^ (-510) <= Qabs q -> Qabs q <= 2 ^ 510 ->
  exists r,
    sq (Fin q) = Returned (Fin r)
    /\ 2 ^ (-1020) <= r /\ r <= 2 ^ 1020
    /\ - ((1 # 2 ^ 53) * (q * q)) <= r - q * q <= (1 # 2 ^ 53) * (q * q).
Proof.
  intros L U.
  assert (L2 : 2 ^ (-1020) <= q * q).
  { rewrite sq_abs. change (-1020)%Z with (-510 + -510)%Z. now apply square_ge. }
  assert (U2 : q * q <= 2 ^ 1020).
  { rewrite sq_abs. change 1020%Z with (510 + 510)%Z.
    apply square_le; [ apply Qabs_nonneg | exact U ]. }
  assert (P : 0 < q * q).
  { apply Qlt_le_trans with (2 ^ (-1020)); [ apply two_pos | exact L2 ]. }
  exists (Qred (nearest (q * q))).
  unfold sq. rewrite (round_finite 1020 (q * q) P); [ | lia | exact U2 ].
  split; [ reflexivity | ]. rewrite Qred_correct.
  split; [ apply nearest_ge; [ exact P | lia | exact L2 ] | ].
  split; [ apply nearest_le; [ exact P | lia | exact U2 ] | ].
  apply nearest_error.
  apply Qle_trans with (2 ^ (-1020)); [ apply two_le; lia | exact L2 ].
Qed.

(** [1 / x] in the normal range is the reciprocal up to one rounding *)
Lemma recip_rounds p :
  2 ^ (-1022) <= p -> p <= 2 ^ 1022 ->
  exists a,
    recip (Fin p) = Returned (Fin a)
    /\ 2 ^ (-1022) <= a /\ a <= 2 ^ 1022
    /\ - (1 # 2 ^ 53) <= a * p - 1 <= 1 # 2 ^ 53.
Proof.
  intros L U.
  assert (P : 0 < p).
  { apply Qlt_le_trans with (2 ^ (-1022)); [ apply two_pos | exact L ]. }
  assert (N : ~ p == 0) by (intros E; rewrite E in P; now apply Qlt_irrefl in P).
  assert (Pi : 0 < 1 / p).
  { unfold Qdiv. rewrite Qmult_1_l. now apply Qinv_lt_0_compat. }
  assert (Ei : (1 / p) * p == 1) by (field; exact N).
  assert (Li : 2 ^ (-1022) <= 1 / p).
  { apply Qmult_le_r with (z := p); [ exact P | ]. rewrite Ei.
    apply Qle_trans with (2 ^ (-1022) * 2 ^ 1022).
    - apply Qmult_le_l; [ apply two_pos | exact U ].
    - rewrite <- two_add. apply Qle_refl. }
  assert (Ui : 1 / p <= 2 ^ 1022).
  { apply Qmult_le_r with (z := p); [ exact P | ]. rewrite Ei.
    apply Qle_trans with (2 ^ 1022 * 2 ^ (-1022)).
    - rewrite <- two_add. apply Qle_refl.
    - apply Qmult_le_l; [ apply two_pos | exact L ]. }
  exists (Qred (nearest (1 / p))).
  unfold recip.
  destruct (Qeq_bool p 0) eqn:Z; [ apply Qeq_bool_iff in Z; contradiction | ].
  rewrite (round_finite 1022 (1 / p) Pi); [ | lia | exact Ui ].
  split; [ reflexivity | ]. rewrite Qred_correct.
  split; [ apply nearest_ge; [ exact Pi | lia | exact Li ] | ].
  split; [ apply nearest_le; [ exact Pi | lia | exact Ui ] | ].
  pose proof (nearest_error (1 / p) Li) as [E1 E2].
  set (a := nearest (1 / p)) in *.
  assert (D : a * p - 1 == (a - 1 / p) * p) by (field; exact N).
  assert (T : (1 # 2 ^ 53) * (1 / p) * p == 1 # 2 ^ 53).
  { field. exact N. }
  rewrite D. split.
  - setoid_replace (- (1 # 2 ^ 53)) with (- ((1 # 2 ^ 53) * (1 / p)) * p)
      by (field; exact N).
    apply Qmult_le_compat_r; [ exact E1 | apply Qlt_le_weak, P ].
  - rewrite <- T. apply Qmult_le_compat_r; [ exact E2 | apply Qlt_le_weak, P ].
Qed.

(** [1 / x] overflows to an infinity up to [2 ^ -1024] *)
Lemma recip_overflows p :
  0 < p -> p <= 2 ^ (-1024) -> recip (Fin p) = Returned (Inf false).
Proof.
  intros P U.
  assert (N : ~ p == 0) by (intros E; rewrite E in P; now apply Qlt_irrefl in P).
  assert (Ei : (1 / p) * p == 1) by (field; exact N).
  unfold recip.
  destruct (Qeq_bool p 0) eqn:Z; [ apply Qeq_bool_iff in Z; contradiction | ].
  f_equal. apply round_overflow.
  apply Qmult_le_r with (z := p); [ exact P | ]. rewrite Ei.
  apply Qle_trans with (2 ^ 1024 * 2 ^ (-1024)).
  - apply Qmult_le_l; [ apply two_pos | exact U ].
  - rewrite <- two_add. apply Qle_refl.
Qed.

(** [1 / (x ** 2)], away from the thresholds, is the reciprocal of the
    square up to two roundings *)
Lemma recip_sq_rounds q :
  2 ^ (-510) <= Qabs q -> Qabs q <= 2 ^ 510 ->
  exists w,
    (variance <- sq (Fin q) ;; recip variance) = Returned (Fin w)
    /\ 0 < w
    /\ - (1 # 2 ^ 51) <= w * (q * q) - 1 <= 1 # 2 ^ 51.
Proof.
  intros L U.
  destruct (sq_rounds q L U) as (r & Hr & Lr & Ur & E1 & E2).
  assert (Lr' : 2 ^ (-1022) <= r).
  { apply Qle_trans with (2 ^ (-1020)); [ apply two_le; lia | exact Lr ]. }
  assert (Ur' : r <= 2 ^ 1022).
  { apply Qle_trans with (2 ^ 1020); [ exact Ur | apply two_le; lia ]. }
  destruct (recip_rounds r Lr' Ur') as (a & Ha & La & _ & A1 & A2).
  assert (Pa : 0 < a).
  { apply Qlt_le_trans with (2 ^ (-1022)); [ apply two_pos | exact La ]. }
  exists a. rewrite Hr. split; [ exact Ha | ]. split; [ exact Pa | ].
  set (x := q * q) in *.
  assert (H1 : a * ((1 - (1 # 2 ^ 53)) * x) <= a * r).
  { apply Qmult_le_l; [ exact Pa | ]. lra. }
  assert (H2 : a * r <= a * ((1 + (1 # 2 ^ 53)) * x)).
  { apply Qmult_le_l; [ exact Pa | ]. lra. }
  assert (T1 : a * ((1 - (1 # 2 ^ 53)) * x) == (1 - (1 # 2 ^ 53)) * (a * x)) by ring.
  assert (T2 : a * ((1 + (1 # 2 ^ 53)) * x) == (1 + (1 # 2 ^ 53)) * (a * x)) by ring.
  rewrite T1 in H1. rewrite T2 in H2. clear T1 T2.
  remember (a * x) as t eqn:Et. remember (a * r) as s eqn:Es.
  clear - H1 H2 A1 A2.
  change (2 ^ 53)%positive with 9007199254740992%positive in *.
  change (2 ^ 51)%positive with 2251799813685248%positive.
  lra.
Qed.

End Rounding.

(** The two covariances of the odometry model, 0.02 ** 2 and 0.002 ** 2,
    are finite floats. *)
Lemma trans_cov_returns :
  exists c, XFloat.sq (XFloat.round (1 # 50)) = Returned (Fin c).
Proof. vm_compute. eexists. reflexivity. Qed.

Lemma rot_cov_returns :
  exists c, XFloat.sq (XFloat.round (1 # 500)) = Returned (Fin c).
Proof. vm_compute. eexists. reflexivity. Qed.

(* ------------------------------------------------------------------ *)
(** * Properties of the measurement entities *)

Local Open Scope list_scope.

Lemma bind_returned {A B : Type} (c : outcome A) (k : A -> outcome B) (b : B) :
  bind c k = Returned b -> exists a, c = Returned a /\ k a = Returned b.
Proof.
  destruct c as [a|e]; simpl; intros H; [ now exists a | discriminate ].
Qed.

Lemma raises_or_returns {A : Type} (c : outcome A) : raises c \/ returns c.
Proof.
  destruct c as [a|e]; [ right; now exists a | left; now exists e ].
Qed.

Lemma raises_not_returns {A : Type} (c : outcome A) : raises c <-> ~ returns c.
Proof.
  split.
  - intros [e He] [a Ha]. congruence.
  - intros H. destruct c as [a|e]; [ exfalso; apply H; now exists a | now exists e ].
Qed.

Section RangeAssociation.

Import FGRangeMeasurement.

(** The validator of a two-element association, check by check. *)
Lemma check_association_pair (v0 v1 : string) :
  check_association [v0; v1] =
    if String.eqb v0 v1 then Raised err_unique
    else if startswith v0 "L" then Raised err_first
    else if negb (startswith v1 "L") then Raised err_second
    else Returned tt.
Proof. reflexivity. Qed.

Lemma check_association_arity (value : list string) :
  length value <> 2 -> check_association value = Raised err_arity.
Proof.
  intros H. unfold check_association.
  destruct (Nat.eqb_spec (length value) 2) as [E|E]; [ contradiction | reflexivity ].
Qed.

Lemma length_two {A : Type} (l : list A) :
  length l = 2 -> exists a b, l = [a; b].
Proof.
  destruct l as [|a [|b [|c l]]]; simpl; try discriminate.
  intros _. now exists a, b.
Qed.

Lemma init_check (association : list string) (dist : scalar) (stddev : xfloat) :
  init association dist stddev =
    match check_association association with
    | Returned _ => Returned (mk association dist stddev)
    | Raised e => Raised e
    end.
Proof. unfold init. now destruct (check_association association). Qed.

Lemma errors_distinct : NoDup [err_arity; err_unique; err_first; err_second].
Proof.
  repeat constructor; simpl; intros H;
    repeat (destruct H as [H|H]; [ discriminate H | ]); exact H.
Qed.

End RangeAssociation.

Lemma Qeq_bool_false_neq (q : Q) : ~ (q == 0)%Q -> Qeq_bool q 0 = false.
Proof.
  intros H. destruct (Qeq_bool q 0) eqn:E; [ | reflexivity ].
  exfalso. apply H. now apply Qeq_bool_iff.
Qed.

Lemma len_set_le (xs : list string) : len_set xs <= length xs.
Proof.
  unfold len_set. induction xs as [|a xs IH]; simpl; [ lia | ].
  destruct (in_dec string_dec a xs); simpl; lia.
Qed.

(** [len(value) == len(set(value))] says that no element repeats. *)
Lemma len_set_NoDup (xs : list string) : length xs = len_set xs <-> NoDup xs.
Proof.
  unfold len_set. split.
  - induction xs as [|a xs IH]; simpl; intros H; [ constructor | ].
    destruct (in_dec string_dec a xs) as [i|n].
    + pose proof (len_set_le xs) as L. unfold len_set in L. lia.
    + constructor; [ exact n | apply IH; simpl in H; lia ].
  - intros H. now rewrite (nodup_fixed_point string_dec H).
Qed.

Lemma ambiguous_check_true (value : list string) :
  AmbiguousFGRangeMeasurement.check_true_association value = Returned tt
  <-> length value = 2 /\ NoDup value.
Proof.
  unfold AmbiguousFGRangeMeasurement.check_true_association.
  destruct (Nat.eqb_spec (length value) 2) as [E|E]; simpl.
  - destruct (Nat.eqb_spec (length value) (len_set value)) as [D|D]; simpl.
    + split; [ intros _; split; [ exact E | now apply len_set_NoDup ] | reflexivity ].
    + split; [ discriminate | intros [_ N]; apply len_set_NoDup in N; contradiction ].
  - split; [ discriminate | intros [L _]; contradiction ].
Qed.

Lemma ambiguous_check_measured (value : list string) :
  AmbiguousFGRangeMeasurement.check_measured_association value =
  AmbiguousFGRangeMeasurement.check_true_association value.
Proof. reflexivity. Qed.

Lemma ambiguous_init_returns (ta ma : list string) (dist : scalar) (stddev : xfloat) :
  returns (AmbiguousFGRangeMeasurement.init ta ma dist stddev)
  <-> (length ta = 2 /\ NoDup ta) /\ (length ma = 2 /\ NoDup ma).
Proof.
  unfold AmbiguousFGRangeMeasurement.init. split.
  - intros [m H].
    apply bind_returned in H as ([] & Ht & H).
    apply bind_returned in H as ([] & Hm & _).
    rewrite ambiguous_check_measured in Hm.
    split; now apply ambiguous_check_true.
  - intros [Ht Hm].
    apply ambiguous_check_true in Ht, Hm. rewrite <- ambiguous_check_measured in Hm.
    rewrite Ht, Hm. simpl. eexists. reflexivity.
Qed.

(** [p <= q] between closed rationals, by evaluation *)
Ltac qle_compute := apply Qle_bool_iff; vm_compute; reflexivity.

(** C2, as the code has it.  Constructing a Pose Measurement validates
    nothing: it returns the record for every value of the two precisions,
    zero and negative ones included.  The covariance accessor then yields
    the diagonal matrix of the reciprocals as binary64 division computes
    them.  For precisions from 2^-1022 to 2^1022 its entries are finite,
    strictly positive, and within the relative error 2^-53 of the exact
    reciprocals; for positive precisions of at most 2^-1024 its entries are
    infinite. *)
Theorem pose_measurement_unvalidated
    (base_pose to_pose : string) (x y theta tw rw : xfloat) :
  PoseMeasurement.init base_pose to_pose x y theta tw rw
    = Returned (PoseMeasurement.mk base_pose to_pose x y theta tw rw)
  /\ (forall p r : Q, tw = Fin p -> rw = Fin r ->
      (2 ^ (-1022) <= p)%Q -> (p <= 2 ^ 1022)%Q ->
      (2 ^ (-1022) <= r)%Q -> (r <= 2 ^ 1022)%Q ->
      exists a b : Q,
        PoseMeasurement.covariance (PoseMeasurement.mk base_pose to_pose x y theta tw rw)
          = Returned [ [Fin a; Fin 0; Fin 0]; [Fin 0; Fin a; Fin 0]; [Fin 0; Fin 0; Fin b] ]
        /\ (0 < a)%Q /\ (0 < b)%Q
        /\ (- (1 # 2 ^ 53) <= a * p - 1 <= 1 # 2 ^ 53)%Q
        /\ (- (1 # 2 ^ 53) <= b * r - 1 <= 1 # 2 ^ 53)%Q)
  /\ (forall p r : Q, tw = Fin p -> rw = Fin r ->
      (0 < p)%Q -> (p <= 2 ^ (-1024))%Q -> (0 < r)%Q -> (r <= 2 ^ (-1024))%Q ->
      PoseMeasurement.covariance (PoseMeasurement.mk base_pose to_pose x y theta tw rw)
        = Returned [ [Inf false; Fin 0; Fin 0];
                     [Fin 0; Inf false; Fin 0];
                     [Fin 0; Fin 0; Inf false] ]).
Proof.
  split; [ reflexivity | split ].
  - intros p r -> -> Lp Up Lr Ur.
    destruct (recip_rounds p Lp Up) as (a & Ha & La & _ & Ea).
    destruct (recip_rounds r Lr Ur) as (b & Hb & Lb & _ & Eb).
    exists a, b. unfold PoseMeasurement.covariance.
    cbn [PoseMeasurement.translation_weight PoseMeasurement.rotation_weight].
    rewrite Ha, Hb. split; [ reflexivity | ].
    split; [ apply Qlt_le_trans with (2 ^ (-1022))%Q; [ apply two_pos | exact La ] | ].
    split; [ apply Qlt_le_trans with (2 ^ (-1022))%Q; [ apply two_pos | exact Lb ] | ].
    split; assumption.
  - intros p r -> -> Pp Up Pr Ur.
    unfold PoseMeasurement.covariance.
    cbn [PoseMeasurement.translation_weight PoseMeasurement.rotation_weight].
    rewrite (recip_overflows p Pp Up), (recip_overflows r Pr Ur). reflexivity.
Qed.

Lemma pose_measurement_unvalidated_witness :
  (exists a b : Q,
    PoseMeasurement.covariance
      (PoseMeasurement.mk "A0" "A1" (Fin 1) (Fin 0) (Fin 0) (Fin 2500) (Fin 250000))
      = Returned [ [Fin a; Fin 0; Fin 0]; [Fin 0; Fin a; Fin 0]; [Fin 0; Fin 0; Fin b] ]
    /\ (0 < a)%Q /\ (0 < b)%Q)
  /\ PoseMeasurement.covariance
       (PoseMeasurement.mk "A0" "A1" (Fin 1) (Fin 0) (Fin 0)
          (Fin (2 ^ (-1074))) (Fin (2 ^ (-1074))))
     = Returned [ [Inf false; Fin 0; Fin 0];
                  [Fin 0; Inf false; Fin 0];
                  [Fin 0; Fin 0; Inf false] ].
Proof.
  split.
  - destruct (pose_measurement_unvalidated "A0" "A1" (Fin 1) (Fin 0) (Fin 0)
                (Fin 2500) (Fin 250000)) as (_ & H & _).
    destruct (H 2500%Q 250000%Q eq_refl eq_refl) as (a & b & Hc & Ha & Hb & _);
      [ qle_compute | qle_compute | qle_compute | qle_compute | ].
    exists a, b. auto.
  - destruct (pose_measurement_unvalidated "A0" "A1" (Fin 1) (Fin 0) (Fin 0)
                (Fin (2 ^ (-1074))) (Fin (2 ^ (-1074)))) as (_ & _ & H).
    apply (H (2 ^ (-1074))%Q (2 ^ (-1074))%Q eq_refl eq_refl);
      first [ apply two_pos | qle_compute ].
Defined.

(** C2 as claimed fails: a Pose Measurement with a zero translation precision
    and a negative rotation precision is constructed, and its covariance
    accessor raises; with two negative precisions the covariance entries are
    negative. *)
Lemma pose_measurement_nonpositive_accepted :
  (exists m,
      PoseMeasurement.init "A0" "A1" (Fin 1) (Fin 0) (Fin 0) (Fin 0) (Fin (-1))
        = Returned m
      /\ ~ XFloat.positive (PoseMeasurement.translation_weight m)
      /\ ~ XFloat.positive (PoseMeasurement.rotation_weight m)
      /\ raises (PoseMeasurement.covariance m))
  /\ (exists m,
      PoseMeasurement.init "A0" "A1" (Fin 1) (Fin 0) (Fin 0) (Fin (-4)) (Fin (-1))
        = Returned m
      /\ PoseMeasurement.covariance m
         = Returned [ [Fin (-1 # 4); Fin 0; Fin 0];
                      [Fin 0; Fin (-1 # 4); Fin 0];
                      [Fin 0; Fin 0; Fin (-1)] ]).
Proof.
  split.
  - eexists. split; [ reflexivity | ]. simpl.
    repeat split; try (intros H; discriminate H).
    eexists. reflexivity.
  - eexists. split; [ reflexivity | ]. vm_compute. reflexivity.
Qed.

(** C4, as the code has it.  Constructing a Range Measurement raises exactly
    when the association does not have two elements, or its two elements are
    equal, or the first starts with L, or the second does not start with L.
    The four checks raise four different errors (each a ValueError with a
    message of its own), the first failing check deciding which.  A
    constructed measurement stores its arguments.  Its weight is
    [1 / (stddev ** 2)] in binary64 arithmetic: for a standard deviation of
    magnitude from 2^-510 to 2^510 it is a positive float within the
    relative error 2^-51 of the reciprocal of the squared standard
    deviation; for a magnitude of at most 2^-538, zero included, the square
    is zero and the accessor raises ZeroDivisionError; for a finite
    magnitude of at least 2^512 the square overflows and the accessor raises
    OverflowError; for a NaN standard deviation the weight is NaN and for an
    infinite one it is zero. *)
Theorem range_measurement_validation
    (association : list string) (dist : scalar) (stddev : xfloat) :
  let v0 := nth 0 association "" in
  let v1 := nth 1 association "" in
  let built := FGRangeMeasurement.init association dist stddev in
  (raises built <->
     length association <> 2 \/ v0 = v1
     \/ startswith v0 "L" = true \/ startswith v1 "L" = false)
  /\ (length association <> 2 -> built = Raised FGRangeMeasurement.err_arity)
  /\ (length association = 2 -> v0 = v1 ->
      built = Raised FGRangeMeasurement.err_unique)
  /\ (length association = 2 -> v0 <> v1 -> startswith v0 "L" = true ->
      built = Raised FGRangeMeasurement.err_first)
  /\ (length association = 2 -> v0 <> v1 -> startswith v0 "L" = false ->
      startswith v1 "L" = false ->
      built = Raised FGRangeMeasurement.err_second)
  /\ NoDup [FGRangeMeasurement.err_arity; FGRangeMeasurement.err_unique;
            FGRangeMeasurement.err_first; FGRangeMeasurement.err_second]
  /\ (forall m, built = Returned m ->
      m = FGRangeMeasurement.mk association dist stddev
      /\ (forall q, stddev = Fin q ->
          (2 ^ (-510) <= Qabs q)%Q -> (Qabs q <= 2 ^ 510)%Q ->
          exists w, FGRangeMeasurement.weight m = Returned (Fin w)
                    /\ (0 < w)%Q
                    /\ (- (1 # 2 ^ 51) <= w * (q * q) - 1 <= 1 # 2 ^ 51)%Q)
      /\ (forall q, stddev = Fin q -> (Qabs q <= 2 ^ (-538))%Q ->
          FGRangeMeasurement.weight m
            = Raised (ZeroDivisionError "float division by zero"))
      /\ (forall q, stddev = Fin q -> (2 ^ 512 <= Qabs q)%Q ->
          FGRangeMeasurement.weight m
            = Raised (OverflowError "(34, 'Numerical result out of range')"))
      /\ (stddev = NaN -> FGRangeMeasurement.weight m = Returned NaN)
      /\ (forall s, stddev = Inf s ->
          FGRangeMeasurement.weight m = Returned (Fin 0))).
Proof.
  intros v0 v1 built. subst built.
  rewrite init_check.
  destruct (Nat.eq_dec (length association) 2) as [L|L].
  - destruct (length_two association L) as (a & b & ->). simpl in v0, v1. subst v0 v1.
    rewrite check_association_pair.
    destruct (String.eqb_spec a b) as [E|E];
      [ | destruct (startswith a "L") eqn:Sa;
          [ | destruct (startswith b "L") eqn:Sb ] ]; simpl.
    all: split; [ split | ].
    all: try (intros _; eexists; reflexivity).
    all: try (intros _; tauto).
    all: try (intros [e He]; discriminate He).
    all: try (intros [H|[H|[H|H]]]; simpl in H; congruence).
    all: do 5 (split; [ first [ apply errors_distinct
                                | intros; simpl in *; congruence ] | ]).
    all: try (intros m Hm; discriminate Hm).
    intros m Hm. injection Hm as <-. split; [ reflexivity | ].
    unfold FGRangeMeasurement.weight. cbn [FGRangeMeasurement.stddev].
    split; [ | split; [ | split; [ | split ] ] ].
    + intros q -> Lq Uq. apply recip_sq_rounds; assumption.
    + intros q -> Uq. rewrite (sq_underflows q Uq). reflexivity.
    + intros q -> Lq. rewrite (sq_overflows q Lq). reflexivity.
    + intros ->. reflexivity.
    + intros s ->. reflexivity.
  - rewrite (check_association_arity association L).
    split; [ split; [ intros _; tauto | intros _; eexists; reflexivity ] | ].
    do 5 (split; [ first [ apply errors_distinct
                           | intros; simpl in *; congruence ] | ]).
    intros m Hm; discriminate Hm.
Qed.

Lemma range_measurement_validation_witness :
  (exists m, FGRangeMeasurement.init ["A7"; "L2"] (fl 5) (Fin (3 # 4)) = Returned m
             /\ exists w, FGRangeMeasurement.weight m = Returned (Fin w)
                          /\ (- (1 # 2 ^ 51) <= w * ((3 # 4) * (3 # 4)) - 1
                              <= 1 # 2 ^ 51)%Q)
  /\ FGRangeMeasurement.init ["A7"] (fl 5) (Fin (3 # 4))
     = Raised FGRangeMeasurement.err_arity
  /\ FGRangeMeasurement.init ["A7"; "A7"] (fl 5) (Fin (3 # 4))
     = Raised FGRangeMeasurement.err_unique
  /\ FGRangeMeasurement.init ["L1"; "L2"] (fl 5) (Fin (3 # 4))
     = Raised FGRangeMeasurement.err_first
  /\ FGRangeMeasurement.init ["A7"; "A8"] (fl 5) (Fin (3 # 4))
     = Raised FGRangeMeasurement.err_second.
Proof.
  split; [ | split; [ | split; [ | split ] ] ].
  - destruct (range_measurement_validation ["A7"; "L2"] (fl 5) (Fin (3 # 4)))
      as (_ & _ & _ & _ & _ & _ & H).
    exists (FGRangeMeasurement.mk ["A7"; "L2"] (fl 5) (Fin (3 # 4))).
    split; [ reflexivity | ].
    destruct (H _ eq_refl) as (_ & Hw & _).
    destruct (Hw (3 # 4)%Q eq_refl) as (w & Hw1 & _ & Hw2);
      [ qle_compute | qle_compute | ].
    exists w. split; [ exact Hw1 | exact Hw2 ].
  - apply (range_measurement_validation ["A7"] (fl 5) (Fin (3 # 4))).
    simpl. lia.
  - apply (range_measurement_validation ["A7"; "A7"] (fl 5) (Fin (3 # 4)));
      reflexivity.
  - apply (range_measurement_validation ["L1"; "L2"] (fl 5) (Fin (3 # 4)));
      [ reflexivity | intros E; discriminate E | reflexivity ].
  - apply (range_measurement_validation ["A7"; "A8"] (fl 5) (Fin (3 # 4)));
      [ reflexivity | intros E; discriminate E | reflexivity | reflexivity ].
Defined.

(** C4 as claimed fails: with the standard deviation 2^-600, which is not
    zero, a Range Measurement is constructed and its weight accessor raises
    ZeroDivisionError, the square having underflowed to zero; with 2^600 the
    square overflows and the accessor raises OverflowError.  At neither the
    weight is the reciprocal of the squared standard deviation. *)
Lemma range_weight_out_of_range :
  (exists m,
      FGRangeMeasurement.init ["A0"; "L0"] (fl 5) (Fin (2 ^ (-600))) = Returned m
      /\ FGRangeMeasurement.stddev m = Fin (2 ^ (-600))
      /\ ~ (2 ^ (-600) == 0)%Q
      /\ FGRangeMeasurement.weight m
         = Raised (ZeroDivisionError "float division by zero"))
  /\ (exists m,
      FGRangeMeasurement.init ["A0"; "L0"] (fl 5) (Fin (2 ^ 600)) = Returned m
      /\ FGRangeMeasurement.stddev m = Fin (2 ^ 600)
      /\ ~ (2 ^ 600 == 0)%Q
      /\ FGRangeMeasurement.weight m
         = Raised (OverflowError "(34, 'Numerical result out of range')")).
Proof.
  split; eexists; (split; [ reflexivity | ]); (split; [ reflexivity | ]);
    (split; [ apply Qpower_not_0; discriminate | vm_compute; reflexivity ]).
Qed.

(** C6.  Constructing an Ambiguous Range Measurement raises exactly when one
    of its two associations does not have two elements or repeats an element.
    No role is checked: any two pairs of distinct identifiers are accepted,
    for instance a pair of two landmark identifiers, which the plain Range
    Measurement rejects. *)
Theorem ambiguous_range_measurement_validation
    (true_association measured_association : list string)
    (dist : scalar) (stddev : xfloat) :
  (raises (AmbiguousFGRangeMeasurement.init true_association measured_association
             dist stddev)
   <-> (length true_association <> 2 \/ ~ NoDup true_association)
       \/ (length measured_association <> 2 \/ ~ NoDup measured_association))
  /\ (forall a b c d : string, a <> b -> c <> d ->
      AmbiguousFGRangeMeasurement.init [a; b] [c; d] dist stddev
        = Returned (AmbiguousFGRangeMeasurement.mk [a; b] [c; d] dist stddev))
  /\ AmbiguousFGRangeMeasurement.init ["L1"; "L2"] ["L1"; "L2"] dist stddev
       = Returned (AmbiguousFGRangeMeasurement.mk ["L1"; "L2"] ["L1"; "L2"] dist stddev)
  /\ FGRangeMeasurement.init ["L1"; "L2"] dist stddev
       = Raised FGRangeMeasurement.err_first.
Proof.
  split; [ | split; [ | split; reflexivity ] ].
  - rewrite raises_not_returns, ambiguous_init_returns.
    destruct (Nat.eq_dec (length true_association) 2) as [Lt|Lt];
      destruct (Nat.eq_dec (length measured_association) 2) as [Lm|Lm];
      destruct (ListDec.NoDup_dec string_dec true_association) as [Dt|Dt];
      destruct (ListDec.NoDup_dec string_dec measured_association) as [Dm|Dm];
      tauto.
  - intros a b c d Hab Hcd.
    assert (R : returns (AmbiguousFGRangeMeasurement.init [a; b] [c; d] dist stddev)).
    { apply ambiguous_init_returns.
      repeat split; try reflexivity;
        repeat constructor; simpl; intuition congruence. }
    destruct R as [m Hm]. rewrite Hm. f_equal.
    unfold AmbiguousFGRangeMeasurement.init in Hm.
    apply bind_returned in Hm as ([] & _ & Hm).
    apply bind_returned in Hm as ([] & _ & Hm).
    now injection Hm as <-.
Qed.

Lemma ambiguous_range_measurement_validation_witness :
  AmbiguousFGRangeMeasurement.init ["A3"; "L0"] ["A3"; "L1"] (fl 7) (Fin (3 # 4))
    = Returned (AmbiguousFGRangeMeasurement.mk ["A3"; "L0"] ["A3"; "L1"] (fl 7)
                  (Fin (3 # 4)))
  /\ raises (AmbiguousFGRangeMeasurement.init ["A3"; "A3"] ["A3"; "L1"] (fl 7)
               (Fin (3 # 4))).
Proof.
  destruct (ambiguous_range_measurement_validation ["A3"; "A3"] ["A3"; "L1"]
              (fl 7) (Fin (3 # 4))) as [[_ R] [H _]].
  split.
  - apply H; intros E; discriminate E.
  - apply R. left. right. intros N. inversion N as [|? ? I _]. apply I. now left.
Defined.

(* ------------------------------------------------------------------ *)
(** * Reasoning about the state transformers *)

Lemma bindM_returned {A B : Type} (c : M A) (k : A -> M B) g b g' :
  bindM c k g = (Returned b, g') ->
  exists a g1, c g = (Returned a, g1) /\ k a g1 = (Returned b, g').
Proof.
  unfold bindM. destruct (c g) as [[a|e] g1]; intros H.
  - now exists a, g1.
  - discriminate H.
Qed.

Lemma liftM_returned {A : Type} (c : outcome A) g a g' :
  liftM c g = (Returned a, g') -> c = Returned a /\ g' = g.
Proof. unfold liftM. intros H. now injection H as -> ->. Qed.

Lemma retM_returned {A : Type} (x : A) g a g' :
  retM x g = (Returned a, g') -> a = x /\ g' = g.
Proof. unfold retM. intros H. now injection H as -> ->. Qed.

Lemma callM_returned op g u g' :
  callM op g = (Returned u, g') -> op g = Returned g'.
Proof.
  unfold callM. destruct (op g) as [g1|e]; intros H; [ | discriminate H ].
  now injection H as _ ->.
Qed.

Lemma for_in_cons {A L : Type} (x : A) xs (body : L -> A -> M L) l g l' g' :
  for_in (x :: xs) body l g = (Returned l', g') ->
  exists l1 g1, body l x g = (Returned l1, g1)
                /\ for_in xs body l1 g1 = (Returned l', g').
Proof. simpl. apply bindM_returned. Qed.

Lemma for_each_nil {A : Type} (body : A -> M unit) g u g' :
  for_each [] body g = (Returned u, g') -> g' = g.
Proof. unfold for_each. simpl. intros H. now apply retM_returned in H. Qed.

Lemma for_each_cons {A : Type} (x : A) xs (body : A -> M unit) g u g' :
  for_each (x :: xs) body g = (Returned u, g') ->
  exists g1, body x g = (Returned tt, g1)
             /\ for_each xs body g1 = (Returned u, g').
Proof.
  unfold for_each. intros H. apply for_in_cons in H as ([] & g1 & Hb & Hr).
  now exists g1.
Qed.

(** A loop whose body appends to one collection of the graph appends the
    concatenation of what the bodies append. *)
Lemma for_each_appends {A B : Type}
    (ext : FactorGraphData.t -> list B -> FactorGraphData.t) (f : A -> list B)
    (body : A -> M unit) :
  (forall g, ext g [] = g) ->
  (forall g a b, ext (ext g a) b = ext g (a ++ b)) ->
  forall xs,
  (forall x g u g', In x xs -> body x g = (Returned u, g') -> g' = ext g (f x)) ->
  forall g u g',
  for_each xs body g = (Returned u, g') -> g' = ext g (flat_map f xs).
Proof.
  intros Hnil Happ xs. induction xs as [|x xs IH]; intros Hbody g u g' H.
  - apply for_each_nil in H. subst. simpl. now rewrite Hnil.
  - apply for_each_cons in H as (g1 & Hx & Hr).
    apply Hbody in Hx; [ | now left ].
    apply IH in Hr; [ | intros; eapply Hbody; eauto; now right ].
    subst. simpl. now rewrite Happ.
Qed.

Lemma flat_map_filter_map {A B : Type} (p : A -> bool) (f : A -> B) (xs : list A) :
  flat_map (fun x => if p x then [f x] else []) xs = map f (filter p xs).
Proof.
  induction xs as [|x xs IH]; simpl; [ reflexivity | ].
  destruct (p x); simpl; now rewrite IH.
Qed.

Section Extensions.

Import Ingested.

Lemma with_landmarks_nil g : with_landmarks g [] = g.
Proof. destruct g. unfold with_landmarks. simpl. now rewrite app_nil_r. Qed.

Lemma with_landmarks_app g a b :
  with_landmarks (with_landmarks g a) b = with_landmarks g (a ++ b).
Proof. unfold with_landmarks. simpl. now rewrite app_assoc. Qed.

Lemma with_poses_nil g : with_poses g [] = g.
Proof. destruct g. unfold with_poses. simpl. now rewrite app_nil_r. Qed.

Lemma with_poses_app g a b : with_poses (with_poses g a) b = with_poses g (a ++ b).
Proof. unfold with_poses. simpl. now rewrite app_assoc. Qed.

Lemma with_odoms_nil g : with_odoms g [] = g.
Proof. destruct g. unfold with_odoms. simpl. now rewrite app_nil_r. Qed.

Lemma with_odoms_app g a b : with_odoms (with_odoms g a) b = with_odoms g (a ++ b).
Proof. unfold with_odoms. simpl. now rewrite app_assoc. Qed.

Lemma with_ranges_nil g : with_ranges g [] = g.
Proof. destruct g. unfold with_ranges. simpl. now rewrite app_nil_r. Qed.

Lemma with_ranges_app g a b : with_ranges (with_ranges g a) b = with_ranges g (a ++ b).
Proof. unfold with_ranges. simpl. now rewrite app_assoc. Qed.

End Extensions.

(** ** Sequences *)

Lemma in_enumerate_from {A : Type} (xs : list A) (s i : nat) (x : A) :
  In (i, x) (combine (seq s (length xs)) xs) <-> s <= i /\ nth_error xs (i - s) = Some x.
Proof.
  revert s. induction xs as [|y xs IH]; intros s; simpl.
  - split; [ contradiction | ]. intros [_ H]. destruct (i - s); discriminate H.
  - rewrite IH. split.
    + intros [E|[L H]].
      * injection E as -> ->. split; [ lia | ]. now rewrite Nat.sub_diag.
      * split; [ lia | ]. replace (i - s) with (S (i - S s)) by lia. exact H.
    + intros [L H]. destruct (Nat.eq_dec s i) as [->|N].
      * left. rewrite Nat.sub_diag in H. simpl in H. congruence.
      * right. split; [ lia | ].
        replace (i - s) with (S (i - S s)) in H by lia. exact H.
Qed.

Lemma map_fst_enumerate_from {A : Type} (xs : list A) (s : nat) :
  map fst (combine (seq s (length xs)) xs) = seq s (length xs).
Proof.
  revert s. induction xs as [|x xs IH]; intros s; simpl; [ reflexivity | ].
  now rewrite IH.
Qed.

Lemma map_fst_enumerate {A : Type} (xs : list A) :
  map fst (enumerate xs) = seq 0 (length xs).
Proof. apply map_fst_enumerate_from. Qed.

Lemma in_enumerate {A : Type} (xs : list A) (i : nat) (x : A) :
  In (i, x) (enumerate xs) <-> nth_error xs i = Some x.
Proof.
  unfold enumerate. rewrite in_enumerate_from, Nat.sub_0_r.
  split; [ tauto | ]. intros H. split; [ lia | exact H ].
Qed.

Lemma mapM_returned {A B : Type} (f : A -> outcome B) (xs : list A) (ys : list B) :
  mapM f xs = Returned ys -> Forall2 (fun x y => f x = Returned y) xs ys.
Proof.
  revert ys. induction xs as [|x xs IH]; simpl; intros ys H.
  - injection H as <-. constructor.
  - apply bind_returned in H as (y & Hy & H).
    apply bind_returned in H as (ys' & Hys & H).
    injection H as <-. constructor; auto.
Qed.

(** ** Identifiers *)

Lemma to_uint_nonnil (n : nat) : Nat.to_uint n <> Decimal.Nil.
Proof.
  rewrite <- (DecimalNat.Unsigned.of_to n) at 1.
  rewrite DecimalNat.Unsigned.to_of. apply DecimalFacts.unorm_nonnil.
Qed.

Lemma str_of_nat_inj (n m : nat) : str_of_nat n = str_of_nat m -> n = m.
Proof.
  unfold str_of_nat. intros H.
  apply DecimalNat.Unsigned.to_uint_inj.
  pose proof (NilZero.usu _ (to_uint_nonnil n)) as Hn.
  pose proof (NilZero.usu _ (to_uint_nonnil m)) as Hm.
  rewrite H in Hn. congruence.
Qed.

Lemma pose_name_inj (i j : nat) :
  GoatsParser.pose_name i = GoatsParser.pose_name j -> i = j.
Proof.
  unfold GoatsParser.pose_name. simpl. intros H. injection H as H.
  now apply str_of_nat_inj.
Qed.

Lemma beacon_name_inj (i j : nat) :
  GoatsParser.beacon_name i = GoatsParser.beacon_name j -> i = j.
Proof.
  unfold GoatsParser.beacon_name. simpl. intros H. injection H as H.
  now apply str_of_nat_inj.
Qed.

Lemma pose_name_not_landmark (i : nat) :
  startswith (GoatsParser.pose_name i) "L" = false.
Proof. reflexivity. Qed.

Lemma beacon_name_landmark (i : nat) :
  startswith (GoatsParser.beacon_name i) "L" = true.
Proof.
  unfold GoatsParser.beacon_name, startswith. simpl.
  now destruct (str_of_nat i).
Qed.

Lemma pose_name_neq_beacon_name (i j : nat) :
  GoatsParser.pose_name i <> GoatsParser.beacon_name j.
Proof. unfold GoatsParser.pose_name, GoatsParser.beacon_name. simpl. discriminate. Qed.

(** The association the range loop builds always passes the validator. *)
Lemma range_init_pipeline (i b : nat) (dist : scalar) (stddev : xfloat) :
  FGRangeMeasurement.init [GoatsParser.pose_name i; GoatsParser.beacon_name b] dist stddev
  = Returned (FGRangeMeasurement.mk
                [GoatsParser.pose_name i; GoatsParser.beacon_name b] dist stddev).
Proof.
  rewrite init_check, check_association_pair.
  destruct (String.eqb_spec (GoatsParser.pose_name i) (GoatsParser.beacon_name b)) as [E|_].
  - now apply pose_name_neq_beacon_name in E.
  - now rewrite pose_name_not_landmark, beacon_name_landmark.
Qed.

(* ------------------------------------------------------------------ *)
(** * What each stage of [_fill_factor_graph] appends *)

Section Stages.

Import GoatsParser Ingested.

Variable validate_references : bool.
Variable matrix : Type.
Variable make_transformation_matrix_from_theta : scalar -> list scalar -> matrix.
Variable get_relative_rot_and_trans_between_poses :
  matrix -> matrix -> matrix * list scalar.
Variable get_theta_from_rotation_matrix : matrix -> scalar.
Variable get_measurement_precisions_from_covariances :
  xfloat -> xfloat -> xfloat * xfloat.
Variable float_pow : xfloat -> xfloat -> xfloat.

Lemma add_landmark_variable_returned g var g' :
  FactorGraphData.add_landmark_variable g var = Returned g' ->
  g' = with_landmarks g [var].
Proof.
  unfold FactorGraphData.add_landmark_variable.
  destruct (FactorGraphData.variable_exists g _); intros H; [ discriminate H | ].
  now injection H as <-.
Qed.

Lemma add_pose_variable_returned g var g' :
  FactorGraphData.add_pose_variable g var = Returned g' ->
  g' = with_poses g [var].
Proof.
  unfold FactorGraphData.add_pose_variable.
  destruct (FactorGraphData.variable_exists g _); intros H; [ discriminate H | ].
  now injection H as <-.
Qed.

Lemma add_odom_measurement_returned g i m g' :
  FactorGraphData.add_odom_measurement validate_references g i m = Returned g' ->
  g' = with_odoms g [(i, m)].
Proof.
  unfold FactorGraphData.add_odom_measurement. intros H.
  apply bind_returned in H as (_ & _ & H). now injection H as <-.
Qed.

Lemma add_range_measurement_returned g m g' :
  FactorGraphData.add_range_measurement validate_references g m = Returned g' ->
  g' = with_ranges g [m].
Proof.
  unfold FactorGraphData.add_range_measurement. intros H.
  apply bind_returned in H as (_ & _ & H). now injection H as <-.
Qed.

(** ** Beacon admission *)

Lemma add_beacon_variables_spec self g u g' :
  _add_beacon_variables self g = (Returned u, g') ->
  g' = with_landmarks g (landmarks_built self).
Proof.
  unfold _add_beacon_variables, landmarks_built. intros H.
  rewrite <- flat_map_filter_map.
  revert H. apply for_each_appends.
  - apply with_landmarks_nil.
  - apply with_landmarks_app.
  - intros [idx loc] g0 u0 g1 _ H. simpl.
    apply bindM_returned in H as (ranges & g2 & Hr & H).
    apply liftM_returned in Hr as [Hr ->].
    unfold beacon_admitted. rewrite Hr.
    destruct (Z.of_nat (Np.count_non_nan ranges) <? dim self)%Z; simpl.
    + apply retM_returned in H as [_ ->]. now rewrite with_landmarks_nil.
    + apply bindM_returned in H as (var & g3 & Hv & H).
      apply liftM_returned in Hv as [Hv ->].
      injection Hv as <-.
      apply callM_returned in H. now apply add_landmark_variable_returned.
Qed.

(** ** Pose admission *)

Lemma add_pose_variables_spec self g u g' :
  _add_pose_variables self g = (Returned u, g') ->
  exists ps rs,
    gt_positions self = Returned ps /\ gt_rotations self = Returned rs
    /\ g' = with_poses g (poses_built self (combine ps rs)).
Proof.
  unfold _add_pose_variables. intros H.
  apply bindM_returned in H as (ps & g1 & Hp & H).
  apply liftM_returned in Hp as [Hp ->].
  apply bindM_returned in H as (rs & g1 & Hr & H).
  apply liftM_returned in Hr as [Hr ->].
  exists ps, rs. split; [ exact Hp | split; [ exact Hr | ] ].
  unfold poses_built. rewrite <- flat_map_filter_map.
  revert H. apply for_each_appends.
  - apply with_poses_nil.
  - apply with_poses_app.
  - intros [idx [position rot]] g0 u0 g1 _ H. simpl.
    apply bindM_returned in H as (b & g2 & Hb & H).
    apply liftM_returned in Hb as [Hb ->].
    unfold has_ranges. rewrite Hb.
    destruct b, (Nat.eqb idx 0); simpl in *.
    all: try (apply retM_returned in H as [_ ->]; now rewrite with_poses_nil).
    all: apply bindM_returned in H as (var & g3 & Hv & H);
         apply liftM_returned in Hv as [Hv ->];
         injection Hv as <-;
         apply callM_returned in H; now apply add_pose_variable_returned.
Qed.

(** ** Range derivation *)

Lemma range_step_spec beacon stddev item g u g' :
  range_step validate_references (beacon_name beacon) stddev item g = (Returned u, g') ->
  g' = with_ranges g
         (if usable (snd item)
          then [FGRangeMeasurement.mk [pose_name (fst item); beacon_name beacon]
                  (snd item) stddev]
          else []).
Proof.
  destruct item as [pose_idx dist]. unfold range_step, usable. simpl.
  destruct (Np.isnan dist || Np.isinf dist || negb (Np.isreal dist)); simpl; intros H.
  - apply retM_returned in H as [_ ->]. now rewrite with_ranges_nil.
  - apply bindM_returned in H as (x & g1 & Hx & H).
    assert (g1 = g) as ->.
    { destruct (out_of_bounds dist); now apply retM_returned in Hx as [_ ->]. }
    apply bindM_returned in H as (m & g1 & Hm & H).
    apply liftM_returned in Hm as [Hm ->].
    rewrite range_init_pipeline in Hm. injection Hm as <-.
    apply callM_returned in H. now apply add_range_measurement_returned.
Qed.

Lemma add_range_measurements_spec self g u g' :
  _add_range_measurements validate_references float_pow self g = (Returned u, g') ->
  g' = with_ranges g (ranges_built self).
Proof.
  unfold _add_range_measurements, ranges_built. intros H.
  apply bindM_returned in H as (inv & g1 & Hi & H).
  apply liftM_returned in Hi as [_ ->].
  revert H. apply for_each_appends.
  - apply with_ranges_nil.
  - apply with_ranges_app.
  - intros beacon g0 u0 g1 _ H.
    apply bindM_returned in H as (ranges & g2 & Hr & H).
    apply liftM_returned in Hr as [Hr ->]. rewrite Hr.
    unfold ranges_built_for. rewrite <- flat_map_filter_map.
    revert H. apply for_each_appends.
    + apply with_ranges_nil.
    + apply with_ranges_app.
    + intros item g2 u1 g3 _ H. now apply range_step_spec in H.
Qed.

(** ** Odometry derivation *)

Lemma last_cons_indep {A : Type} (l : list A) : forall x d d',
  last (x :: l) d = last (x :: l) d'.
Proof.
  induction l as [|a l IH]; intros x d d'; [ reflexivity | ].
  change (last (a :: l) d = last (a :: l) d'). apply IH.
Qed.

Lemma chain_app base a b :
  chain base (a ++ b) = chain base a ++ chain (last a base) b.
Proof.
  revert base. induction a as [|n a IH]; intros base; simpl chain; [ reflexivity | ].
  rewrite <- app_comm_cons. simpl chain. rewrite IH. simpl. f_equal. f_equal. f_equal.
  destruct a as [|s a]; [ reflexivity | apply last_cons_indep ].
Qed.

Lemma odometry_step_spec self l item g l1 g1 :
  (odometry_step validate_references matrix make_transformation_matrix_from_theta
     get_relative_rot_and_trans_between_poses get_theta_from_rotation_matrix
     get_measurement_precisions_from_covariances self l item g) = (Returned l1, g1) ->
  let names := if odom_row self (fst item) then [pose_name (fst item)] else [] in
  exists new,
    g1 = with_odoms g new
    /\ map endpoints new = chain (base_pose_name matrix l) names
    /\ base_pose_name matrix l1 = last names (base_pose_name matrix l).
Proof.
  destruct item as [idx [position rot]]. unfold odometry_step, odom_row. simpl.
  intros H.
  apply bindM_returned in H as (b & g2 & Hb & H).
  apply liftM_returned in Hb as [Hb ->].
  unfold has_ranges. rewrite Hb.
  destruct b; simpl in *.
  2:{ apply retM_returned in H as [-> ->]. exists []. simpl.
      now rewrite with_odoms_nil. }
  apply bindM_returned in H as (curr & g2 & Hc & H).
  apply liftM_returned in Hc as [Hc ->].
  destruct (Nat.eqb idx 0); simpl in *.
  { apply retM_returned in H as [-> ->]. exists []. simpl.
    now rewrite with_odoms_nil. }
  destruct (get_relative_rot_and_trans_between_poses _ _) as [relative_rot relative_trans].
  apply bindM_returned in H as ([x y] & g2 & Hxy & H).
  apply liftM_returned in Hxy as [Hxy ->].
  apply bindM_returned in H as (trans_cov & g2 & Htc & H).
  apply liftM_returned in Htc as [_ ->].
  apply bindM_returned in H as (rot_cov & g2 & Hrc & H).
  apply liftM_returned in Hrc as [_ ->].
  destruct (get_measurement_precisions_from_covariances _ _) as [tp rp].
  apply bindM_returned in H as (m & g2 & Hm & H).
  apply liftM_returned in Hm as [Hm ->]. injection Hm as <-.
  apply bindM_returned in H as (u & g2 & Ha & H).
  apply callM_returned in Ha. apply add_odom_measurement_returned in Ha. subst g2.
  apply retM_returned in H as [-> ->].
  eexists. split; [ reflexivity | ]. split; reflexivity.
Qed.

Lemma odometry_loop_spec self items : forall l g l' g',
  for_in items (odometry_step validate_references matrix make_transformation_matrix_from_theta
     get_relative_rot_and_trans_between_poses get_theta_from_rotation_matrix
     get_measurement_precisions_from_covariances self) l g = (Returned l', g') ->
  exists new,
    g' = with_odoms g new
    /\ map endpoints new
       = chain (base_pose_name matrix l)
               (map pose_name (filter (odom_row self) (map fst items))).
Proof.
  induction items as [|item items IH]; intros l g l' g' H.
  - simpl in H. apply retM_returned in H as [_ ->]. exists []. simpl.
    now rewrite with_odoms_nil.
  - apply for_in_cons in H as (l1 & g1 & Hs & Hr).
    apply odometry_step_spec in Hs as (new1 & -> & E1 & B1).
    apply IH in Hr as (new2 & -> & E2).
    exists (new1 ++ new2). split; [ now rewrite with_odoms_app | ].
    rewrite map_app, E1, E2, B1. simpl.
    destruct (odom_row self (fst item)); simpl; reflexivity.
Qed.

Lemma add_odometry_measurements_spec self g u g' :
  _add_odometry_measurements validate_references matrix
    make_transformation_matrix_from_theta get_relative_rot_and_trans_between_poses
    get_theta_from_rotation_matrix get_measurement_precisions_from_covariances
    self g = (Returned u, g') ->
  exists ps rs new,
    positions self = Returned ps /\ rotations self = Returned rs
    /\ ps <> [] /\ rs <> []
    /\ g' = with_odoms g new
    /\ map endpoints new
       = chain "A0" (map pose_name
                         (filter (odom_row self) (seq 0 (length (combine ps rs))))).
Proof.
  unfold _add_odometry_measurements. intros H.
  apply bindM_returned in H as (ps & g1 & Hp & H).
  apply liftM_returned in Hp as [Hp ->].
  apply bindM_returned in H as (start_pos & g1 & Hsp & H).
  apply liftM_returned in Hsp as [Hsp ->].
  apply bindM_returned in H as (rs & g1 & Hr & H).
  apply liftM_returned in Hr as [Hr ->].
  apply bindM_returned in H as (start_rot & g1 & Hsr & H).
  apply liftM_returned in Hsr as [Hsr ->].
  apply bindM_returned in H as (curr & g1 & Hc & H).
  apply liftM_returned in Hc as [Hc ->].
  apply bindM_returned in H as (prev & g1 & Hv & H).
  apply liftM_returned in Hv as [Hv ->].
  apply bindM_returned in H as (ps' & g1 & Hp' & H).
  apply liftM_returned in Hp' as [Hp' ->].
  apply bindM_returned in H as (rs' & g1 & Hr' & H).
  apply liftM_returned in Hr' as [Hr' ->].
  rewrite Hp in Hp'. injection Hp' as <-.
  rewrite Hr in Hr'. injection Hr' as <-.
  apply bindM_returned in H as (l' & g1 & Hl & H).
  apply retM_returned in H as [_ ->].
  apply odometry_loop_spec in Hl as (new & -> & E).
  exists ps, rs, new.
  repeat split; auto.
  - intros ->. discriminate Hsp.
  - intros ->. discriminate Hsr.
  - rewrite E. simpl. unfold enumerate. now rewrite map_fst_enumerate_from.
Qed.

End Stages.

(* ------------------------------------------------------------------ *)
(** * What a completed ingestion has built *)

Section Tables.

Import GoatsParser Ingested.

Lemma getitem_length df key col :
  DataFrame.getitem df key = Returned col -> length col = length (DataFrame.rows df).
Proof.
  unfold DataFrame.getitem. intros H.
  apply bind_returned in H as (j & _ & H). injection H as <-. apply length_map.
Qed.

Lemma getitem_list_length df keys tab :
  DataFrame.getitem_list df keys = Returned tab ->
  length tab = length (DataFrame.rows df).
Proof.
  unfold DataFrame.getitem_list. intros H.
  apply bind_returned in H as (js & _ & H). injection H as <-. apply length_map.
Qed.

Lemma positions_length self ps :
  positions self = Returned ps -> length ps = length (DataFrame.rows (_data self)).
Proof.
  unfold positions. intros H. apply bind_returned in H as (cols & _ & H).
  now apply getitem_list_length in H.
Qed.

Lemma gt_positions_length self ps :
  gt_positions self = Returned ps -> length ps = length (DataFrame.rows (_data self)).
Proof.
  unfold gt_positions. intros H. apply bind_returned in H as (cols & _ & H).
  now apply getitem_list_length in H.
Qed.

Lemma rotations_returned self rs :
  rotations self = Returned rs ->
  dim self = 2%Z /\ DataFrame.getitem (_data self) "insRPY_3" = Returned rs.
Proof.
  unfold rotations.
  destruct (Z.eqb_spec (dim self) 2) as [E|E].
  - intros H. split; [ exact E | exact H ].
  - destruct (dim self =? 3)%Z; intros H; discriminate H.
Qed.

Lemma rotations_length self rs :
  rotations self = Returned rs -> length rs = length (DataFrame.rows (_data self)).
Proof.
  intros H. apply rotations_returned in H as [_ H]. now apply getitem_length in H.
Qed.

Lemma Forall2_in_r {A B : Type} (R : A -> B -> Prop) xs ys y :
  Forall2 R xs ys -> In y ys -> exists x, In x xs /\ R x y.
Proof.
  induction 1 as [|x y' xs ys Hxy _ IH]; simpl; [ contradiction | ].
  intros [->|H]; [ exists x; auto | ].
  destruct (IH H) as (x' & Hx & HR). exists x'. auto.
Qed.

Lemma Forall2_in_l {A B : Type} (R : A -> B -> Prop) xs ys x :
  Forall2 R xs ys -> In x xs -> exists y, In y ys /\ R x y.
Proof.
  induction 1 as [|x' y xs ys Hxy _ IH]; simpl; [ contradiction | ].
  intros [->|H]; [ exists y; auto | ].
  destruct (IH H) as (y' & Hy & HR). exists y'. auto.
Qed.

Lemma reading_at_bind self beacon row v :
  reading_at self beacon row v
  <-> (x <- _get_ranges self beacon ;; getitem x row) = Returned v.
Proof.
  unfold reading_at, getitem. split.
  - intros (ranges & -> & Hn). simpl. now rewrite Hn.
  - intros H. apply bind_returned in H as (ranges & Hr & H).
    exists ranges. split; [ exact Hr | ].
    destruct (nth_error ranges row); [ now injection H as -> | discriminate H ].
Qed.

Lemma reading_at_unique self beacon row v w :
  reading_at self beacon row v -> reading_at self beacon row w -> v = w.
Proof.
  intros (r1 & H1 & N1) (r2 & H2 & N2). congruence.
Qed.

(** [_row_has_range_measures] answers whether some beacon of the table has a
    reading at the row that is not NaN. *)
Lemma row_has_range_measures_spec self row b :
  _row_has_range_measures self row = Returned b ->
  (b = true <-> row_covered self row).
Proof.
  unfold _row_has_range_measures, row_covered. intros H.
  apply bind_returned in H as (data & Hd & H). injection H as <-.
  apply mapM_returned in Hd.
  unfold Np.any_non_nan. rewrite existsb_exists. split.
  - intros (v & Hv & Hn).
    destruct (Forall2_in_r _ _ _ _ Hd Hv) as (beacon & Hb & Hr).
    apply in_seq in Hb. exists beacon, v.
    split; [ lia | ]. split; [ now apply reading_at_bind | ].
    now destruct (Np.isnan v).
  - intros (beacon & v & Hb & Hr & Hn).
    assert (Hin : In beacon (seq 0 (num_beacons self))) by (apply in_seq; lia).
    destruct (Forall2_in_l _ _ _ _ Hd Hin) as (w & Hw & Hr').
    apply reading_at_bind in Hr'.
    rewrite (reading_at_unique _ _ _ _ _ Hr' Hr) in Hw.
    exists v. split; [ exact Hw | now rewrite Hn ].
Qed.

Lemma has_ranges_covered self row :
  returns (_row_has_range_measures self row) ->
  (has_ranges self row = true <-> row_covered self row).
Proof.
  intros [b Hb]. unfold has_ranges. rewrite Hb.
  now apply row_has_range_measures_spec.
Qed.

End Tables.

Section Loops.

(** Every body of a loop that ran to its end has returned. *)
Lemma for_each_all_returned {A : Type} (body : A -> M unit) xs :
  forall g u g',
  for_each xs body g = (Returned u, g') ->
  forall x, In x xs -> exists g1 g2, body x g1 = (Returned tt, g2).
Proof.
  induction xs as [|y xs IH]; intros g u g' H x Hx; [ contradiction | ].
  apply for_each_cons in H as (g1 & Hy & Hr).
  destruct Hx as [->|Hx]; [ now exists g, g1 | eapply IH; eauto ].
Qed.

End Loops.

Section Names.

Import GoatsParser Ingested.

Lemma map_filter_fst {A B C : Type} (f : A -> C) (p : A -> bool) (l : list (A * B)) :
  map (fun item => f (fst item)) (filter (fun item => p (fst item)) l)
  = map f (filter p (map fst l)).
Proof.
  induction l as [|x l IH]; simpl; [ reflexivity | ].
  destruct (p (fst x)); simpl; now rewrite IH.
Qed.

Lemma poses_built_names self poses :
  map PoseVariable2D.name (poses_built self poses)
  = map pose_name (filter (pose_row self) (seq 0 (length poses))).
Proof.
  unfold poses_built. rewrite map_map.
  change (map (fun item : nat * (list scalar * scalar) => pose_name (fst item))
              (filter (fun item => pose_row self (fst item)) (enumerate poses))
          = map pose_name (filter (pose_row self) (seq 0 (length poses)))).
  rewrite (map_filter_fst pose_name (pose_row self)).
  now rewrite map_fst_enumerate.
Qed.

Lemma landmarks_built_names self :
  map LandmarkVariable2D.name (landmarks_built self)
  = map beacon_name (filter (beacon_admitted self) (seq 0 (num_beacons self))).
Proof.
  unfold landmarks_built. rewrite map_map.
  change (map (fun item : nat * list scalar => beacon_name (fst item))
              (filter (fun item => beacon_admitted self (fst item))
                      (enumerate (_beacon_locs self)))
          = map beacon_name (filter (beacon_admitted self) (seq 0 (num_beacons self)))).
  rewrite (map_filter_fst beacon_name (beacon_admitted self)).
  now rewrite map_fst_enumerate.
Qed.

(** With at least one row, the odometry chain joins the neighbours among the
    admitted rows. *)
Lemma chain_of_admitted self n :
  n <> 0 ->
  chain "A0" (map pose_name (filter (odom_row self) (seq 0 n)))
  = consecutive (map pose_name (filter (pose_row self) (seq 0 n))).
Proof.
  destruct n as [|n]; [ congruence | intros _ ].
  change (seq 0 (S n)) with (0 :: seq 1 n). simpl filter.
  unfold odom_row at 1. unfold pose_row at 1. simpl.
  rewrite andb_false_r. simpl. f_equal. f_equal.
  apply filter_ext_in. intros i Hi. apply in_seq in Hi.
  unfold odom_row, pose_row.
  destruct (Nat.eqb_spec i 0) as [E|E]; [ lia | ]. simpl. apply andb_true_r.
Qed.

End Names.

Section Completed.

Import GoatsParser Ingested.

Lemma add_pose_variables_rows self g u g' :
  _add_pose_variables self g = (Returned u, g') ->
  forall ps rs,
    gt_positions self = Returned ps -> gt_rotations self = Returned rs ->
    forall row, row < length (combine ps rs) ->
                returns (_row_has_range_measures self row).
Proof.
  unfold _add_pose_variables. intros H ps rs Hp Hr row Hrow.
  apply bindM_returned in H as (ps' & g1 & Hp' & H).
  apply liftM_returned in Hp' as [Hp' ->].
  apply bindM_returned in H as (rs' & g1 & Hr' & H).
  apply liftM_returned in Hr' as [Hr' ->].
  rewrite Hp in Hp'. injection Hp' as <-.
  rewrite Hr in Hr'. injection Hr' as <-.
  destruct (nth_error (combine ps rs) row) as [pose|] eqn:Hn.
  2:{ apply nth_error_None in Hn. lia. }
  apply in_enumerate in Hn.
  destruct (for_each_all_returned _ _ _ _ _ H _ Hn) as (g1 & g2 & Hb).
  apply bindM_returned in Hb as (b & g3 & Hb & _).
  apply liftM_returned in Hb as [Hb _]. now exists b.
Qed.

Lemma load_returned E d b dm f self :
  load (read_csv E) (read_csv_headerless E) d b dm f = Returned self ->
  data_file_path self = d /\ beacon_loc_file_path self = b
  /\ dim self = dm /\ filter_ranges self = f
  /\ read_csv E d = Returned (_data self)
  /\ (exists table, read_csv_headerless E b = Returned table
                    /\ num_beacons self = length (DataFrame.columns table))
  /\ _check_beacon_num_consistent self = Returned tt.
Proof.
  unfold load. intros H.
  apply bind_returned in H as (data & Hd & H).
  apply bind_returned in H as (table & Ht & H).
  apply bind_returned in H as ([] & Hc & H).
  injection H as <-. simpl.
  repeat split; auto.
  exists table. split; [ exact Ht | ].
  unfold num_beacons. simpl. now rewrite length_map, length_seq.
Qed.

Lemma verify_path_returned p u :
  _verify_path_is_goats_csv p = Returned u -> path_ok p = true.
Proof.
  unfold _verify_path_is_goats_csv, path_ok.
  destruct (path_exists p), (path_is_file p),
    (String.eqb (path_suffix p) ".csv"); simpl; intros H;
    first [ reflexivity | discriminate H ].
Qed.

Lemma verify_path_ok p : path_ok p = true -> _verify_path_is_goats_csv p = Returned tt.
Proof.
  unfold path_ok, _verify_path_is_goats_csv.
  destruct (path_exists p), (path_is_file p),
    (String.eqb (path_suffix p) ".csv"); simpl; intros H;
    first [ reflexivity | discriminate H ].
Qed.

Lemma ingest_constructed E d b dm f self g :
  ingest E d b dm f = Constructed self g ->
  path_ok d = true /\ path_ok b = true
  /\ load (read_csv E) (read_csv_headerless E) d b dm f = Returned self
  /\ fill E self (FactorGraphData.init dm) = (Returned tt, g).
Proof.
  unfold ingest, init, __attrs_post_init__, fill.
  destruct (_verify_path_is_goats_csv d) as [u1|e] eqn:Hd; simpl;
    [ | intros H; discriminate H ].
  destruct (_verify_path_is_goats_csv b) as [u2|e] eqn:Hb; simpl;
    [ | intros H; discriminate H ].
  destruct (load _ _ d b dm f) as [self'|e]; [ | intros H; discriminate H ].
  destruct (_fill_factor_graph _ _ _ _ _ _ _ self' _) as [[[]|e] g1] eqn:Hf;
    intros H; [ | discriminate H ].
  injection H as -> ->.
  apply verify_path_returned in Hd, Hb. auto.
Qed.

(** The graph a completed [_fill_factor_graph] leaves, stage by stage. *)
Lemma fill_spec E self g u g' :
  fill E self g = (Returned u, g') ->
  exists gt_ps rs new,
    gt_positions self = Returned gt_ps /\ rotations self = Returned rs
    /\ length gt_ps = length (DataFrame.rows (_data self))
    /\ length rs = length (DataFrame.rows (_data self))
    /\ DataFrame.rows (_data self) <> []
    /\ (forall row, row < length (DataFrame.rows (_data self)) ->
                    returns (_row_has_range_measures self row))
    /\ g' = with_ranges
              (with_odoms
                 (with_poses (with_landmarks g (landmarks_built self))
                             (poses_built self (combine gt_ps rs)))
                 new)
              (ranges_built self)
    /\ map endpoints new
       = consecutive (map PoseVariable2D.name (poses_built self (combine gt_ps rs))).
Proof.
  unfold fill, _fill_factor_graph. intros H.
  apply bindM_returned in H as (u1 & g1 & H1 & H).
  apply bindM_returned in H as (u2 & g2 & H2 & H).
  apply bindM_returned in H as (u3 & g3 & H3 & H).
  apply add_beacon_variables_spec in H1. subst g1.
  pose proof (add_pose_variables_rows _ _ _ _ H2) as Hrows.
  apply add_pose_variables_spec in H2 as (gt_ps & rs & Hgp & Hgr & ->).
  apply add_odometry_measurements_spec in H3
    as (ps & rs' & new & Hp & Hr & Nps & Nrs & -> & Hnew).
  apply add_range_measurements_spec in H. subst g'.
  unfold gt_rotations in Hgr. rewrite Hgr in Hr. injection Hr as <-.
  pose proof (gt_positions_length _ _ Hgp) as Lg.
  pose proof (positions_length _ _ Hp) as Lp.
  pose proof (rotations_length _ _ Hgr) as Lr.
  assert (Lc : length (combine gt_ps rs) = length (DataFrame.rows (_data self))).
  { rewrite length_combine. lia. }
  assert (Lc' : length (combine ps rs) = length (DataFrame.rows (_data self))).
  { rewrite length_combine. lia. }
  assert (Nrows : DataFrame.rows (_data self) <> []).
  { intros E0. rewrite E0 in Lr. destruct rs; [ congruence | discriminate Lr ]. }
  exists gt_ps, rs, new.
  repeat split; auto.
  - intros row Hrow. apply (Hrows gt_ps rs Hgp Hgr). lia.
  - rewrite Hnew, poses_built_names, Lc, Lc'.
    apply chain_of_admitted. destruct (DataFrame.rows (_data self)); simpl; congruence.
Qed.

(** The graph of a constructed parser. *)
Lemma ingest_spec E d b dm f self g :
  ingest E d b dm f = Constructed self g ->
  dim self = dm /\ filter_ranges self = f
  /\ exists gt_ps rs,
    gt_positions self = Returned gt_ps /\ rotations self = Returned rs
    /\ length gt_ps = length (DataFrame.rows (_data self))
    /\ length rs = length (DataFrame.rows (_data self))
    /\ DataFrame.rows (_data self) <> []
    /\ (forall row, row < length (DataFrame.rows (_data self)) ->
                    returns (_row_has_range_measures self row))
    /\ FactorGraphData.landmark_variables g = landmarks_built self
    /\ FactorGraphData.pose_variables g = poses_built self (combine gt_ps rs)
    /\ odom_chain g = consecutive (pose_names g)
    /\ FactorGraphData.range_measurements g = ranges_built self.
Proof.
  intros H. apply ingest_constructed in H as (_ & _ & Hl & Hf).
  apply load_returned in Hl as (_ & _ & Hd & Hfl & _).
  split; [ exact Hd | split; [ exact Hfl | ] ].
  apply fill_spec in Hf as (gt_ps & rs & new & Hgp & Hr & Lg & Lr & Nr & Hrows & -> & Hn).
  exists gt_ps, rs. unfold odom_chain, pose_names. simpl.
  repeat split; auto.
Qed.

End Completed.

Section Membership.

Import GoatsParser Ingested.

Lemma pose_names_in E d b dm f self g :
  ingest E d b dm f = Constructed self g ->
  forall row,
    In (pose_name row) (pose_names g)
    <-> row < length (DataFrame.rows (_data self)) /\ pose_row self row = true.
Proof.
  intros H row.
  apply ingest_spec in H
    as (_ & _ & gt_ps & rs & _ & _ & Lg & Lr & _ & _ & _ & Hp & _).
  unfold pose_names. rewrite Hp, poses_built_names, length_combine, Lg, Lr, Nat.min_id.
  rewrite in_map_iff. split.
  - intros (i & Hi & Hin). apply pose_name_inj in Hi. subst i.
    apply filter_In in Hin as [Hs Hr]. apply in_seq in Hs. split; [ lia | exact Hr ].
  - intros [Hlt Hr]. exists row. split; [ reflexivity | ].
    apply filter_In. split; [ apply in_seq; lia | exact Hr ].
Qed.

Lemma pose_names_rows E d b dm f self g :
  ingest E d b dm f = Constructed self g ->
  forall name, In name (pose_names g) ->
  exists row, row < length (DataFrame.rows (_data self)) /\ name = pose_name row.
Proof.
  intros H name Hn.
  apply ingest_spec in H
    as (_ & _ & gt_ps & rs & _ & _ & Lg & Lr & _ & _ & _ & Hp & _).
  unfold pose_names in Hn.
  rewrite Hp, poses_built_names, length_combine, Lg, Lr, Nat.min_id in Hn.
  apply in_map_iff in Hn as (i & Hi & Hin).
  apply filter_In in Hin as [Hs _]. apply in_seq in Hs.
  exists i. split; [ lia | now symmetry ].
Qed.

Lemma landmark_names_in E d b dm f self g :
  ingest E d b dm f = Constructed self g ->
  forall beacon,
    In (beacon_name beacon) (landmark_names g)
    <-> beacon < num_beacons self /\ beacon_admitted self beacon = true.
Proof.
  intros H beacon.
  apply ingest_spec in H
    as (_ & _ & gt_ps & rs & _ & _ & _ & _ & _ & _ & Hl & _).
  unfold landmark_names. rewrite Hl, landmarks_built_names.
  rewrite in_map_iff. split.
  - intros (i & Hi & Hin). apply beacon_name_inj in Hi. subst i.
    apply filter_In in Hin as [Hs Hr]. apply in_seq in Hs. split; [ lia | exact Hr ].
  - intros [Hlt Hr]. exists beacon. split; [ reflexivity | ].
    apply filter_In. split; [ apply in_seq; lia | exact Hr ].
Qed.

(** The range measurements built are those of the usable readings, one per
    beacon of the table and row. *)
Lemma ranges_built_in self m :
  In m (ranges_built self)
  <-> exists beacon row v,
        beacon < num_beacons self /\ reading_at self beacon row v
        /\ usable v = true /\ m = range_of beacon (row, v).
Proof.
  unfold ranges_built. rewrite in_flat_map. split.
  - intros (beacon & Hb & Hm). apply in_seq in Hb.
    destruct (_get_ranges self beacon) as [ranges|e] eqn:Hr; [ | contradiction ].
    unfold ranges_built_for in Hm.
    apply in_map_iff in Hm as ([row v] & <- & Hin).
    apply filter_In in Hin as [Hin Hu]. apply in_enumerate in Hin.
    exists beacon, row, v. split; [ lia | ].
    split; [ now exists ranges | ]. split; [ exact Hu | reflexivity ].
  - intros (beacon & row & v & Hb & (ranges & Hr & Hn) & Hu & ->).
    exists beacon. split; [ apply in_seq; lia | ].
    rewrite Hr. unfold ranges_built_for.
    apply in_map_iff. exists (row, v). split; [ reflexivity | ].
    apply filter_In. split; [ now apply in_enumerate | exact Hu ].
Qed.

Lemma pair_list_inj {A : Type} (a b c d : A) :
  [a; b] = [c; d] -> a = c /\ b = d.
Proof. intros H. now injection H. Qed.

Lemma usable_spec v :
  usable v = true
  <-> Np.isnan v = false /\ Np.isinf v = false /\ Np.isreal v = true.
Proof.
  unfold usable.
  destruct (Np.isnan v), (Np.isinf v), (Np.isreal v); simpl; intuition congruence.
Qed.

(** 0.75 ** 2 is exact, and its reciprocal is 16/9 rounded *)
Lemma range_of_weight beacon item :
  FGRangeMeasurement.weight (range_of beacon item) = Returned (XFloat.round (16 # 9)).
Proof.
  unfold FGRangeMeasurement.weight, range_of.
  destruct item as [row v]. cbn [FGRangeMeasurement.stddev].
  vm_compute. reflexivity.
Qed.

End Membership.

(* ------------------------------------------------------------------ *)
(** * Range measurements of beacons that were not admitted *)

Section Dangling.

Import GoatsParser Ingested.

Lemma for_each_invariant {A : Type} (P : FactorGraphData.t -> Prop)
    (body : A -> M unit) xs :
  (forall x g u g', body x g = (Returned u, g') -> P g -> P g') ->
  forall g u g', for_each xs body g = (Returned u, g') -> P g -> P g'.
Proof.
  intros Hbody. induction xs as [|x xs IH]; intros g u g' H Hg.
  - apply for_each_nil in H. now subst.
  - apply for_each_cons in H as (g1 & Hx & Hr).
    eapply IH; [ exact Hr | ]. eapply Hbody; eauto.
Qed.

Lemma first_missing_none g names :
  FactorGraphData.first_missing g names = None ->
  forallb (FactorGraphData.variable_exists g) names = true.
Proof.
  unfold FactorGraphData.first_missing. intros H.
  apply forallb_forall. intros n Hn.
  pose proof (find_none _ _ H n Hn) as F. simpl in F.
  now apply negb_false_iff in F.
Qed.

Lemma add_range_measurement_validated g m g' :
  FactorGraphData.add_range_measurement true g m = Returned g' ->
  no_range_dangles g -> no_range_dangles g'.
Proof.
  intros H Hg.
  pose proof (add_range_measurement_returned true _ _ _ H) as ->.
  unfold FactorGraphData.add_range_measurement, FactorGraphData.check_references in H.
  destruct (FactorGraphData.first_missing g (FGRangeMeasurement.association m)) eqn:F;
    [ discriminate H | ].
  apply first_missing_none in F.
  intros m' Hin. simpl in Hin. apply in_app_or in Hin as [Hin|[<-|[]]].
  - apply (Hg m' Hin).
  - unfold FactorGraphData.range_dangles.
    change (negb (forallb (FactorGraphData.variable_exists g)
                    (FGRangeMeasurement.association m)) = false).
    now rewrite F.
Qed.

Lemma range_step_validated beacon stddev item g u g' :
  range_step true (beacon_name beacon) stddev item g = (Returned u, g') ->
  no_range_dangles g -> no_range_dangles g'.
Proof.
  destruct item as [pose_idx dist]. unfold range_step.
  destruct (Np.isnan dist || Np.isinf dist || negb (Np.isreal dist)); intros H Hg.
  - apply retM_returned in H as [_ ->]. exact Hg.
  - apply bindM_returned in H as (x & g1 & Hx & H).
    assert (g1 = g) as ->.
    { destruct (out_of_bounds dist); now apply retM_returned in Hx as [_ ->]. }
    apply bindM_returned in H as (m & g1 & Hm & H).
    apply liftM_returned in Hm as [_ ->].
    apply callM_returned in H. eapply add_range_measurement_validated; eauto.
Qed.

Lemma add_range_measurements_validated pow self g u g' :
  _add_range_measurements true pow self g = (Returned u, g') ->
  no_range_dangles g -> no_range_dangles g'.
Proof.
  unfold _add_range_measurements. intros H.
  apply bindM_returned in H as (inv & g1 & Hi & H).
  apply liftM_returned in Hi as [_ ->].
  revert H. apply for_each_invariant.
  intros beacon g0 u0 g1 H.
  apply bindM_returned in H as (ranges & g2 & Hr & H).
  apply liftM_returned in Hr as [_ ->].
  revert H. apply for_each_invariant.
  intros item g2 u1 g3. apply range_step_validated.
Qed.

(** With an aggregate that validates references, no range measurement of a
    completed ingestion dangles. *)
Lemma validated_ingestion_has_no_dangling E d b dm f self g :
  validate_references E = true ->
  ingest E d b dm f = Constructed self g ->
  no_range_dangles g.
Proof.
  intros V H. apply ingest_constructed in H as (_ & _ & _ & H).
  unfold fill, _fill_factor_graph in H. rewrite V in H.
  apply bindM_returned in H as (u1 & g1 & H1 & H).
  apply bindM_returned in H as (u2 & g2 & H2 & H).
  apply bindM_returned in H as (u3 & g3 & H3 & H).
  apply add_beacon_variables_spec in H1. subst g1.
  apply add_pose_variables_spec in H2 as (gt_ps & rs & _ & _ & ->).
  apply add_odometry_measurements_spec in H3 as (ps & rs' & new & _ & _ & _ & _ & -> & _).
  eapply add_range_measurements_validated; [ exact H | ].
  intros m Hin. simpl in Hin. contradiction.
Qed.

Lemma existsb_name_false {A : Type} (name_of : A -> string) (vars : list A) (n : string) :
  ~ In n (map name_of vars) ->
  existsb (fun v => String.eqb (name_of v) n) vars = false.
Proof.
  intros H. destruct (existsb _ vars) eqn:E; [ | reflexivity ].
  exfalso. apply H. apply existsb_exists in E as (v & Hv & Hn).
  apply String.eqb_eq in Hn. subst n. now apply in_map.
Qed.

(** In a completed ingestion, a usable reading of a beacon that was not
    admitted has become a Range Measurement that names no Landmark Variable
    of the graph. *)
Lemma unadmitted_beacon_measured E d b dm f self g :
  ingest E d b dm f = Constructed self g ->
  forall beacon row v,
    beacon < num_beacons self -> beacon_admitted self beacon = false ->
    reading_at self beacon row v -> usable v = true ->
    ~ In (beacon_name beacon) (landmark_names g)
    /\ In (range_of beacon (row, v)) (FactorGraphData.range_measurements g)
    /\ FactorGraphData.range_dangles g (range_of beacon (row, v)) = true.
Proof.
  intros H beacon row v Hb Ha Hr Hu.
  pose proof (landmark_names_in _ _ _ _ _ _ _ H beacon) as Hl.
  pose proof (pose_names_rows _ _ _ _ _ _ _ H) as Hp.
  apply ingest_spec in H
    as (_ & _ & gt_ps & rs & _ & _ & _ & _ & _ & _ & _ & _ & _ & Hm).
  assert (Nl : ~ In (beacon_name beacon) (landmark_names g)).
  { intros Hin. apply Hl in Hin as [_ Hin]. congruence. }
  split; [ exact Nl | split ].
  - rewrite Hm. apply ranges_built_in. exists beacon, row, v. auto.
  - unfold FactorGraphData.range_dangles, range_of. simpl.
    assert (X : FactorGraphData.variable_exists g (beacon_name beacon) = false).
    { unfold FactorGraphData.variable_exists, FactorGraphData.pose_exists,
        FactorGraphData.landmark_exists.
      rewrite (existsb_name_false PoseVariable2D.name), (existsb_name_false
        LandmarkVariable2D.name); [ reflexivity | exact Nl | ].
      intros Hin. apply Hp in Hin as (r & _ & Hin).
      symmetry in Hin. now apply pose_name_neq_beacon_name in Hin. }
    rewrite X. now rewrite andb_false_r.
Qed.

(** So with an aggregate that validates references, ingestion does not
    complete when a beacon that is not admitted has a usable reading. *)
Lemma unadmitted_beacon_aborts E d b dm f self g :
  validate_references E = true ->
  ingest E d b dm f = Constructed self g ->
  forall beacon row v,
    beacon < num_beacons self -> beacon_admitted self beacon = false ->
    reading_at self beacon row v -> usable v = true -> False.
Proof.
  intros V H beacon row v Hb Ha Hr Hu.
  destruct (unadmitted_beacon_measured _ _ _ _ _ _ _ H beacon row v Hb Ha Hr Hu)
    as (_ & Hin & Hd).
  pose proof (validated_ingestion_has_no_dangling _ _ _ _ _ _ _ V H _ Hin) as N.
  congruence.
Qed.

End Dangling.

(* ------------------------------------------------------------------ *)
(** * Ingestion completes on well-formed input *)

Section Access.

Import GoatsParser Ingested.

Lemma nth_error_lt {A : Type} (l : list A) (i : nat) (x : A) :
  nth_error l i = Some x -> i < length l.
Proof. intros H. apply nth_error_Some. congruence. Qed.

Lemma get_loc_from_returns cols key j :
  In key cols -> returns (DataFrame.get_loc_from cols key j).
Proof.
  revert j. induction cols as [|c cols IH]; intros j Hin; [ contradiction | ].
  simpl. destruct (String.eqb_spec c key) as [E|N].
  - now exists j.
  - destruct Hin as [->|Hin]; [ contradiction | now apply IH ].
Qed.

Lemma getitem_returns df key :
  In key (DataFrame.columns df) ->
  exists col, DataFrame.getitem df key = Returned col
              /\ length col = length (DataFrame.rows df).
Proof.
  intros Hin. unfold DataFrame.getitem, DataFrame.get_loc.
  destruct (get_loc_from_returns _ _ 0 Hin) as [j ->]. simpl.
  eexists. split; [ reflexivity | apply length_map ].
Qed.

Lemma mapM_returns {A B : Type} (f : A -> outcome B) (xs : list A) :
  (forall x, In x xs -> returns (f x)) -> returns (mapM f xs).
Proof.
  induction xs as [|x xs IH]; intros H; simpl.
  - now exists [].
  - destruct (H x (or_introl eq_refl)) as [y ->]. simpl.
    destruct IH as [ys ->]; [ intros; apply H; now right | ].
    simpl. now exists (y :: ys).
Qed.

Lemma getitem_list_returns df keys :
  (forall k, In k keys -> In k (DataFrame.columns df)) ->
  exists tab, DataFrame.getitem_list df keys = Returned tab
              /\ length tab = length (DataFrame.rows df)
              /\ forall r, In r tab -> length r = length keys.
Proof.
  intros Hin. unfold DataFrame.getitem_list.
  destruct (mapM_returns (DataFrame.get_loc df) keys) as [js Hjs].
  { intros k Hk. apply get_loc_from_returns. auto. }
  rewrite Hjs. simpl. eexists. split; [ reflexivity | ].
  split; [ apply length_map | ].
  intros r Hr. apply in_map_iff in Hr as (r0 & <- & _).
  rewrite length_map. apply mapM_returned in Hjs.
  symmetry. eapply Forall2_length; eauto.
Qed.

Lemma range_column_name (f : bool) (beacon : nat) :
  beacon < 4 ->
  dict_get _COLUMN_NAMES
    ((if f then "range_filtered_" else "range_beacon_") ++ str_of_nat (beacon + 1))%string
  = Returned (range_column f beacon).
Proof.
  intros H. destruct beacon as [|[|[|[|beacon]]]]; [ | | | | lia ];
    destruct f; reflexivity.
Qed.

Lemma get_ranges_returns self beacon :
  beacon < 4 ->
  In (range_column (filter_ranges self) beacon) (DataFrame.columns (_data self)) ->
  exists ranges, _get_ranges self beacon = Returned ranges
                 /\ length ranges = length (DataFrame.rows (_data self)).
Proof.
  intros Hb Hin. unfold _get_ranges, _get_filtered_range, _get_unfiltered_range.
  pose proof (range_column_name (filter_ranges self) beacon Hb) as Hn.
  destruct (filter_ranges self); rewrite Hn; simpl; now apply getitem_returns.
Qed.

End Access.

Section LoopsComplete.

Import GoatsParser Ingested.

(** A loop completes when each body, run in the state its predecessors
    leave, returns after appending its share. *)
Lemma for_each_completes {A B : Type}
    (ext : FactorGraphData.t -> list B -> FactorGraphData.t) (f : A -> list B)
    (body : A -> M unit) (g0 : FactorGraphData.t) (whole : list A) :
  (forall p x q, whole = p ++ x :: q ->
     body x (ext g0 (flat_map f p)) = (Returned tt, ext g0 (flat_map f p ++ f x))) ->
  forall xs pre, whole = pre ++ xs ->
  for_each xs body (ext g0 (flat_map f pre)) = (Returned tt, ext g0 (flat_map f whole)).
Proof.
  intros Hbody. induction xs as [|x xs IH]; intros pre Hw.
  - rewrite app_nil_r in Hw. subst. reflexivity.
  - unfold for_each. simpl. unfold bindM.
    rewrite (Hbody pre x xs Hw).
    specialize (IH (pre ++ [x])). rewrite flat_map_app in IH. simpl in IH.
    rewrite app_nil_r in IH. apply IH.
    rewrite Hw, <- app_assoc. reflexivity.
Qed.

Lemma split_enumerate_fresh {A : Type} (l : list A) p idx x q :
  enumerate l = p ++ (idx, x) :: q ->
  idx < length l /\ forall item, In item p -> fst item <> idx.
Proof.
  intros H.
  assert (Hin : In (idx, x) (enumerate l)) by (rewrite H; apply in_elt).
  apply in_enumerate in Hin.
  split; [ apply nth_error_Some; congruence | ].
  pose proof (seq_NoDup (length l) 0) as N.
  rewrite <- map_fst_enumerate, H, map_app in N. simpl in N.
  apply NoDup_remove_2 in N.
  intros item Hitem E. apply N. apply in_or_app. left.
  rewrite <- E. now apply in_map.
Qed.

Lemma existsb_name_true {A : Type} (name_of : A -> string) (vars : list A) (n : string) :
  In n (map name_of vars) ->
  existsb (fun v => String.eqb (name_of v) n) vars = true.
Proof.
  intros H. apply in_map_iff in H as (v & <- & Hv).
  apply existsb_exists. exists v. split; [ exact Hv | apply String.eqb_refl ].
Qed.

Lemma variable_exists_false g n :
  ~ In n (pose_names g) -> ~ In n (landmark_names g) ->
  FactorGraphData.variable_exists g n = false.
Proof.
  intros Hp Hl.
  unfold FactorGraphData.variable_exists, FactorGraphData.pose_exists,
    FactorGraphData.landmark_exists.
  now rewrite (existsb_name_false PoseVariable2D.name),
    (existsb_name_false LandmarkVariable2D.name).
Qed.

Lemma variable_exists_pose g n :
  In n (pose_names g) -> FactorGraphData.variable_exists g n = true.
Proof.
  intros H. unfold FactorGraphData.variable_exists, FactorGraphData.pose_exists.
  now rewrite (existsb_name_true PoseVariable2D.name).
Qed.

Lemma variable_exists_landmark g n :
  In n (landmark_names g) -> FactorGraphData.variable_exists g n = true.
Proof.
  intros H. unfold FactorGraphData.variable_exists, FactorGraphData.landmark_exists.
  rewrite (existsb_name_true LandmarkVariable2D.name) by exact H.
  apply orb_true_r.
Qed.

Lemma in_flat_map_names {A B : Type} (p : A -> bool) (mk_of : A -> B)
    (name_of : B -> string) (items : list A) n :
  In n (map name_of (flat_map (fun x => if p x then [mk_of x] else []) items)) ->
  exists x, In x items /\ n = name_of (mk_of x).
Proof.
  rewrite flat_map_filter_map, map_map. intros H.
  apply in_map_iff in H as (x & <- & Hx). apply filter_In in Hx as [Hx _].
  now exists x.
Qed.

(** ** Beacon admission *)

Lemma add_beacon_variables_completes self g0 :
  (forall beacon, beacon < num_beacons self -> returns (_get_ranges self beacon)) ->
  FactorGraphData.pose_variables g0 = [] ->
  FactorGraphData.landmark_variables g0 = [] ->
  _add_beacon_variables self g0
  = (Returned tt, with_landmarks g0 (landmarks_built self)).
Proof.
  intros Hr Hp Hl. unfold _add_beacon_variables, landmarks_built.
  rewrite <- flat_map_filter_map.
  rewrite <- (with_landmarks_nil g0) at 1.
  change (@nil LandmarkVariable2D.t)
    with (flat_map (fun x : nat * list scalar =>
                      if beacon_admitted self (fst x) then [landmark_of x] else [])
                   []).
  apply for_each_completes; [ | reflexivity ].
  intros p [idx loc] q Hw.
  apply split_enumerate_fresh in Hw as [Hlt Hfresh].
  destruct (Hr idx Hlt) as [ranges Hranges].
  unfold bindM, liftM. rewrite Hranges.
  unfold beacon_admitted. simpl fst. rewrite Hranges.
  destruct (Z.of_nat (Np.count_non_nan ranges) <? dim self)%Z; simpl.
  - unfold retM. now rewrite app_nil_r.
  - unfold callM, FactorGraphData.add_landmark_variable. simpl.
    rewrite variable_exists_false.
    + unfold with_landmarks. simpl. now rewrite app_assoc.
    + unfold pose_names. simpl. rewrite Hp. simpl. tauto.
    + unfold landmark_names. simpl. rewrite Hl. simpl. intros Hin.
      apply in_flat_map_names in Hin as (item & Hitem & Hn).
      apply beacon_name_inj in Hn. apply (Hfresh item Hitem). now symmetry.
Qed.

(** ** Pose admission *)

Lemma add_pose_variables_completes self g0 gt_ps rs :
  gt_positions self = Returned gt_ps -> rotations self = Returned rs ->
  (forall row, row < length (combine gt_ps rs) ->
               returns (_row_has_range_measures self row)) ->
  FactorGraphData.pose_variables g0 = [] ->
  (forall row, ~ In (pose_name row) (landmark_names g0)) ->
  _add_pose_variables self g0
  = (Returned tt, with_poses g0 (poses_built self (combine gt_ps rs))).
Proof.
  intros Hgp Hgr Hrows Hp Hl. unfold _add_pose_variables, poses_built.
  unfold bindM at 1. unfold liftM at 1. rewrite Hgp.
  unfold bindM at 1. unfold liftM at 1. unfold gt_rotations. rewrite Hgr.
  rewrite <- flat_map_filter_map.
  rewrite <- (with_poses_nil g0) at 1.
  change (@nil PoseVariable2D.t)
    with (flat_map (fun x : nat * (list scalar * scalar) =>
                      if Nat.eqb (fst x) 0 || has_ranges self (fst x)
                      then [pose_of x] else [])
                   []).
  apply for_each_completes; [ | reflexivity ].
  intros p [idx [position rot]] q Hw.
  apply split_enumerate_fresh in Hw as [Hlt Hfresh].
  destruct (Hrows idx Hlt) as [has Hhas].
  unfold bindM, liftM. rewrite Hhas.
  unfold has_ranges. simpl fst. rewrite Hhas.
  destruct has, (Nat.eqb idx 0); simpl.
  4:{ unfold retM. now rewrite app_nil_r. }
  all: unfold callM, FactorGraphData.add_pose_variable; simpl;
    rewrite variable_exists_false;
    [ unfold with_poses; simpl; now rewrite app_assoc
    | unfold pose_names; simpl; rewrite Hp; simpl; intros Hin;
      apply in_flat_map_names in Hin as (item & Hitem & Hn);
      apply pose_name_inj in Hn; apply (Hfresh item Hitem); now symmetry
    | apply Hl ].
Qed.

(** ** Odometry and range derivation *)

Lemma check_references_ok validate g names :
  (validate = true -> forallb (FactorGraphData.variable_exists g) names = true) ->
  FactorGraphData.check_references validate g names = Returned tt.
Proof.
  unfold FactorGraphData.check_references, FactorGraphData.first_missing.
  destruct validate; [ | reflexivity ]. intros H. specialize (H eq_refl).
  induction names as [|n names IH]; simpl in *; [ reflexivity | ].
  apply andb_true_iff in H as [Hn Hr]. rewrite Hn. simpl. now apply IH.
Qed.

Lemma transformation_returns E self rot trans :
  dim self = 2%Z -> Np.isreal rot = true -> length trans = 2 ->
  _get_transformation_matrix (matrix E) (make_transformation_matrix_from_theta E)
    self rot trans
  = Returned (make_transformation_matrix_from_theta E rot trans).
Proof.
  intros Hd Hr Hl. unfold _get_transformation_matrix.
  now rewrite Hd, Hr, Hl.
Qed.

Lemma bindM_lift {A B : Type} (a : A) (k : A -> M B) g :
  bindM (liftM (Returned a)) k g = k a g.
Proof. reflexivity. Qed.

Lemma for_in_unfold {A L : Type} (x : A) xs (body : L -> A -> M L) l g :
  for_in (x :: xs) body l g
  = match body l x g with
    | (Returned l1, g1) => for_in xs body l1 g1
    | (Raised e, g1) => (Raised e, g1)
    end.
Proof. reflexivity. Qed.

Lemma odometry_step_completes E self g0 l acc idx pos rot :
  dim self = 2%Z ->
  (forall prev curr,
     length (snd (get_relative_rot_and_trans_between_poses E prev curr)) = 2) ->
  returns (_row_has_range_measures self idx) ->
  Np.isreal rot = true -> length pos = 2 ->
  (has_ranges self idx = true ->
   FactorGraphData.variable_exists g0 (pose_name idx) = true) ->
  FactorGraphData.variable_exists g0 (base_pose_name (matrix E) l) = true ->
  exists l' new,
    odometry_step (validate_references E) (matrix E)
      (make_transformation_matrix_from_theta E)
      (get_relative_rot_and_trans_between_poses E)
      (get_theta_from_rotation_matrix E)
      (get_measurement_precisions_from_covariances E) self
      l (idx, (pos, rot)) (with_odoms g0 acc)
    = (Returned l', with_odoms g0 (acc ++ new))
    /\ FactorGraphData.variable_exists g0 (base_pose_name (matrix E) l') = true.
Proof.
  intros Hd Hk [has Hhas] Hreal Hlen Hex Hbase.
  unfold has_ranges in Hex. rewrite Hhas in Hex.
  unfold odometry_step.
  unfold bindM at 1. unfold liftM at 1. rewrite Hhas.
  destruct has; simpl.
  2:{ exists l, []. unfold retM. now rewrite app_nil_r. }
  unfold bindM at 1. unfold liftM at 1.
  rewrite (transformation_returns E self rot pos Hd Hreal Hlen).
  destruct (Nat.eqb idx 0); simpl.
  { eexists. exists []. unfold retM. rewrite app_nil_r. split; [ reflexivity | exact Hbase ]. }
  pose proof (Hk (prev_pose (matrix E) l)
                 (make_transformation_matrix_from_theta E rot pos)) as Hk2.
  destruct (get_relative_rot_and_trans_between_poses E _ _)
    as [relative_rot relative_trans].
  simpl in Hk2. apply length_two in Hk2 as (x & y & ->).
  unfold bindM at 1. unfold liftM at 1.
  destruct trans_cov_returns as [trans_cov Htc].
  destruct rot_cov_returns as [rot_cov Hrc].
  unfold bindM at 1. unfold liftM at 1. rewrite Htc.
  unfold bindM at 1. unfold liftM at 1. rewrite Hrc.
  destruct (get_measurement_precisions_from_covariances E _ _) as [tp rp].
  unfold bindM at 1. unfold liftM at 1. unfold PoseMeasurement2D.init.
  unfold bindM at 1. unfold callM, FactorGraphData.add_odom_measurement.
  rewrite check_references_ok.
  2:{ intros _. simpl.
      change (FactorGraphData.variable_exists g0 (base_pose_name (matrix E) l)
              && (FactorGraphData.variable_exists g0 (pose_name idx) && true)
              = true).
      now rewrite Hbase, (Hex eq_refl). }
  simpl. unfold retM. eexists. eexists. split.
  - unfold with_odoms. simpl. rewrite <- app_assoc. reflexivity.
  - simpl. exact (Hex eq_refl).
Qed.

Lemma odometry_loop_completes E self g0 :
  dim self = 2%Z ->
  (forall prev curr,
     length (snd (get_relative_rot_and_trans_between_poses E prev curr)) = 2) ->
  forall items,
  (forall idx pos rot, In (idx, (pos, rot)) items ->
     returns (_row_has_range_measures self idx)
     /\ Np.isreal rot = true /\ length pos = 2
     /\ (has_ranges self idx = true ->
         FactorGraphData.variable_exists g0 (pose_name idx) = true)) ->
  forall l acc,
  FactorGraphData.variable_exists g0 (base_pose_name (matrix E) l) = true ->
  exists l' new,
    for_in items
      (odometry_step (validate_references E) (matrix E)
         (make_transformation_matrix_from_theta E)
         (get_relative_rot_and_trans_between_poses E)
         (get_theta_from_rotation_matrix E)
         (get_measurement_precisions_from_covariances E) self)
      l (with_odoms g0 acc)
    = (Returned l', with_odoms g0 (acc ++ new)).
Proof.
  intros Hd Hk. induction items as [|[idx [pos rot]] items IH]; intros Hitems l acc Hbase.
  - exists l, []. simpl. unfold retM. now rewrite app_nil_r.
  - destruct (Hitems idx pos rot (or_introl eq_refl)) as (Hret & Hreal & Hlen & Hex).
    destruct (odometry_step_completes E self g0 l acc idx pos rot
                Hd Hk Hret Hreal Hlen Hex Hbase) as (l1 & new1 & Hstep & Hbase1).
    rewrite for_in_unfold, Hstep.
    destruct (IH (fun i p r Hin => Hitems i p r (or_intror Hin)) l1 (acc ++ new1) Hbase1)
      as (l' & new & Hloop).
    exists l', (new1 ++ new). rewrite Hloop. now rewrite app_assoc.
Qed.

Lemma range_loop_completes validate g0 beacon ranges :
  (validate = true ->
   forall idx dist, nth_error ranges idx = Some dist -> usable dist = true ->
     FactorGraphData.variable_exists g0 (pose_name idx) = true
     /\ FactorGraphData.variable_exists g0 (beacon_name beacon) = true) ->
  forall acc,
  for_each (enumerate ranges) (range_step validate (beacon_name beacon) (Fin (3 # 4)))
    (with_ranges g0 acc)
  = (Returned tt, with_ranges g0 (acc ++ ranges_built_for beacon ranges)).
Proof.
  intros Hex acc. unfold ranges_built_for.
  rewrite <- flat_map_filter_map, <- with_ranges_app.
  rewrite <- (with_ranges_nil (with_ranges g0 acc)) at 1.
  change (@nil FGRangeMeasurement.t)
    with (flat_map (fun x : nat * scalar =>
                      if usable (snd x) then [range_of beacon x] else [])
                   []).
  apply for_each_completes; [ | reflexivity ].
  intros p [idx dist] q Hw.
  assert (Hin : In (idx, dist) (enumerate ranges)) by (rewrite Hw; apply in_elt).
  apply in_enumerate in Hin.
  unfold range_step, usable. simpl snd.
  destruct (Np.isnan dist || Np.isinf dist || negb (Np.isreal dist)) eqn:Hu; simpl.
  - unfold retM. now rewrite app_nil_r.
  - unfold bindM at 1.
    assert (Hob : (if out_of_bounds dist then retM tt else retM tt)
                  = (retM tt : M unit)) by now destruct (out_of_bounds dist).
    rewrite Hob. unfold retM at 1.
    unfold bindM at 1. unfold liftM at 1. rewrite range_init_pipeline.
    unfold callM, FactorGraphData.add_range_measurement.
    rewrite check_references_ok.
    + simpl. unfold with_ranges. simpl. now rewrite !app_assoc.
    + intros V. simpl.
      destruct (Hex V idx dist Hin) as [Hp Hb]; [ unfold usable; now rewrite Hu | ].
      change (FactorGraphData.variable_exists g0 (pose_name idx)
              && (FactorGraphData.variable_exists g0 (beacon_name beacon) && true)
              = true).
      now rewrite Hp, Hb.
Qed.

Lemma add_range_measurements_completes E self g0 :
  (forall beacon, beacon < num_beacons self -> returns (_get_ranges self beacon)) ->
  (validate_references E = true ->
   forall beacon idx dist,
     beacon < num_beacons self -> reading_at self beacon idx dist ->
     usable dist = true ->
     FactorGraphData.variable_exists g0 (pose_name idx) = true
     /\ FactorGraphData.variable_exists g0 (beacon_name beacon) = true) ->
  _add_range_measurements (validate_references E) (float_pow E) self g0
  = (Returned tt, with_ranges g0 (ranges_built self)).
Proof.
  intros Hr Hex. unfold _add_range_measurements, ranges_built.
  unfold bindM at 1. unfold liftM at 1. simpl XFloat.recip. cbv iota.
  rewrite <- (with_ranges_nil g0) at 1.
  change (@nil FGRangeMeasurement.t)
    with (flat_map (fun beacon =>
                      match _get_ranges self beacon with
                      | Returned ranges => ranges_built_for beacon ranges
                      | Raised _ => []
                      end) []).
  apply for_each_completes; [ | reflexivity ].
  intros p beacon q Hw.
  assert (Hin : In beacon (seq 0 (num_beacons self))) by (rewrite Hw; apply in_elt).
  apply in_seq in Hin.
  destruct (Hr beacon) as [ranges Hranges]; [ lia | ].
  unfold bindM at 1. unfold liftM at 1. rewrite Hranges.
  apply range_loop_completes.
  intros V idx dist Hn Hu. apply (Hex V beacon idx dist); [ lia | | exact Hu ].
  now exists ranges.
Qed.

End LoopsComplete.

Section WellFormed.

Import GoatsParser Ingested.

Variable E : Externals.
Variables d b : Path.
Variable f : bool.
Variables data table : DataFrame.t.

Hypothesis Hwf : well_formed E d b f data table.
Hypothesis Href : references_resolve E (loaded d b 2 f data table).

Let self : GoatsParser.t := loaded d b 2 f data table.
Let n : nat := length (DataFrame.rows data).

Lemma wf_load :
  load (read_csv E) (read_csv_headerless E) d b 2 f = Returned self.
Proof.
  destruct Hwf as (_ & _ & Hd & Ht & Hr & Hf & _).
  unfold load. rewrite Hd, Ht. simpl.
  unfold _check_beacon_num_consistent. simpl.
  rewrite length_map, length_seq, Hr, Hf, Nat.eqb_refl. reflexivity.
Qed.

Lemma wf_num_beacons : num_beacons self = length (DataFrame.columns table).
Proof. unfold num_beacons, self, loaded. simpl. now rewrite length_map, length_seq. Qed.

Lemma wf_rows : n <> 0.
Proof.
  destruct Hwf as (_ & _ & _ & _ & _ & _ & _ & _ & Hrows & _).
  unfold n. destruct (DataFrame.rows data); simpl; congruence.
Qed.

Lemma wf_column c :
  In c (required_columns f (length (DataFrame.columns table))) ->
  In c (DataFrame.columns data).
Proof. destruct Hwf as (_ & _ & _ & _ & _ & _ & _ & Hc & _). apply Hc. Qed.

Lemma wf_get_ranges beacon :
  beacon < num_beacons self ->
  exists ranges, _get_ranges self beacon = Returned ranges /\ length ranges = n.
Proof.
  intros Hb. rewrite wf_num_beacons in Hb.
  destruct Hwf as (_ & _ & _ & _ & _ & _ & H4 & _).
  apply get_ranges_returns; [ lia | ].
  apply wf_column. unfold required_columns. apply in_or_app. right.
  apply in_map. apply in_seq. lia.
Qed.

Lemma wf_row_has_range_measures row :
  row < n -> returns (_row_has_range_measures self row).
Proof.
  intros Hrow. unfold _row_has_range_measures.
  destruct (mapM_returns (fun idx => x <- _get_ranges self idx ;; getitem x row)
              (seq 0 (num_beacons self))) as [ys Hys].
  - intros beacon Hb. apply in_seq in Hb.
    destruct (wf_get_ranges beacon) as (ranges & Hr & Hl); [ lia | ].
    rewrite Hr. simpl. unfold getitem.
    destruct (nth_error ranges row) eqn:Hn; [ eexists; reflexivity | ].
    apply nth_error_None in Hn. lia.
  - rewrite Hys. simpl. eexists. reflexivity.
Qed.

Lemma wf_gt_positions :
  exists gt_ps, gt_positions self = Returned gt_ps /\ length gt_ps = n.
Proof.
  unfold gt_positions. simpl.
  destruct (getitem_list_returns data ["iNav_GT_1"; "iNav_GT_2"]) as (tab & Ht & Hl & _).
  - intros k Hk. apply wf_column. unfold required_columns. apply in_or_app. left.
    simpl in *. tauto.
  - exists tab. split; [ exact Ht | exact Hl ].
Qed.

Lemma wf_positions :
  exists ps, positions self = Returned ps /\ length ps = n
             /\ forall p, In p ps -> length p = 2.
Proof.
  unfold positions. simpl.
  destruct (getitem_list_returns data ["insXYZ_1"; "insXYZ_2"]) as (tab & Ht & Hl & Hw).
  - intros k Hk. apply wf_column. unfold required_columns. apply in_or_app. left.
    simpl in *. tauto.
  - exists tab. split; [ exact Ht | split; [ exact Hl | exact Hw ] ].
Qed.

Lemma wf_rotations :
  exists rs, rotations self = Returned rs /\ length rs = n
             /\ forall r, In r rs -> Np.isreal r = true.
Proof.
  unfold rotations. simpl.
  destruct (getitem_returns data "insRPY_3") as (col & Hc & Hl).
  - apply wf_column. unfold required_columns. apply in_or_app. left. simpl. tauto.
  - exists col. split; [ exact Hc | split; [ exact Hl | ] ].
    destruct Hwf as (_ & _ & _ & _ & _ & _ & _ & _ & _ & Hy & _).
    intros r Hr. eapply Hy; eauto.
Qed.

Lemma wf_dim : dim self = 2%Z.
Proof. reflexivity. Qed.

Lemma wf_beacons_complete :
  _add_beacon_variables self (FactorGraphData.init 2)
  = (Returned tt, with_landmarks (FactorGraphData.init 2) (landmarks_built self)).
Proof.
  apply add_beacon_variables_completes; [ | reflexivity | reflexivity ].
  intros beacon Hb. destruct (wf_get_ranges beacon Hb) as (ranges & Hr & _).
  now exists ranges.
Qed.

Lemma wf_poses_complete gt_ps rs g1 :
  gt_positions self = Returned gt_ps -> length gt_ps = n ->
  rotations self = Returned rs -> length rs = n ->
  g1 = with_landmarks (FactorGraphData.init 2) (landmarks_built self) ->
  _add_pose_variables self g1
  = (Returned tt, with_poses g1 (poses_built self (combine gt_ps rs))).
Proof.
  intros Hgp Lg Hr Lr ->.
  apply add_pose_variables_completes; auto.
  - intros row Hrow. apply wf_row_has_range_measures.
    rewrite length_combine in Hrow. lia.
  - intros row Hin. unfold landmark_names in Hin. simpl in Hin.
    rewrite landmarks_built_names in Hin.
    apply in_map_iff in Hin as (beacon & Hn & _).
    symmetry in Hn. now apply pose_name_neq_beacon_name in Hn.
Qed.

(** the pose of a row with a reading is a variable of the graph once the
    poses are added *)
Lemma wf_pose_exists gt_ps rs g row :
  length gt_ps = n -> length rs = n ->
  pose_names g = map PoseVariable2D.name (poses_built self (combine gt_ps rs)) ->
  row < n -> pose_row self row = true ->
  FactorGraphData.variable_exists g (pose_name row) = true.
Proof.
  intros Lg Lr Hg Hrow Hp. apply variable_exists_pose.
  rewrite Hg, poses_built_names, length_combine, Lg, Lr, Nat.min_id.
  apply in_map. apply filter_In. split; [ apply in_seq; lia | exact Hp ].
Qed.

Lemma wf_odometry_complete gt_ps rs g2 :
  length gt_ps = n -> rotations self = Returned rs -> length rs = n ->
  (forall r, In r rs -> Np.isreal r = true) ->
  pose_names g2 = map PoseVariable2D.name (poses_built self (combine gt_ps rs)) ->
  exists new,
    _add_odometry_measurements (validate_references E) (matrix E)
      (make_transformation_matrix_from_theta E)
      (get_relative_rot_and_trans_between_poses E)
      (get_theta_from_rotation_matrix E)
      (get_measurement_precisions_from_covariances E) self g2
    = (Returned tt, with_odoms g2 new).
Proof.
  intros Lg Hr Lr Hreal Hg.
  destruct wf_positions as (ps & Hp & Lp & Hw).
  pose proof wf_rows as Hn.
  destruct ps as [|p0 ps']; [ simpl in Lp; lia | ].
  destruct rs as [|r0 rs']; [ simpl in Lr; lia | ].
  assert (Hk : forall prev curr,
             length (snd (get_relative_rot_and_trans_between_poses E prev curr)) = 2).
  { destruct Hwf as (_ & _ & _ & _ & _ & _ & _ & _ & _ & _ & Hk). exact Hk. }
  pose proof (transformation_returns E self r0 p0 wf_dim
                (Hreal r0 (or_introl eq_refl)) (Hw p0 (or_introl eq_refl))) as HT.
  unfold _add_odometry_measurements.
  rewrite Hp, Hr.
  rewrite bindM_lift.
  change (getitem (p0 :: ps') 0) with (Returned p0). rewrite bindM_lift.
  rewrite bindM_lift.
  change (getitem (r0 :: rs') 0) with (Returned r0). rewrite bindM_lift.
  rewrite HT, bindM_lift. rewrite bindM_lift.
  rewrite bindM_lift. rewrite bindM_lift.
  destruct (odometry_loop_completes E self g2 wf_dim Hk
              (enumerate (combine (p0 :: ps') (r0 :: rs'))))
    with (l := mk_locals (matrix E)
                 (make_transformation_matrix_from_theta E r0 p0)
                 (make_transformation_matrix_from_theta E r0 p0) "A0")
         (acc := @nil (nat * PoseMeasurement2D.t))
    as (l' & new & Hloop).
  - intros idx pos rot Hin. apply in_enumerate in Hin.
    assert (Hidx : idx < n).
    { apply nth_error_lt in Hin. rewrite length_combine in Hin. lia. }
    apply nth_error_In in Hin.
    split; [ now apply wf_row_has_range_measures | ].
    split; [ apply Hreal; eapply in_combine_r; eauto | ].
    split; [ apply Hw; eapply in_combine_l; eauto | ].
    intros Hhas. apply (wf_pose_exists gt_ps (r0 :: rs')); auto.
    unfold pose_row. rewrite Hhas. apply orb_true_r.
  - apply (wf_pose_exists gt_ps (r0 :: rs') g2 0); auto; lia.
  - rewrite with_odoms_nil in Hloop.
    exists new. unfold bindM at 1. rewrite Hloop. reflexivity.
Qed.

(** On well-formed input whose references resolve, construction of the
    parser completes. *)
Theorem ingestion_completes :
  exists g, ingest E d b 2 f = Constructed self g.
Proof.
  destruct wf_gt_positions as (gt_ps & Hgp & Lg).
  destruct wf_rotations as (rs & Hr & Lr & Hreal).
  set (g1 := with_landmarks (FactorGraphData.init 2) (landmarks_built self)).
  set (g2 := with_poses g1 (poses_built self (combine gt_ps rs))).
  destruct (wf_odometry_complete gt_ps rs g2 Lg Hr Lr Hreal eq_refl) as (new & Hodo).
  set (g3 := with_odoms g2 new).
  exists (with_ranges g3 (ranges_built self)).
  assert (Hfill : fill E self (FactorGraphData.init 2)
                  = (Returned tt, with_ranges g3 (ranges_built self))).
  { unfold fill, _fill_factor_graph.
    unfold bindM at 1. rewrite wf_beacons_complete. fold g1.
    unfold bindM at 1.
    rewrite (wf_poses_complete gt_ps rs g1 Hgp Lg Hr Lr eq_refl). fold g2.
    unfold bindM at 1. rewrite Hodo. fold g3.
    apply add_range_measurements_completes.
    - intros beacon Hb. destruct (wf_get_ranges beacon Hb) as (ranges & Hg & _).
      now exists ranges.
    - intros V beacon idx dist Hb Hrd Hu.
      destruct Href as [Hv|Hadm]; [ congruence | ].
      split.
      + apply (wf_pose_exists gt_ps rs g3); auto.
        * destruct Hrd as (ranges & Hg & Hn).
          destruct (wf_get_ranges beacon Hb) as (ranges' & Hg' & Hl).
          rewrite Hg in Hg'. injection Hg' as <-.
          apply nth_error_lt in Hn. lia.
        * unfold pose_row. apply orb_true_iff. right.
          assert (Hidx : idx < n).
          { destruct Hrd as (ranges & Hg & Hn).
            destruct (wf_get_ranges beacon Hb) as (ranges' & Hg' & Hl).
            rewrite Hg in Hg'. injection Hg' as <-.
            apply nth_error_lt in Hn. lia. }
          apply has_ranges_covered; [ now apply wf_row_has_range_measures | ].
          exists beacon, dist. split; [ exact Hb | ]. split; [ exact Hrd | ].
          now apply usable_spec in Hu.
      + apply variable_exists_landmark.
        unfold landmark_names. simpl. rewrite landmarks_built_names.
        apply in_map. apply filter_In. split; [ apply in_seq; lia | ].
        apply (Hadm beacon idx dist); auto. }
  destruct Hwf as (Hd & Hb & _).
  unfold ingest, init, __attrs_post_init__.
  rewrite (verify_path_ok d Hd), (verify_path_ok b Hb). simpl.
  rewrite wf_load. unfold fill in Hfill. rewrite Hfill. reflexivity.
Qed.

End WellFormed.

(** The five-row sample is well-formed and its references resolve, so its
    ingestion completes. *)
Lemma sample_ingestion_completes :
  exists g,
    ingest (Sample.externals true Sample.silent_row Sample.two_beacons)
           Sample.data_path Sample.beacon_path 2 true
    = GoatsParser.Constructed
        (loaded Sample.data_path Sample.beacon_path 2 true
           Sample.silent_row Sample.two_beacons) g.
Proof.
  apply ingestion_completes.
  - unfold well_formed. simpl.
    repeat split; try reflexivity; try lia.
    + intros c Hc. vm_compute in Hc. vm_compute. tauto.
    + discriminate.
    + intros yaw v Hy Hv. vm_compute in Hy. injection Hy as <-.
      simpl in Hv. intuition (subst; reflexivity).
  - right. intros beacon row v Hb _ _.
    destruct beacon as [|[|beacon]]; [ reflexivity | reflexivity | ].
    vm_compute in Hb. lia.
Qed.

(* ------------------------------------------------------------------ *)
(** * Properties of the ingestion pipeline *)

Section PoseAdmission.

Import GoatsParser Ingested.

(** C3, as the code has it.  In every completed ingestion the table has a
    row 0 and row 0 is a Pose Variable; any other row of the table is a Pose
    Variable exactly when some beacon of the beacon table, admitted as a
    Landmark Variable or not, has a reading at that row that is not NaN;
    and every Pose Variable is named after a row of the table. *)
Theorem pose_admission E d b dm f self g :
  ingest E d b dm f = Constructed self g ->
  In (pose_name 0) (pose_names g)
  /\ (forall row, row < length (DataFrame.rows (_data self)) -> row <> 0 ->
        (In (pose_name row) (pose_names g) <-> row_covered self row))
  /\ (forall name, In name (pose_names g) ->
        exists row, row < length (DataFrame.rows (_data self))
                    /\ name = pose_name row).
Proof.
  intros H.
  pose proof (pose_names_in _ _ _ _ _ _ _ H) as Hin.
  pose proof (pose_names_rows _ _ _ _ _ _ _ H) as Hrows.
  apply ingest_spec in H
    as (_ & _ & gt_ps & rs & _ & _ & _ & _ & Nr & Hret & _).
  split; [ | split; [ | exact Hrows ] ].
  - apply Hin. split; [ | reflexivity ].
    destruct (DataFrame.rows (_data self)); [ congruence | simpl; lia ].
  - intros row Hlt Hnz. rewrite Hin.
    rewrite <- (has_ranges_covered self row (Hret row Hlt)).
    unfold pose_row. destruct (Nat.eqb_spec row 0) as [E0|_]; [ contradiction | ].
    simpl. tauto.
Qed.

End PoseAdmission.

Lemma pose_admission_witness :
  exists self g,
    ingest (Sample.externals true Sample.silent_row Sample.two_beacons)
           Sample.data_path Sample.beacon_path 2 true
      = GoatsParser.Constructed self g
    /\ In "A0" (Ingested.pose_names g)
    /\ (In "A3" (Ingested.pose_names g) <-> Ingested.row_covered self 3)
    /\ (In "A2" (Ingested.pose_names g) <-> Ingested.row_covered self 2).
Proof.
  destruct (ingest (Sample.externals true Sample.silent_row Sample.two_beacons)
              Sample.data_path Sample.beacon_path 2 true) as [self g|e p] eqn:H.
  - exists self, g. split; [ reflexivity | ].
    destruct (pose_admission _ _ _ _ _ _ _ H) as (H0 & Hrow & _).
    assert (L : length (DataFrame.rows (GoatsParser._data self)) = 5).
    { vm_compute in H. injection H as <- _. reflexivity. }
    split; [ exact H0 | ].
    split; [ refine (Hrow 3 _ _) | refine (Hrow 2 _ _) ]; rewrite ?L; lia.
  - vm_compute in H. discriminate H.
Defined.

Section PoseAdmissionCounterexample.

Import GoatsParser Ingested.

(** C3 as claimed fails.  In these runs the second beacon has one reading
    that is not NaN, which is fewer than [dim = 2], so it is not admitted;
    that reading is at row 1, where the first beacon has none.  Row 1 is
    admitted as a Pose Variable although no admitted beacon has a reading
    there.  When the reading is infinite the run completes whether the
    aggregate validates references or not; when it is the finite 8.0 the run
    completes with an aggregate that does not validate them. *)
Lemma pose_admitted_without_admitted_beacon :
  (exists self g,
      ingest (Sample.externals true Sample.lone_reading Sample.two_beacons)
             Sample.data_path Sample.beacon_path 2 false
        = Constructed self g
      /\ In "A1" (pose_names g)
      /\ landmark_names g = ["L0"]
      /\ ~ row_covered_by_admitted self 1)
  /\ (exists self g,
      ingest (Sample.externals false Sample.lone_reading Sample.two_beacons)
             Sample.data_path Sample.beacon_path 2 false
        = Constructed self g
      /\ In "A1" (pose_names g)
      /\ landmark_names g = ["L0"]
      /\ ~ row_covered_by_admitted self 1)
  /\ (exists self g,
      ingest (Sample.externals false Sample.lone_finite_reading Sample.two_beacons)
             Sample.data_path Sample.beacon_path 2 false
        = Constructed self g
      /\ In "A1" (pose_names g)
      /\ landmark_names g = ["L0"]
      /\ ~ row_covered_by_admitted self 1).
Proof.
  split; [ | split ].
  all: eexists; eexists; split; [ vm_compute; reflexivity | ].
  all: split; [ vm_compute; tauto | ].
  all: split; [ reflexivity | ].
  all: intros (beacon & v & Hb & Ha & (ranges & Hr & Hn) & Hnan).
  all: destruct beacon as [|[|beacon]];
       [ vm_compute in Hr; injection Hr as <-; simpl in Hn;
         injection Hn as <-; discriminate Hnan
       | vm_compute in Ha; discriminate Ha
       | vm_compute in Hb; lia ].
Qed.

End PoseAdmissionCounterexample.

Section OdometryChain.

Import GoatsParser Ingested.

(** C5.  In every completed ingestion the odometry factors, in order, join
    each admitted pose to the next admitted pose: the list of their
    (base_pose, to_pose) pairs is the list of neighbours in the list of Pose
    Variables.  With five rows of which exactly row 2 has no reading that is
    not NaN, the Pose Variables are A0, A1, A3, A4 and the odometry factors
    are (A0, A1), (A1, A3), (A3, A4). *)
Theorem odometry_chain E d b dm f self g :
  ingest E d b dm f = Constructed self g ->
  odom_chain g = consecutive (pose_names g)
  /\ (length (DataFrame.rows (_data self)) = 5 ->
      ~ row_covered self 2 ->
      (forall row, row < 5 -> row <> 2 -> row_covered self row) ->
      pose_names g = ["A0"; "A1"; "A3"; "A4"]
      /\ odom_chain g = [("A0", "A1"); ("A1", "A3"); ("A3", "A4")]).
Proof.
  intros H.
  apply ingest_spec in H
    as (_ & _ & gt_ps & rs & _ & _ & Lg & Lr & _ & Hret & _ & Hp & Ho & _).
  split; [ exact Ho | ].
  intros L N2 Hcov.
  assert (Hn : pose_names g = ["A0"; "A1"; "A3"; "A4"]).
  { unfold pose_names. rewrite Hp, poses_built_names, length_combine, Lg, Lr, L.
    assert (C : forall row, row < 5 -> row <> 2 -> has_ranges self row = true).
    { intros row Hlt Hne. apply has_ranges_covered; [ apply Hret; lia | auto ]. }
    assert (C2 : has_ranges self 2 = false).
    { destruct (has_ranges self 2) eqn:E2; [ | reflexivity ].
      exfalso. apply N2. apply has_ranges_covered; [ apply Hret; lia | exact E2 ]. }
    simpl. unfold pose_row. simpl.
    rewrite (C 1), C2, (C 3), (C 4) by lia. reflexivity. }
  split; [ exact Hn | ]. rewrite Ho, Hn. reflexivity.
Qed.

End OdometryChain.

Lemma odometry_chain_witness :
  exists self g,
    ingest (Sample.externals true Sample.silent_row Sample.two_beacons)
           Sample.data_path Sample.beacon_path 2 true
      = GoatsParser.Constructed self g
    /\ Ingested.pose_names g = ["A0"; "A1"; "A3"; "A4"]
    /\ Ingested.odom_chain g = [("A0", "A1"); ("A1", "A3"); ("A3", "A4")].
Proof.
  destruct (ingest (Sample.externals true Sample.silent_row Sample.two_beacons)
              Sample.data_path Sample.beacon_path 2 true) as [self g|e p] eqn:H.
  - exists self, g. split; [ reflexivity | ].
    destruct (odometry_chain _ _ _ _ _ _ _ H) as [_ Hs].
    assert (S : self = GoatsParser.mk Sample.data_path Sample.beacon_path 2 true
                         Sample.silent_row
                         [[fl 10; fl 20]; [fl 30; fl 40]]).
    { vm_compute in H. injection H as <- _. reflexivity. }
    apply Hs.
    + rewrite S. reflexivity.
    + rewrite S. intros (beacon & v & Hb & (ranges & Hr & Hn) & Hnan).
      destruct beacon as [|[|beacon]];
        [ | | vm_compute in Hb; lia ];
        vm_compute in Hr; injection Hr as <-; simpl in Hn;
        injection Hn as <-; discriminate Hnan.
    + rewrite S. intros row Hlt Hne.
      destruct row as [|[|[|[|[|row]]]]]; try lia.
      * exists 0, (fl 5). split; [ vm_compute; lia | ].
        split; [ eexists; split; [ vm_compute; reflexivity | reflexivity ] | reflexivity ].
      * exists 1, (fl 9). split; [ vm_compute; lia | ].
        split; [ eexists; split; [ vm_compute; reflexivity | reflexivity ] | reflexivity ].
      * exists 0, (fl 1). split; [ vm_compute; lia | ].
        split; [ eexists; split; [ vm_compute; reflexivity | reflexivity ] | reflexivity ].
      * exists 1, Sample.inf. split; [ vm_compute; lia | ].
        split; [ eexists; split; [ vm_compute; reflexivity | reflexivity ] | reflexivity ].
  - vm_compute in H. discriminate H.
Defined.

Section RangeDerivation.

Import GoatsParser Ingested.

(** C7.  In every completed ingestion, for every beacon of the table and
    every row: a reading that is NaN, infinite or not real is the distance of
    no Range Measurement between that row's pose and that beacon, while a
    reading that is none of these is emitted as a Range Measurement whatever
    its value, inside or outside the bounds 2.0 and 150.0.  The values 1.0
    and 200.0 are outside the bounds and are emitted. *)
Theorem range_filtering E d b dm f self g :
  ingest E d b dm f = Constructed self g ->
  forall beacon row v,
    beacon < num_beacons self -> reading_at self beacon row v ->
    (Np.isnan v = true \/ Np.isinf v = true \/ Np.isreal v = false ->
       forall m, In m (FactorGraphData.range_measurements g) ->
                 FGRangeMeasurement.association m
                   <> [pose_name row; beacon_name beacon])
    /\ (Np.isnan v = false -> Np.isinf v = false -> Np.isreal v = true ->
        In (FGRangeMeasurement.mk [pose_name row; beacon_name beacon] v (Fin (3 # 4)))
           (FactorGraphData.range_measurements g))
    /\ (v = fl 1 \/ v = fl 200 ->
        out_of_bounds v = true
        /\ In (FGRangeMeasurement.mk [pose_name row; beacon_name beacon] v (Fin (3 # 4)))
              (FactorGraphData.range_measurements g)).
Proof.
  intros H beacon row v Hb Hr.
  apply ingest_spec in H
    as (_ & _ & gt_ps & rs & _ & _ & _ & _ & _ & _ & _ & _ & _ & Hm).
  rewrite Hm.
  assert (Pos : usable v = true ->
                In (FGRangeMeasurement.mk [pose_name row; beacon_name beacon] v
                      (Fin (3 # 4)))
                   (ranges_built self)).
  { intros Hu. apply ranges_built_in. exists beacon, row, v. auto. }
  split; [ | split ].
  - intros Hbad m Hin Ha.
    apply ranges_built_in in Hin as (b' & r' & v' & _ & Hr' & Hu & ->).
    apply pair_list_inj in Ha as [Hp Hl].
    apply pose_name_inj in Hp. apply beacon_name_inj in Hl.
    simpl in Hp, Hl. subst b' r'.
    rewrite (reading_at_unique _ _ _ _ _ Hr' Hr) in Hu.
    apply usable_spec in Hu as (U1 & U2 & U3).
    destruct Hbad as [B|[B|B]]; congruence.
  - intros U1 U2 U3. apply Pos. now apply usable_spec.
  - intros [ -> | -> ]; (split; [ reflexivity | apply Pos; reflexivity ]).
Qed.

(** C9.  Every Range Measurement of a completed ingestion carries the
    standard deviation 0.75 and so the weight 16/9, as the binary64 nearest
    to it, whichever range channel is selected; and the outcome of ingestion
    does not depend on the float power with which the discarded standard
    deviation is computed. *)
Theorem range_stddev_fixed E d b dm f :
  (forall self g,
      ingest E d b dm f = Constructed self g ->
      forall m, In m (FactorGraphData.range_measurements g) ->
        FGRangeMeasurement.stddev m = Fin (3 # 4)
        /\ exists w, FGRangeMeasurement.weight m = Returned (Fin w)
                     /\ XFloat.round (16 # 9) = Fin w
                     /\ (Qabs (w - (16 # 9)) <= 1 # 2 ^ 53)%Q)
  /\ (forall pow, ingest (with_float_pow E pow) d b dm f = ingest E d b dm f).
Proof.
  split; [ | intros pow; reflexivity ].
  intros self g H m Hin.
  apply ingest_spec in H
    as (_ & _ & gt_ps & rs & _ & _ & _ & _ & _ & _ & _ & _ & _ & Hm).
  rewrite Hm in Hin.
  apply ranges_built_in in Hin as (beacon & row & v & _ & _ & _ & ->).
  split; [ reflexivity | ].
  assert (R : XFloat.round (16 # 9) = Fin (2001599834386887 # 1125899906842624))
    by (vm_compute; reflexivity).
  exists (2001599834386887 # 1125899906842624)%Q.
  split; [ rewrite range_of_weight, R; reflexivity | ].
  split; [ exact R | ]. apply Qle_bool_iff. vm_compute. reflexivity.
Qed.

End RangeDerivation.

Lemma range_filtering_witness :
  exists self g,
    ingest (Sample.externals true Sample.silent_row Sample.two_beacons)
           Sample.data_path Sample.beacon_path 2 false
      = GoatsParser.Constructed self g
    /\ In (FGRangeMeasurement.mk ["A3"; "L0"] (fl 1) (Fin (3 # 4)))
          (FactorGraphData.range_measurements g)
    /\ In (FGRangeMeasurement.mk ["A3"; "L1"] (fl 200) (Fin (3 # 4)))
          (FactorGraphData.range_measurements g)
    /\ (forall m, In m (FactorGraphData.range_measurements g) ->
          FGRangeMeasurement.association m <> ["A1"; "L0"])
    /\ (forall m, In m (FactorGraphData.range_measurements g) ->
          FGRangeMeasurement.association m <> ["A4"; "L1"])
    /\ (forall m, In m (FactorGraphData.range_measurements g) ->
          FGRangeMeasurement.association m <> ["A4"; "L0"]).
Proof.
  destruct (ingest (Sample.externals true Sample.silent_row Sample.two_beacons)
              Sample.data_path Sample.beacon_path 2 false) as [self g|e p] eqn:H.
  - exists self, g. split; [ reflexivity | ].
    pose proof (range_filtering _ _ _ _ _ _ _ H) as T.
    assert (S : self = GoatsParser.mk Sample.data_path Sample.beacon_path 2 false
                         Sample.silent_row
                         [[fl 10; fl 20]; [fl 30; fl 40]]).
    { vm_compute in H. injection H as <- _. reflexivity. }
    assert (R : forall beacon row v,
               beacon < 2 ->
               nth_error (nth beacon [[fl 5; Sample.nan; Sample.nan; fl 1;
                                       Cplx (Fin 3) (Fin 1)];
                                      [Sample.nan; fl 9; Sample.nan; fl 200;
                                       Sample.inf]] []) row = Some v ->
               Ingested.reading_at self beacon row v).
    { intros beacon row v Hb Hn. rewrite S.
      destruct beacon as [|[|beacon]]; [ | | lia ];
        (eexists; split; [ vm_compute; reflexivity | exact Hn ]). }
    assert (N : GoatsParser.num_beacons self = 2) by (rewrite S; reflexivity).
    split; [ | split; [ | split; [ | split ] ] ].
    + destruct (T 0 3 (fl 1)) as (_ & _ & T3);
        [ rewrite N; lia | apply R; [ lia | reflexivity ] | ].
      exact (proj2 (T3 (or_introl eq_refl))).
    + destruct (T 1 3 (fl 200)) as (_ & _ & T3);
        [ rewrite N; lia | apply R; [ lia | reflexivity ] | ].
      exact (proj2 (T3 (or_intror eq_refl))).
    + destruct (T 0 1 Sample.nan) as (T1 & _);
        [ rewrite N; lia | apply R; [ lia | reflexivity ] | ].
      exact (T1 (or_introl eq_refl)).
    + destruct (T 1 4 Sample.inf) as (T1 & _);
        [ rewrite N; lia | apply R; [ lia | reflexivity ] | ].
      exact (T1 (or_intror (or_introl eq_refl))).
    + destruct (T 0 4 (Cplx (Fin 3) (Fin 1))) as (T1 & _);
        [ rewrite N; lia | apply R; [ lia | reflexivity ] | ].
      exact (T1 (or_intror (or_intror eq_refl))).
  - vm_compute in H. discriminate H.
Defined.

Lemma range_stddev_fixed_witness :
  exists self g,
    ingest (Sample.externals true Sample.silent_row Sample.two_beacons)
           Sample.data_path Sample.beacon_path 2 true
      = GoatsParser.Constructed self g
    /\ FactorGraphData.range_measurements g <> []
    /\ forall m, In m (FactorGraphData.range_measurements g) ->
         FGRangeMeasurement.stddev m = Fin (3 # 4).
Proof.
  destruct (ingest (Sample.externals true Sample.silent_row Sample.two_beacons)
              Sample.data_path Sample.beacon_path 2 true) as [self g|e p] eqn:H.
  - exists self, g. split; [ reflexivity | ].
    split.
    + vm_compute in H. injection H as _ <-. discriminate.
    + intros m Hm.
      destruct (range_stddev_fixed
                  (Sample.externals true Sample.silent_row Sample.two_beacons)
                  Sample.data_path Sample.beacon_path 2 true) as [T _].
      exact (proj1 (T self g H m Hm)).
  - vm_compute in H. discriminate H.
Defined.
(* ------------------------------------------------------------------ *)
(** * What the odometry factors are derived from *)

Section OdometryContents.

Import GoatsParser Ingested.

Variable E : Externals.
Variable self : GoatsParser.t.
Variable ps : list (list scalar).
Variable rs : list scalar.

Lemma nth_error_combine {A B : Type} (l : list A) (l' : list B) i a b' :
  nth_error (combine l l') i = Some (a, b') ->
  nth_error l i = Some a /\ nth_error l' i = Some b'.
Proof.
  revert l l'. induction i as [|i IH]; intros [|x l] [|y l']; simpl; try discriminate.
  - intros H. injection H as -> ->. auto.
  - apply IH.
Qed.

Lemma transformation_returned rot trans m :
  _get_transformation_matrix (matrix E) (make_transformation_matrix_from_theta E)
    self rot trans = Returned m ->
  m = make_transformation_matrix_from_theta E rot trans.
Proof.
  unfold _get_transformation_matrix.
  destruct (dim self =? 2)%Z.
  - destruct (negb (Np.isreal rot)); [ intros H; discriminate H | ].
    destruct (negb (Nat.eqb (length trans) 2)); intros H; [ discriminate H | ].
    now injection H as <-.
  - destruct (dim self =? 3)%Z; intros H; discriminate H.
Qed.

Lemma odometry_step_contents l idx position rot g l1 g1 k :
  odometry_step (validate_references E) (matrix E)
    (make_transformation_matrix_from_theta E)
    (get_relative_rot_and_trans_between_poses E)
    (get_theta_from_rotation_matrix E)
    (get_measurement_precisions_from_covariances E)
    self l (idx, (position, rot)) g = (Returned l1, g1) ->
  nth_error ps idx = Some position ->
  nth_error rs idx = Some rot ->
  locals_at E ps rs l k ->
  k < idx \/ idx = 0 /\ k = 0 ->
  exists new k1,
    g1 = with_odoms g new
    /\ Forall (odom_factor_of E ps rs) new
    /\ locals_at E ps rs l1 k1 /\ k1 < S idx.
Proof.
  unfold odometry_step, locals_at. intros H Hp Hr [Hb (pk & rk & Hpk & Hrk & Hprev)] Hk.
  apply bindM_returned in H as (has & g2 & Hh & H).
  apply liftM_returned in Hh as [_ ->].
  destruct has; simpl in H.
  2:{ apply retM_returned in H as [-> ->]. exists [], k.
      rewrite with_odoms_nil. split; [ reflexivity | ]. split; [ constructor | ].
      split; [ | lia ]. split; [ exact Hb | now exists pk, rk ]. }
  apply bindM_returned in H as (curr & g2 & Hc & H).
  apply liftM_returned in Hc as [Hc ->].
  apply transformation_returned in Hc. subst curr.
  destruct (Nat.eqb_spec idx 0) as [I0|I0]; simpl in H.
  { apply retM_returned in H as [-> ->]. exists [], k.
    rewrite with_odoms_nil. split; [ reflexivity | ]. split; [ constructor | ].
    split; [ | lia ]. split; [ exact Hb | now exists pk, rk ]. }
  destruct (get_relative_rot_and_trans_between_poses E _ _)
    as [relative_rot relative_trans] eqn:Hrel.
  apply bindM_returned in H as ([x y] & g2 & Hxy & H).
  apply liftM_returned in Hxy as [Hxy ->].
  assert (Ht : relative_trans = [x; y]).
  { destruct relative_trans as [|a [|c [|e t]]]; try discriminate Hxy.
    now injection Hxy as -> ->. }
  subst relative_trans.
  apply bindM_returned in H as (trans_cov & g2 & Htc & H).
  apply liftM_returned in Htc as [_ ->].
  apply bindM_returned in H as (rot_cov & g2 & Hrc & H).
  apply liftM_returned in Hrc as [_ ->].
  destruct (get_measurement_precisions_from_covariances E _ _) as [tp rp].
  apply bindM_returned in H as (m & g2 & Hm & H).
  apply liftM_returned in Hm as [Hm ->]. injection Hm as <-.
  apply bindM_returned in H as (u & g2 & Ha & H).
  apply callM_returned in Ha. apply add_odom_measurement_returned in Ha. subst g2.
  apply retM_returned in H as [-> ->].
  eexists. exists idx. split; [ reflexivity | ]. split; [ | split; [ | lia ] ].
  - constructor; [ | constructor ].
    exists k, idx, pk, rk, position, rot. simpl.
    rewrite Hb. rewrite Hprev in Hrel.
    split; [ reflexivity | ]. split; [ reflexivity | ]. split; [ lia | ].
    split; [ exact Hpk | ]. split; [ exact Hrk | ].
    split; [ exact Hp | ]. split; [ exact Hr | ].
    exists relative_rot. split; [ exact Hrel | reflexivity ].
  - split; [ reflexivity | ]. exists position, rot. simpl. auto.
Qed.

Lemma odometry_loop_contents items : forall n l g l' g' k,
  for_in items
    (odometry_step (validate_references E) (matrix E)
       (make_transformation_matrix_from_theta E)
       (get_relative_rot_and_trans_between_poses E)
       (get_theta_from_rotation_matrix E)
       (get_measurement_precisions_from_covariances E) self) l g
  = (Returned l', g') ->
  map fst items = seq n (length items) ->
  (forall idx position rot, In (idx, (position, rot)) items ->
     nth_error ps idx = Some position /\ nth_error rs idx = Some rot) ->
  locals_at E ps rs l k ->
  k < n \/ n = 0 /\ k = 0 ->
  exists new, g' = with_odoms g new /\ Forall (odom_factor_of E ps rs) new.
Proof.
  induction items as [|[idx [position rot]] items IH]; intros n l g l' g' k H Hs Hin Hl Hk.
  - simpl in H. apply retM_returned in H as [_ ->]. exists [].
    rewrite with_odoms_nil. split; [ reflexivity | constructor ].
  - apply for_in_cons in H as (l1 & g1 & Hstep & Hrest).
    simpl in Hs. injection Hs as -> Hs.
    destruct (Hin n position rot (or_introl eq_refl)) as [Hp Hr].
    destruct (odometry_step_contents _ _ _ _ _ _ _ _ Hstep Hp Hr Hl Hk)
      as (new1 & k1 & -> & F1 & Hl1 & Hk1).
    destruct (IH (S n) l1 _ l' g' k1 Hrest Hs) as (new2 & -> & F2).
    + intros i p r Hi. apply Hin. now right.
    + exact Hl1.
    + left. exact Hk1.
    + exists (new1 ++ new2). split; [ now rewrite with_odoms_app | ].
      apply Forall_app. now split.
Qed.

Lemma add_odometry_measurements_contents g u g' :
  _add_odometry_measurements (validate_references E) (matrix E)
    (make_transformation_matrix_from_theta E)
    (get_relative_rot_and_trans_between_poses E)
    (get_theta_from_rotation_matrix E)
    (get_measurement_precisions_from_covariances E) self g = (Returned u, g') ->
  positions self = Returned ps ->
  rotations self = Returned rs ->
  exists new, g' = with_odoms g new /\ Forall (odom_factor_of E ps rs) new.
Proof.
  unfold _add_odometry_measurements. intros H Hps Hrs.
  apply bindM_returned in H as (ps0 & g1 & Hp & H).
  apply liftM_returned in Hp as [Hp ->].
  rewrite Hps in Hp. injection Hp as <-.
  apply bindM_returned in H as (start_pos & g1 & Hsp & H).
  apply liftM_returned in Hsp as [Hsp ->].
  apply bindM_returned in H as (rs0 & g1 & Hr & H).
  apply liftM_returned in Hr as [Hr ->].
  rewrite Hrs in Hr. injection Hr as <-.
  apply bindM_returned in H as (start_rot & g1 & Hsr & H).
  apply liftM_returned in Hsr as [Hsr ->].
  apply bindM_returned in H as (curr & g1 & Hc & H).
  apply liftM_returned in Hc as [Hc ->].
  apply bindM_returned in H as (prev & g1 & Hv & H).
  apply liftM_returned in Hv as [Hv ->].
  apply transformation_returned in Hv. subst prev.
  apply bindM_returned in H as (ps' & g1 & Hp' & H).
  apply liftM_returned in Hp' as [Hp' ->].
  rewrite Hps in Hp'. injection Hp' as <-.
  apply bindM_returned in H as (rs' & g1 & Hr' & H).
  apply liftM_returned in Hr' as [Hr' ->].
  rewrite Hrs in Hr'. injection Hr' as <-.
  apply bindM_returned in H as (l' & g1 & Hl & H).
  apply retM_returned in H as [_ ->].
  unfold getitem in Hsp, Hsr.
  destruct (nth_error ps 0) as [p0|] eqn:Hp0; [ | discriminate Hsp ].
  destruct (nth_error rs 0) as [r0|] eqn:Hr0; [ | discriminate Hsr ].
  injection Hsp as ->. injection Hsr as ->.
  apply (odometry_loop_contents _ 0 _ _ _ _ 0 Hl).
  - rewrite map_fst_enumerate. unfold enumerate.
    rewrite (length_combine (seq 0 (length (combine ps rs))) (combine ps rs)).
    now rewrite length_seq, Nat.min_id.
  - intros idx position rot Hin. apply in_enumerate in Hin.
    now apply nth_error_combine in Hin.
  - split; [ reflexivity | ]. exists start_pos, start_rot. simpl. auto.
  - right. split; reflexivity.
Qed.

End OdometryContents.

Section OdometryFactors.

Import GoatsParser Ingested.

(** the stages of a completed [_fill_factor_graph] *)
Lemma fill_stages E self g0 u g :
  fill E self g0 = (Returned u, g) ->
  exists g1 g2 g3,
    _add_beacon_variables self g0 = (Returned tt, g1)
    /\ _add_pose_variables self g1 = (Returned tt, g2)
    /\ _add_odometry_measurements (validate_references E) (matrix E)
         (make_transformation_matrix_from_theta E)
         (get_relative_rot_and_trans_between_poses E)
         (get_theta_from_rotation_matrix E)
         (get_measurement_precisions_from_covariances E) self g2
       = (Returned tt, g3)
    /\ _add_range_measurements (validate_references E) (float_pow E) self g3
       = (Returned u, g).
Proof.
  unfold fill, _fill_factor_graph. intros H.
  apply bindM_returned in H as ([] & g1 & H1 & H).
  apply bindM_returned in H as ([] & g2 & H2 & H).
  apply bindM_returned in H as ([] & g3 & H3 & H).
  now exists g1, g2, g3.
Qed.

(** In every completed ingestion each odometry factor is derived from two
    rows of [positions] and [rotations]. *)
Lemma odometry_factors E d b dm f self g :
  ingest E d b dm f = Constructed self g ->
  exists ps rs,
    positions self = Returned ps
    /\ rotations self = Returned rs
    /\ forall factor, In factor (FactorGraphData.odom_measurements g) ->
         odom_factor_of E ps rs factor.
Proof.
  intros H. apply ingest_constructed in H as (_ & _ & _ & Hf).
  apply fill_stages in Hf as (g1 & g2 & g3 & H1 & H2 & H3 & H4).
  apply add_beacon_variables_spec in H1. subst g1.
  apply add_pose_variables_spec in H2 as (gt_ps & rs0 & _ & _ & ->).
  pose proof (add_odometry_measurements_spec _ _ _ _ _ _ _ _ _ _ H3)
    as (ps & rs & _ & Hp & Hr & _).
  destruct (add_odometry_measurements_contents E self ps rs _ _ _ H3 Hp Hr)
    as (new & -> & F).
  apply add_range_measurements_spec in H4. subst g.
  exists ps, rs. split; [ exact Hp | ]. split; [ exact Hr | ].
  simpl. intros factor Hin. rewrite Forall_forall in F. now apply F.
Qed.

Lemma in_chain_names base names a b' :
  In (a, b') (chain base names) -> In a (base :: names) /\ In b' names.
Proof.
  revert base. induction names as [|n names IH]; intros base Hin; [ contradiction | ].
  simpl in Hin. destruct Hin as [E0|Hin].
  - injection E0 as <- <-. split; now left.
  - destruct (IH n Hin) as [Ha Hb]. split; now right.
Qed.

Lemma in_consecutive names a b' :
  In (a, b') (consecutive names) -> In a names /\ In b' names.
Proof.
  destruct names as [|n names]; [ contradiction | ]. simpl. intros H.
  apply in_chain_names in H as [Ha Hb]. split; [ exact Ha | now right ].
Qed.

End OdometryFactors.

Section GroundTruthRotation.

Import GoatsParser Ingested.

(** C10.  The accessor [gt_rotations] returns what [rotations] returns, for
    every parser, and that is determined by [dim] and the yaw column
    insRPY_3 alone.  In every completed ingestion the orientation stored in
    the Pose Variable of a row is the entry of [rotations] at that row, and
    it is the orientation the odometry is derived from: the odometry factors
    join the consecutive Pose Variables, and each holds the relative pose
    the kernel computes between the transformations built from the
    orientations stored in the two Pose Variables it joins and the INS
    positions of their rows. *)
Theorem gt_rotations_are_rotations E d b dm f :
  (forall self, gt_rotations self = rotations self)
  /\ (forall self self',
        dim self = dim self' ->
        DataFrame.getitem (_data self) "insRPY_3"
          = DataFrame.getitem (_data self') "insRPY_3" ->
        gt_rotations self = gt_rotations self')
  /\ (forall self g,
        ingest E d b dm f = Constructed self g ->
        exists rs,
          rotations self = Returned rs
          /\ forall v, In v (FactorGraphData.pose_variables g) ->
               exists row, PoseVariable2D.name v = pose_name row
                           /\ nth_error rs row = Some (PoseVariable2D.true_theta v))
  /\ (forall self g,
        ingest E d b dm f = Constructed self g ->
        exists ps,
          positions self = Returned ps
          /\ odom_chain g = consecutive (pose_names g)
          /\ forall factor, In factor (FactorGraphData.odom_measurements g) ->
               exists i j vi vj pi pj,
                 In vi (FactorGraphData.pose_variables g)
                 /\ PoseVariable2D.name vi = pose_name i
                 /\ PoseMeasurement2D.base_pose (snd factor) = pose_name i
                 /\ In vj (FactorGraphData.pose_variables g)
                 /\ PoseVariable2D.name vj = pose_name j
                 /\ PoseMeasurement2D.to_pose (snd factor) = pose_name j
                 /\ i < j
                 /\ nth_error ps i = Some pi /\ nth_error ps j = Some pj
                 /\ relative_pose_of E pi (PoseVariable2D.true_theta vi)
                      pj (PoseVariable2D.true_theta vj) (snd factor)).
Proof.
  assert (Stored : forall self g,
            ingest E d b dm f = Constructed self g ->
            exists rs,
              rotations self = Returned rs
              /\ forall v, In v (FactorGraphData.pose_variables g) ->
                   exists row, PoseVariable2D.name v = pose_name row
                     /\ nth_error rs row = Some (PoseVariable2D.true_theta v)).
  { intros self g H.
    apply ingest_spec in H
      as (_ & _ & gt_ps & rs & _ & Hr & Lg & Lr & _ & _ & _ & Hp & _).
    exists rs. split; [ exact Hr | ].
    intros v Hv. rewrite Hp in Hv. unfold poses_built in Hv.
    apply in_map_iff in Hv as ([row [position rot]] & <- & Hin).
    apply filter_In in Hin as [Hin _]. apply in_enumerate in Hin.
    exists row. split; [ reflexivity | ]. simpl.
    now apply nth_error_combine in Hin. }
  split; [ reflexivity | split; [ | split; [ exact Stored | ] ] ].
  - intros self self' Hd Hy. unfold gt_rotations, rotations.
    rewrite <- Hd. simpl. now rewrite Hy.
  - intros self g H.
    destruct (Stored self g H) as (rs & Hr & Hv).
    destruct (odometry_factors _ _ _ _ _ _ _ H) as (ps & rs' & Hp & Hr' & Hf).
    rewrite Hr in Hr'. injection Hr' as <-.
    pose proof (ingest_spec _ _ _ _ _ _ _ H)
      as (_ & _ & _ & _ & _ & _ & _ & _ & _ & _ & _ & _ & Hc & _).
    exists ps. split; [ exact Hp | ]. split; [ exact Hc | ].
    intros factor Hin.
    destruct (Hf factor Hin)
      as (i & j & pi & ri & pj & rj & Hb & Ht & Hij & Hpi & Hri & Hpj & Hrj & Hrel).
    assert (Hends : In (pose_name i, pose_name j) (consecutive (pose_names g))).
    { rewrite <- Hc. unfold odom_chain. apply in_map_iff.
      exists factor. split; [ | exact Hin ]. unfold endpoints. now rewrite Hb, Ht. }
    apply in_consecutive in Hends as [Hi Hj].
    unfold pose_names in Hi, Hj.
    apply in_map_iff in Hi as (vi & Hni & Hvi).
    apply in_map_iff in Hj as (vj & Hnj & Hvj).
    assert (Ti : PoseVariable2D.true_theta vi = ri).
    { destruct (Hv vi Hvi) as (row & Hn & Hth).
      rewrite Hni in Hn. apply pose_name_inj in Hn. subst row. congruence. }
    assert (Tj : PoseVariable2D.true_theta vj = rj).
    { destruct (Hv vj Hvj) as (row & Hn & Hth).
      rewrite Hnj in Hn. apply pose_name_inj in Hn. subst row. congruence. }
    exists i, j, vi, vj, pi, pj. rewrite Ti, Tj.
    repeat (split; [ assumption | ]). exact Hrel.
Qed.

End GroundTruthRotation.

Lemma gt_rotations_are_rotations_witness :
  exists self g,
    ingest (Sample.externals true Sample.silent_row Sample.two_beacons)
           Sample.data_path Sample.beacon_path 2 true
      = GoatsParser.Constructed self g
    /\ GoatsParser.gt_rotations self
       = Returned [fl (1 # 10); fl (2 # 10); fl (3 # 10); fl (4 # 10); fl (5 # 10)]
    /\ (forall v, In v (FactorGraphData.pose_variables g) ->
         exists row, PoseVariable2D.name v = GoatsParser.pose_name row
           /\ nth_error [fl (1 # 10); fl (2 # 10); fl (3 # 10); fl (4 # 10); fl (5 # 10)]
                        row
              = Some (PoseVariable2D.true_theta v))
    /\ length (FactorGraphData.odom_measurements g) = 3
    /\ (forall factor, In factor (FactorGraphData.odom_measurements g) ->
         exists vi vj pi pj,
           In vi (FactorGraphData.pose_variables g)
           /\ PoseVariable2D.name vi = PoseMeasurement2D.base_pose (snd factor)
           /\ In vj (FactorGraphData.pose_variables g)
           /\ PoseVariable2D.name vj = PoseMeasurement2D.to_pose (snd factor)
           /\ relative_pose_of
                (Sample.externals true Sample.silent_row Sample.two_beacons)
                pi (PoseVariable2D.true_theta vi)
                pj (PoseVariable2D.true_theta vj) (snd factor)).
Proof.
  destruct (ingest (Sample.externals true Sample.silent_row Sample.two_beacons)
              Sample.data_path Sample.beacon_path 2 true) as [self g|e p] eqn:H.
  - exists self, g. split; [ reflexivity | ].
    destruct (gt_rotations_are_rotations
                (Sample.externals true Sample.silent_row Sample.two_beacons)
                Sample.data_path Sample.beacon_path 2 true) as (T1 & _ & T3 & T4).
    destruct (T3 self g H) as (rs & Hr & Hv).
    destruct (T4 self g H) as (ps & _ & _ & Hf).
    assert (S : GoatsParser.rotations self
                = Returned [fl (1 # 10); fl (2 # 10); fl (3 # 10); fl (4 # 10);
                            fl (5 # 10)]).
    { vm_compute in H. injection H as <- _. reflexivity. }
    assert (N : length (FactorGraphData.odom_measurements g) = 3).
    { vm_compute in H. injection H as _ <-. reflexivity. }
    rewrite T1. split; [ exact S | ].
    rewrite S in Hr. injection Hr as <-.
    split; [ exact Hv | ]. split; [ exact N | ].
    intros factor Hin.
    destruct (Hf factor Hin)
      as (i & j & vi & vj & pi & pj & Hvi & Hni & Hb & Hvj & Hnj & Ht & _ & _ & _ & Hrel).
    exists vi, vj, pi, pj. rewrite Hb, Ht. auto.
  - vm_compute in H. discriminate H.
Defined.

Section StructuralInput.

Import GoatsParser Ingested.

Lemma ingest_path_error E d b dm f e :
  (_ <- _verify_path_is_goats_csv d ;; _verify_path_is_goats_csv b) = Raised e ->
  ingest E d b dm f = Failed e None.
Proof.
  unfold ingest, init.
  destruct (_verify_path_is_goats_csv d) as [u|e1]; simpl.
  - destruct (_verify_path_is_goats_csv b) as [u'|e2]; simpl; intros H;
      [ discriminate H | now injection H as <- ].
  - intros H. now injection H as <-.
Qed.

Lemma verify_path_cases p :
  (path_exists p = false ->
     _verify_path_is_goats_csv p
       = Raised (ValueError (path_str p ++ " does not exist")%string))
  /\ (path_exists p = true -> path_is_file p = false ->
     _verify_path_is_goats_csv p
       = Raised (ValueError (path_str p ++ " is not a file")%string))
  /\ (path_exists p = true -> path_is_file p = true -> path_suffix p <> ".csv" ->
     _verify_path_is_goats_csv p
       = Raised (ValueError (path_str p ++ " is not a .csv file")%string)).
Proof.
  unfold _verify_path_is_goats_csv. repeat split.
  - intros ->. reflexivity.
  - intros -> ->. reflexivity.
  - intros -> -> N. simpl.
    destruct (String.eqb_spec (path_suffix p) ".csv"); [ contradiction | reflexivity ].
Qed.

(** C8.  Construction of the parser fails with an error that names the
    defect, and before the factor graph exists, when the data path or the
    beacon-location path does not exist, is not a file or does not have the
    suffix .csv, and when both files are read and the number of beacons of
    the beacon-location table differs from the number of range columns or
    from the number of filtered-range columns of the data table. *)
Theorem structural_input_errors E d b dm f :
  (path_exists d = false ->
     ingest E d b dm f
       = Failed (ValueError (path_str d ++ " does not exist")%string) None)
  /\ (path_exists d = true -> path_is_file d = false ->
     ingest E d b dm f
       = Failed (ValueError (path_str d ++ " is not a file")%string) None)
  /\ (path_exists d = true -> path_is_file d = true -> path_suffix d <> ".csv" ->
     ingest E d b dm f
       = Failed (ValueError (path_str d ++ " is not a .csv file")%string) None)
  /\ (path_ok d = true -> path_exists b = false ->
     ingest E d b dm f
       = Failed (ValueError (path_str b ++ " does not exist")%string) None)
  /\ (path_ok d = true -> path_exists b = true -> path_is_file b = false ->
     ingest E d b dm f
       = Failed (ValueError (path_str b ++ " is not a file")%string) None)
  /\ (path_ok d = true -> path_exists b = true -> path_is_file b = true ->
      path_suffix b <> ".csv" ->
     ingest E d b dm f
       = Failed (ValueError (path_str b ++ " is not a .csv file")%string) None)
  /\ (path_ok d = true -> path_ok b = true ->
      forall data table,
        read_csv E d = Returned data ->
        read_csv_headerless E b = Returned table ->
        let range_cols := filter is_range_col (DataFrame.columns data) in
        let filtered_range_cols :=
          filter is_filtered_range_col (DataFrame.columns data) in
        let beacons := length (DataFrame.columns table) in
        beacons <> length range_cols \/ beacons <> length filtered_range_cols ->
        ingest E d b dm f
          = Failed (AssertionError
                      (beacon_num_message (length range_cols)
                         (length filtered_range_cols) beacons))
                   None).
Proof.
  destruct (verify_path_cases d) as (D1 & D2 & D3).
  destruct (verify_path_cases b) as (B1 & B2 & B3).
  repeat split.
  - intros H. apply ingest_path_error. now rewrite D1.
  - intros H1 H2. apply ingest_path_error. now rewrite D2.
  - intros H1 H2 H3. apply ingest_path_error. now rewrite D3.
  - intros Hd H. apply ingest_path_error. rewrite (verify_path_ok d Hd). now apply B1.
  - intros Hd H1 H2. apply ingest_path_error. rewrite (verify_path_ok d Hd).
    now apply B2.
  - intros Hd H1 H2 H3. apply ingest_path_error. rewrite (verify_path_ok d Hd).
    now apply B3.
  - intros Hd Hb data table Hrd Hrt range_cols filtered_range_cols beacons Hne.
    unfold ingest, init, __attrs_post_init__.
    rewrite (verify_path_ok d Hd), (verify_path_ok b Hb). simpl.
    unfold load. rewrite Hrd, Hrt. simpl.
    unfold _check_beacon_num_consistent. simpl.
    rewrite length_map, length_seq.
    fold range_cols filtered_range_cols beacons.
    destruct (Nat.eqb_spec (length range_cols) (length filtered_range_cols)) as [E1|E1];
      [ destruct (Nat.eqb_spec (length filtered_range_cols) beacons) as [E2|E2] | ];
      simpl; try reflexivity.
    exfalso. destruct Hne as [N|N]; apply N; congruence.
Qed.

End StructuralInput.

Lemma structural_input_errors_witness :
  ingest (Sample.externals true Sample.silent_row Sample.three_beacons)
         Sample.data_path Sample.beacon_path 2 false
    = GoatsParser.Failed
        (AssertionError "Number of beacon info is inconsistent. 2 vs 2 vs 3") None
  /\ ingest (Sample.externals true Sample.silent_row Sample.two_beacons)
            Sample.missing_path Sample.beacon_path 2 false
     = GoatsParser.Failed (ValueError "nowhere.csv does not exist") None
  /\ ingest (Sample.externals true Sample.silent_row Sample.two_beacons)
            Sample.data_path Sample.directory_path 2 false
     = GoatsParser.Failed (ValueError "goats_14 is not a file") None
  /\ ingest (Sample.externals true Sample.silent_row Sample.two_beacons)
            Sample.text_path Sample.beacon_path 2 false
     = GoatsParser.Failed (ValueError "goats_14.txt is not a .csv file") None.
Proof.
  split; [ | split; [ | split ] ].
  - refine (proj2 (proj2 (proj2 (proj2 (proj2 (proj2
              (structural_input_errors
                 (Sample.externals true Sample.silent_row Sample.three_beacons)
                 Sample.data_path Sample.beacon_path 2 false))))))
              eq_refl eq_refl Sample.silent_row Sample.three_beacons
              eq_refl eq_refl _).
    left. simpl. lia.
  - refine (proj1 (structural_input_errors
                     (Sample.externals true Sample.silent_row Sample.two_beacons)
                     Sample.missing_path Sample.beacon_path 2 false) eq_refl).
  - refine (proj1 (proj2 (proj2 (proj2 (proj2
              (structural_input_errors
                 (Sample.externals true Sample.silent_row Sample.two_beacons)
                 Sample.data_path Sample.directory_path 2 false)))))
              eq_refl eq_refl eq_refl).
  - refine (proj1 (proj2 (proj2
              (structural_input_errors
                 (Sample.externals true Sample.silent_row Sample.two_beacons)
                 Sample.text_path Sample.beacon_path 2 false)))
              eq_refl eq_refl _).
    intros N. discriminate N.
Defined.

Section SparseBeacon.

Import GoatsParser Ingested.

(** In every completed ingestion a beacon with fewer than [dim] readings
    that are not NaN is not a Landmark Variable. *)
Lemma sparse_beacon_not_landmark E d b dm f self g :
  ingest E d b dm f = Constructed self g ->
  forall beacon ranges,
    _get_ranges self beacon = Returned ranges ->
    (Z.of_nat (Np.count_non_nan ranges) < dm)%Z ->
    ~ In (beacon_name beacon) (landmark_names g).
Proof.
  intros H beacon ranges Hr Hlt Hin.
  pose proof (ingest_spec _ _ _ _ _ _ _ H) as (Hd & _).
  apply (landmark_names_in _ _ _ _ _ _ _ H) in Hin as [_ Ha].
  unfold beacon_admitted in Ha. rewrite Hr, Hd in Ha.
  apply negb_true_iff, Z.ltb_ge in Ha. lia.
Qed.

(** C1 at the scenario of the spec: two beacons at [dim = 2], the second
    with one reading, 8.0 at row 1.  The second beacon is not added as a
    Landmark Variable, yet the range loop builds the Range Measurement
    (A1, L1) for its reading.  An aggregate that does not validate
    references ends with this measurement, which names no variable of the
    graph; an aggregate that validates them rejects it and construction of
    the parser fails. *)
Theorem sparse_beacon_range_dangles :
  (exists self g,
      ingest (Sample.externals false Sample.sparse_beacon Sample.two_beacons)
             Sample.data_path Sample.beacon_path 2 false
        = Constructed self g
      /\ (exists ranges, _get_ranges self 1 = Returned ranges
                         /\ Np.count_non_nan ranges = 1)
      /\ landmark_names g = ["L0"]
      /\ In (FGRangeMeasurement.mk ["A1"; "L1"] (fl 8) (Fin (3 # 4)))
            (FactorGraphData.range_measurements g)
      /\ FactorGraphData.range_dangles g
           (FGRangeMeasurement.mk ["A1"; "L1"] (fl 8) (Fin (3 # 4))) = true)
  /\ (exists partial,
      ingest (Sample.externals true Sample.sparse_beacon Sample.two_beacons)
             Sample.data_path Sample.beacon_path 2 false
        = Failed (ReferentialIntegrity "L1") (Some partial)
      /\ landmark_names partial = ["L0"]
      /\ pose_names partial = ["A0"; "A1"; "A2"]).
Proof.
  split.
  - eexists. eexists. split; [ vm_compute; reflexivity | ].
    split; [ eexists; split; vm_compute; reflexivity | ].
    split; [ reflexivity | ].
    split; [ vm_compute; tauto | reflexivity ].
  - eexists. split; [ vm_compute; reflexivity | ].
    split; reflexivity.
Qed.

End SparseBeacon.
